(** * Pod manifest validation: the three validators of the repository

    The repository holds three implementations of the same command, a
    validator of a Pod manifest read with gopkg.in/yaml.v3:

    - [PodFields]: src/main.go, first document.  [validatePod] looks fields
      up in a map built by [parseMapping] and appends [ValidationError]
      records to the package-level variable [errors].
    - [TopLevel]: src/main.go, second document.  A [Validator] value with
      [validateTopLevel]; every mapping is first turned into a [fields] map
      and the fields are then checked in a fixed order.
    - [Document]: src/unnamed/part_000.  A [Validator] value with
      [validateDocument]; every mapping is scanned once, in the order of its
      keys.

    What the second and the third share word for word lives in [Session]. *)

From Stdlib Require Import ZArith Ascii String DecimalString DecimalPos DecimalZ Lia.
From stdpp Require Import gmap strings list.

Local Open Scope Z_scope.

Local Notation "a == b" := (String.eqb a b) (at level 70, no associativity).

(** ** yaml.Node, as far as the validators read it *)

Module yaml.

(** [yaml.Kind]; [ZeroKind] is the kind of the zero [Node], which is what
    [yaml.Unmarshal] leaves behind for an input without any document. *)
Inductive NodeKind :=
  | ZeroKind | DocumentNode | SequenceNode | MappingNode | ScalarNode | AliasNode.

#[global] Instance NodeKind_eq_dec : EqDecision NodeKind.
Proof. solve_decision. Defined.

(** The fields [Kind], [Value], [Line] and [Content] of [yaml.Node].  A
    mapping keeps its keys and values alternating in [Content]. *)
#[warnings="-register-all"]
Inductive Node := mkNode {
  Kind : NodeKind;
  Value : string;
  Line : Z;
  Content : list Node
}.

End yaml.

Abbreviation Node := yaml.Node.

Definition kindIs (k : yaml.NodeKind) (node : Node) : bool :=
  bool_decide (yaml.Kind node = k).

(** ** The Go library functions the validators call *)

(** [%d] of [fmt.Sprintf]. *)
Definition itoa (n : Z) : string := NilZero.string_of_int (Z.to_int n).

(** [strconv.Atoi] on a platform whose [int] has 64 bits: an optional sign,
    then at least one decimal digit and nothing else.  A value outside the
    range of [int] is clamped and reported with [ErrRange]. *)
Inductive NumError := ErrSyntax | ErrRange.

Definition digitVal (c : ascii) : option Z :=
  let n := Z.of_N (N_of_ascii c) in
  if (48 <=? n) && (n <=? 57) then Some (n - 48) else None.

Fixpoint parseDigits (s : string) (acc : Z) : option Z :=
  match s with
  | EmptyString => Some acc
  | String c rest =>
      match digitVal c with
      | Some d => parseDigits rest (acc * 10 + d)
      | None => None
      end
  end.

Definition Atoi (s : string) : Z * option NumError :=
  match s with
  | EmptyString => (0, Some ErrSyntax)
  | String c rest =>
      let neg := Ascii.eqb c "-" in
      let body := if Ascii.eqb c "+" || neg then rest else s in
      match body with
      | EmptyString => (0, Some ErrSyntax)
      | _ =>
          match parseDigits body 0 with
          | None => (0, Some ErrSyntax)
          | Some un =>
              if neg then
                if 2 ^ 63 <? un then (- 2 ^ 63, Some ErrRange) else (- un, None)
              else
                if 2 ^ 63 <=? un then (2 ^ 63 - 1, Some ErrRange) else (un, None)
          end
      end
  end.

(** [strings.HasPrefix] and [strings.Contains] for a one-byte needle. *)
Definition HasPrefix (s p : string) : bool := String.prefix p s.

Fixpoint ContainsChar (s : string) (c : ascii) : bool :=
  match s with
  | EmptyString => false
  | String d rest => Ascii.eqb d c || ContainsChar rest c
  end.

(** [s[n:]] for [n <= len(s)]. *)
Fixpoint dropBytes (n : nat) (s : string) : string :=
  match n, s with
  | O, _ => s
  | S n', String _ rest => dropBytes n' rest
  | S _, EmptyString => EmptyString
  end.

(** *** Regular expressions

    Every pattern of the source has the shape [^r$] and is compiled without
    flags, so [MatchString] holds exactly when [r] matches the whole text.
    The classes of the patterns are sets of ASCII bytes; a byte of a
    multi-byte rune is in none of them, so matching bytes is matching
    runes.  The matcher is by derivatives. *)
Inductive regexp :=
  | Void
  | Eps
  | Class (p : ascii → bool)
  | Cat (r1 r2 : regexp)
  | Alt (r1 r2 : regexp)
  | Star (r : regexp).

Definition Plus (r : regexp) : regexp := Cat r (Star r).

Fixpoint nullable (r : regexp) : bool :=
  match r with
  | Void => false
  | Eps => true
  | Class _ => false
  | Cat r1 r2 => nullable r1 && nullable r2
  | Alt r1 r2 => nullable r1 || nullable r2
  | Star _ => true
  end.

Fixpoint deriv (c : ascii) (r : regexp) : regexp :=
  match r with
  | Void => Void
  | Eps => Void
  | Class p => if p c then Eps else Void
  | Cat r1 r2 =>
      if nullable r1 then Alt (Cat (deriv c r1) r2) (deriv c r2)
      else Cat (deriv c r1) r2
  | Alt r1 r2 => Alt (deriv c r1) (deriv c r2)
  | Star r1 => Cat (deriv c r1) (Star r1)
  end.

Fixpoint matches (r : regexp) (s : list ascii) : bool :=
  match s with
  | [] => nullable r
  | c :: rest => matches (deriv c r) rest
  end.

Definition MatchString (r : regexp) (s : string) : bool :=
  matches r (list_ascii_of_string s).

Definition inRange (lo hi : ascii) (c : ascii) : bool :=
  let n := N_of_ascii c in
  (N_of_ascii lo <=? n)%N && (n <=? N_of_ascii hi)%N.

Definition lower : ascii → bool := inRange "a" "z".
Definition upper : ascii → bool := inRange "A" "Z".
Definition digit : ascii → bool := inRange "0" "9".
Definition chr (a : ascii) : ascii → bool := Ascii.eqb a.

Fixpoint lit (s : string) : regexp :=
  match s with
  | EmptyString => Eps
  | String c rest => Cat (Class (chr c)) (lit rest)
  end.

(** [^[a-z]+(_[a-z]+)*$] *)
Definition snakeCaseRegex : regexp :=
  Cat (Plus (Class lower)) (Star (Cat (Class (chr "_")) (Plus (Class lower)))).

(** [^[a-z0-9_]+$] *)
Definition looseSnakeRegex : regexp :=
  Plus (Class (λ c, lower c || digit c || chr "_" c)).

(** [^\d+(Gi|Mi|Ki)$] *)
Definition memoryRegex : regexp :=
  Cat (Plus (Class digit)) (Alt (lit "Gi") (Alt (lit "Mi") (lit "Ki"))).

(** [^registry\.bigbrother\.io/[a-zA-Z0-9][a-zA-Z0-9_.-]+:[a-zA-Z0-9_.-]+$] *)
Definition alnum (c : ascii) : bool := lower c || upper c || digit c.
Definition nameByte (c : ascii) : bool :=
  alnum c || chr "_" c || chr "." c || chr "-" c.
Definition imageRegex : regexp :=
  Cat (lit "registry.bigbrother.io/")
    (Cat (Class alnum)
       (Cat (Plus (Class nameByte))
          (Cat (Class (chr ":")) (Plus (Class nameByte))))).

(** ** src/main.go, first document: [validatePod] and the package-level
    [errors] *)

Module PodFields.

Record ValidationError := {
  File : string;
  Line : Z;
  Message : string
}.

(** [func (e ValidationError) String() string] *)
Definition String_ (e : ValidationError) : string :=
  if 0 <? Line e then File e +:+ ":" +:+ itoa (Line e) +:+ " " +:+ Message e
  else File e +:+ " " +:+ Message e.

(** The loop of [parseMapping]; a key without a value ([i+1 = len]) is
    skipped by the guard of the source. *)
Fixpoint parseMapping_loop (content : list Node) (result : gmap string Node)
  : gmap string Node :=
  match content with
  | key :: value :: rest =>
      parseMapping_loop rest (<[yaml.Value key := value]> result)
  | _ => result
  end.

Definition parseMapping (node : Node) : gmap string Node :=
  if negb (kindIs yaml.MappingNode node) then ∅
  else parseMapping_loop (yaml.Content node) ∅.

Definition hasField (m : gmap string Node) (key : string) : bool :=
  bool_decide (is_Some (m !! key)).

Definition getStringValue (m : gmap string Node) (key : string) : string :=
  match m !! key with Some node => yaml.Value node | None => "" end.

Definition getIntValue (m : gmap string Node) (key : string) : Z :=
  match m !! key with Some node => fst (Atoi (yaml.Value node)) | None => 0 end.

Definition getFieldLine (m : gmap string Node) (key : string) : Z :=
  match m !! key with Some node => yaml.Line node | None => 0 end.

Definition isValidSnakeCase (s : string) : bool :=
  MatchString looseSnakeRegex s && negb (s == "").

Definition isValidMemoryFormat (s : string) : bool :=
  MatchString memoryRegex s.

(** Every function below threads the package-level slice [errors]: it takes
    the slice as it stands and returns it with what the call appended. *)

Definition validateMetadata (node : Node) (filePath : string)
    (errors : list ValidationError) : list ValidationError :=
  if negb (kindIs yaml.MappingNode node) then errors else
  let metadata := parseMapping node in
  if negb (hasField metadata "name") then
    errors ++ [{| File := filePath; Line := 0;
                  Message := "metadata.name is required" |}]
  else
    let name := getStringValue metadata "name" in
    if name == "" then
      errors ++ [{| File := filePath; Line := getFieldLine metadata "name";
                    Message := "metadata.name is required" |}]
    else errors.

Definition validateOS (node : Node) (filePath : string)
    (errors : list ValidationError) : list ValidationError :=
  if negb (kindIs yaml.MappingNode node) then errors else
  let osMap := parseMapping node in
  if negb (hasField osMap "name") then
    errors ++ [{| File := filePath; Line := yaml.Line node;
                  Message := "os.name is required" |}]
  else
    let osName := getStringValue osMap "name" in
    if negb (osName == "linux") && negb (osName == "windows") then
      errors ++ [{| File := filePath; Line := getFieldLine osMap "name";
                    Message := "os.name has unsupported value '" +:+ osName +:+ "'" |}]
    else errors.

Definition validateImage (image : string) (line : Z) (filePath : string)
    (errors : list ValidationError) : list ValidationError :=
  if negb (HasPrefix image "registry.bigbrother.io/") then
    errors ++ [{| File := filePath; Line := line;
                  Message := "containers.image has invalid format '" +:+ image +:+ "'" |}]
  else if negb (ContainsChar
                  (dropBytes (String.length "registry.bigbrother.io/") image) ":") then
    errors ++ [{| File := filePath; Line := line;
                  Message := "containers.image has invalid format '" +:+ image +:+ "'" |}]
  else errors.

Definition validatePorts_body (portNode : Node) (filePath : string)
    (errors : list ValidationError) : list ValidationError :=
  if negb (kindIs yaml.MappingNode portNode) then errors else
  let port := parseMapping portNode in
  let errors :=
    if negb (hasField port "containerPort") then
      errors ++ [{| File := filePath; Line := yaml.Line portNode;
                    Message := "containers.ports.containerPort is required" |}]
    else
      let portValue := getIntValue port "containerPort" in
      if (portValue <=? 0) || (65535 <? portValue) then
        errors ++ [{| File := filePath; Line := getFieldLine port "containerPort";
                      Message := "containers.ports.containerPort value out of range" |}]
      else errors in
  if hasField port "protocol" then
    let protocol := getStringValue port "protocol" in
    if negb (protocol == "TCP") && negb (protocol == "UDP") then
      errors ++ [{| File := filePath; Line := getFieldLine port "protocol";
                    Message := "containers.ports.protocol has unsupported value '"
                               +:+ protocol +:+ "'" |}]
    else errors
  else errors.

Definition validatePorts (node : Node) (filePath : string)
    (errors : list ValidationError) : list ValidationError :=
  if negb (kindIs yaml.SequenceNode node) then errors else
  fold_left (λ errors portNode, validatePorts_body portNode filePath errors)
    (yaml.Content node) errors.

Definition validateHTTPGetAction (node : Node) (probeName filePath : string)
    (errors : list ValidationError) : list ValidationError :=
  if negb (kindIs yaml.MappingNode node) then errors else
  let action := parseMapping node in
  let errors :=
    if negb (hasField action "path") then
      errors ++ [{| File := filePath; Line := yaml.Line node;
                    Message := "containers." +:+ probeName +:+ ".httpGet.path is required" |}]
    else
      let path := getStringValue action "path" in
      if negb (HasPrefix path "/") then
        errors ++ [{| File := filePath; Line := getFieldLine action "path";
                      Message := "containers." +:+ probeName
                                 +:+ ".httpGet.path has invalid format '" +:+ path +:+ "'" |}]
      else errors in
  if negb (hasField action "port") then
    errors ++ [{| File := filePath; Line := yaml.Line node;
                  Message := "containers." +:+ probeName +:+ ".httpGet.port is required" |}]
  else
    let portValue := getIntValue action "port" in
    if (portValue <=? 0) || (65535 <? portValue) then
      errors ++ [{| File := filePath; Line := getFieldLine action "port";
                    Message := "containers." +:+ probeName
                               +:+ ".httpGet.port value out of range" |}]
    else errors.

Definition validateProbe (node : Node) (probeName filePath : string)
    (errors : list ValidationError) : list ValidationError :=
  if negb (kindIs yaml.MappingNode node) then errors else
  let probe := parseMapping node in
  match probe !! "httpGet" with
  | None =>
      errors ++ [{| File := filePath; Line := yaml.Line node;
                    Message := "containers." +:+ probeName +:+ ".httpGet is required" |}]
  | Some httpGet => validateHTTPGetAction httpGet probeName filePath errors
  end.

Definition validateResourceSpec (node : Node) (specName filePath : string)
    (errors : list ValidationError) : list ValidationError :=
  if negb (kindIs yaml.MappingNode node) then errors else
  let spec := parseMapping node in
  let errors :=
    if hasField spec "cpu" then
      let cpuValue := getIntValue spec "cpu" in
      if cpuValue <=? 0 then
        errors ++ [{| File := filePath; Line := getFieldLine spec "cpu";
                      Message := "containers.resources." +:+ specName
                                 +:+ ".cpu value out of range" |}]
      else errors
    else errors in
  if hasField spec "memory" then
    let memory := getStringValue spec "memory" in
    if negb (isValidMemoryFormat memory) then
      errors ++ [{| File := filePath; Line := getFieldLine spec "memory";
                    Message := "containers.resources." +:+ specName
                               +:+ ".memory has invalid format '" +:+ memory +:+ "'" |}]
    else errors
  else errors.

Definition validateResources (node : Node) (filePath : string)
    (errors : list ValidationError) : list ValidationError :=
  if negb (kindIs yaml.MappingNode node) then errors else
  let resources := parseMapping node in
  let errors :=
    match resources !! "requests" with
    | Some requests => validateResourceSpec requests "requests" filePath errors
    | None => errors
    end in
  match resources !! "limits" with
  | Some limits => validateResourceSpec limits "limits" filePath errors
  | None => errors
  end.

(** One round of the loop of [validateContainers]; [containerNames] is the
    map the loop fills, returned with the slice. *)
Definition validateContainers_body (containerNode : Node) (filePath : string)
    (st : gmap string bool * list ValidationError)
  : gmap string bool * list ValidationError :=
  let '(containerNames, errors) := st in
  if negb (kindIs yaml.MappingNode containerNode) then (containerNames, errors) else
  let container := parseMapping containerNode in
  let '(containerNames, errors) :=
    if negb (hasField container "name") then
      (containerNames,
       errors ++ [{| File := filePath; Line := yaml.Line containerNode;
                     Message := "containers.name is required" |}])
    else
      let name := getStringValue container "name" in
      let errors :=
        if negb (isValidSnakeCase name) then
          errors ++ [{| File := filePath; Line := getFieldLine container "name";
                        Message := "containers.name has invalid format '" +:+ name +:+ "'" |}]
        else errors in
      let errors :=
        if default false (containerNames !! name) then
          errors ++ [{| File := filePath; Line := getFieldLine container "name";
                        Message := "containers.name must be unique, '" +:+ name
                                   +:+ "' is duplicated" |}]
        else errors in
      (<[name := true]> containerNames, errors) in
  let errors :=
    if negb (hasField container "image") then
      errors ++ [{| File := filePath; Line := yaml.Line containerNode;
                    Message := "containers.image is required" |}]
    else
      let image := getStringValue container "image" in
      validateImage image (getFieldLine container "image") filePath errors in
  let errors :=
    match container !! "ports" with
    | Some ports => validatePorts ports filePath errors
    | None => errors
    end in
  let errors :=
    match container !! "readinessProbe" with
    | Some probe => validateProbe probe "readinessProbe" filePath errors
    | None => errors
    end in
  let errors :=
    match container !! "livenessProbe" with
    | Some probe => validateProbe probe "livenessProbe" filePath errors
    | None => errors
    end in
  let errors :=
    match container !! "resources" with
    | None =>
        errors ++ [{| File := filePath; Line := yaml.Line containerNode;
                      Message := "containers.resources is required" |}]
    | Some resources => validateResources resources filePath errors
    end in
  (containerNames, errors).

Definition validateContainers (node : Node) (filePath : string)
    (errors : list ValidationError) : list ValidationError :=
  if negb (kindIs yaml.SequenceNode node) then
    errors ++ [{| File := filePath; Line := yaml.Line node;
                  Message := "spec.containers must be a list" |}]
  else
    snd (fold_left
           (λ st containerNode, validateContainers_body containerNode filePath st)
           (yaml.Content node) (∅, errors)).

Definition validateSpec (node : Node) (filePath : string)
    (errors : list ValidationError) : list ValidationError :=
  if negb (kindIs yaml.MappingNode node) then errors else
  let spec := parseMapping node in
  let errors :=
    match spec !! "os" with
    | Some os => validateOS os filePath errors
    | None => errors
    end in
  match spec !! "containers" with
  | None =>
      errors ++ [{| File := filePath; Line := 0;
                    Message := "spec.containers is required" |}]
  | Some containers => validateContainers containers filePath errors
  end.

Definition validatePod (root : Node) (filePath : string)
    (errors : list ValidationError) : list ValidationError :=
  if negb (kindIs yaml.DocumentNode root) then errors else
  match yaml.Content root with
  | [] => errors
  | doc :: _ =>
      if negb (kindIs yaml.MappingNode doc) then errors else
      let pod := parseMapping doc in
      let errors :=
        if negb (hasField pod "apiVersion") then
          errors ++ [{| File := filePath; Line := 0;
                        Message := "apiVersion is required" |}]
        else
          let apiVersion := getStringValue pod "apiVersion" in
          if negb (apiVersion == "v1") then
            errors ++ [{| File := filePath; Line := getFieldLine pod "apiVersion";
                          Message := "apiVersion has unsupported value '"
                                     +:+ apiVersion +:+ "'" |}]
          else errors in
      let errors :=
        if negb (hasField pod "kind") then
          errors ++ [{| File := filePath; Line := 0; Message := "kind is required" |}]
        else
          let kind := getStringValue pod "kind" in
          if negb (kind == "Pod") then
            errors ++ [{| File := filePath; Line := getFieldLine pod "kind";
                          Message := "kind has unsupported value '" +:+ kind +:+ "'" |}]
          else errors in
      let errors :=
        match pod !! "metadata" with
        | None =>
            errors ++ [{| File := filePath; Line := 0;
                          Message := "metadata is required" |}]
        | Some metadata => validateMetadata metadata filePath errors
        end in
      match pod !! "spec" with
      | None =>
          errors ++ [{| File := filePath; Line := 0; Message := "spec is required" |}]
      | Some spec => validateSpec spec filePath errors
      end
  end.

(** What [main] writes to standard error after [validatePod], one line per
    element of [errors], starting from the empty slice of a new process. *)
Definition run (root : Node) (filePath : string) : list string :=
  map String_ (validatePod root filePath []).

End PodFields.

(** ** The [Validator] of src/main.go (second document) and of
    src/unnamed/part_000: what the two files share word for word *)

Module Session.

Record Validator := {
  filename : string;
  errors : list string
}.

Definition NewValidator (filename : string) : Validator :=
  {| filename := filename; errors := [] |}.

(** A method of [*Validator]: it reads and updates the receiver, and either
    returns or stops the process with a run-time panic ([None]). *)
Definition M (A : Type) : Type := Validator → option (A * Validator).

Definition ret {A} (a : A) : M A := λ v, Some (a, v).

Definition bind {A B} (m : M A) (k : A → M B) : M B :=
  λ v, match m v with
       | Some (a, v') => k a v'
       | None => None
       end.

(** An index out of range. *)
Definition panic {A} : M A := λ _, None.

Declare Scope method_scope.
Delimit Scope method_scope with method.
Bind Scope method_scope with M.
Notation "x <- m ;; k" := (bind m (λ x, k))
  (at level 100, m at next level, k at level 200, right associativity)
  : method_scope.
Notation "m ;; k" := (bind m (λ _, k))
  (at level 100, k at level 200, right associativity) : method_scope.
Open Scope method_scope.

(** The line [Errorf] appends for a message already formatted. *)
Definition errorLine (filename : string) (line : Z) (msg : string) : string :=
  if 0 <? line then filename +:+ ":" +:+ itoa line +:+ " " +:+ msg
  else filename +:+ " " +:+ msg.

(** [func (v *Validator) Errorf(line int, format string, args ...interface{})];
    [msg] is [fmt.Sprintf(format, args...)]. *)
Definition Errorf (line : Z) (msg : string) : M unit :=
  λ v, Some (tt, {| filename := filename v;
                    errors := errors v ++ [errorLine (filename v) line msg] |}).

Definition when (b : bool) (m : M unit) : M unit := if b then m else ret tt.

(** [for i := 0; i < len(node.Content); i += 2 {
       key := node.Content[i]; value := node.Content[i+1]; body }]:
    [s] holds the variables the body assigns.  With an odd number of
    elements the last round panics at [node.Content[i+1]]. *)
Fixpoint forPairs {S} (body : Node → Node → S → M S) (content : list Node) (s : S)
  : M S :=
  match content with
  | [] => ret s
  | [key] => panic
  | key :: value :: rest => s' <- body key value s ;; forPairs body rest s'
  end.

(** [for _, x := range node.Content { body }] *)
Fixpoint forRange {S} (body : Node → S → M S) (content : list Node) (s : S) : M S :=
  match content with
  | [] => ret s
  | x :: rest => s' <- body x s ;; forRange body rest s'
  end.

Definition validateLabels (node : Node) : M unit :=
  if negb (kindIs yaml.MappingNode node) then
    Errorf (yaml.Line node) "labels must be mapping"
  else
    forPairs (λ key value _,
      when (negb (kindIs yaml.ScalarNode key))
        (Errorf (yaml.Line key) "label key must be string") ;;
      when (negb (kindIs yaml.ScalarNode value))
        (Errorf (yaml.Line value) "label value must be string"))
      (yaml.Content node) tt.

Definition validateOS (node : Node) : M unit :=
  if negb (kindIs yaml.ScalarNode node) then
    Errorf (yaml.Line node) "os must be string"
  else
    when (negb (yaml.Value node == "linux") && negb (yaml.Value node == "windows"))
      (Errorf (yaml.Line node)
         ("os has unsupported value '" +:+ yaml.Value node +:+ "'")).

(** [names] is the map of the caller, updated in place by the source and
    returned here. *)
Definition validateContainerName (node : Node) (names : gmap string bool)
  : M (gmap string bool) :=
  if negb (kindIs yaml.ScalarNode node) then
    Errorf (yaml.Line node) "container name must be string" ;; ret names
  else if yaml.Value node == "" then
    Errorf (yaml.Line node) "name is required" ;; ret names
  else if negb (MatchString snakeCaseRegex (yaml.Value node)) then
    Errorf (yaml.Line node)
      ("container name has invalid format '" +:+ yaml.Value node +:+ "'") ;;
    ret names
  else if default false (names !! yaml.Value node) then
    Errorf (yaml.Line node)
      ("container name '" +:+ yaml.Value node +:+ "' is not unique") ;;
    ret names
  else ret (<[yaml.Value node := true]> names).

Definition validateImage (node : Node) : M unit :=
  if negb (kindIs yaml.ScalarNode node) then
    Errorf (yaml.Line node) "image must be string"
  else
    when (negb (MatchString imageRegex (yaml.Value node)))
      (Errorf (yaml.Line node)
         ("image has invalid format '" +:+ yaml.Value node +:+ "'")).

Definition validateMemory (node : Node) (prefix : string) : M unit :=
  if negb (kindIs yaml.ScalarNode node) then
    Errorf (yaml.Line node) (prefix +:+ ".memory must be string")
  else
    when (negb (MatchString memoryRegex (yaml.Value node)))
      (Errorf (yaml.Line node)
         (prefix +:+ ".memory has invalid format '" +:+ yaml.Value node +:+ "'")).

Definition validateContainerPort (node : Node) : M unit :=
  if negb (kindIs yaml.ScalarNode node) then
    Errorf (yaml.Line node) "containerPort must be integer"
  else
    match Atoi (yaml.Value node) with
    | (_, Some _) => Errorf (yaml.Line node) "containerPort must be integer"
    | (port, None) =>
        when ((port <=? 0) || (65536 <=? port))
          (Errorf (yaml.Line node) "containerPort value out of range")
    end.

Definition validateProtocol (node : Node) : M unit :=
  if negb (kindIs yaml.ScalarNode node) then
    Errorf (yaml.Line node) "protocol must be string"
  else
    when (negb (yaml.Value node == "TCP") && negb (yaml.Value node == "UDP"))
      (Errorf (yaml.Line node)
         ("protocol has unsupported value '" +:+ yaml.Value node +:+ "'")).

Definition validateProbePort (node : Node) : M unit :=
  if negb (kindIs yaml.ScalarNode node) then
    Errorf (yaml.Line node) "port must be integer"
  else
    match Atoi (yaml.Value node) with
    | (_, Some _) => Errorf (yaml.Line node) "port must be integer"
    | (port, None) =>
        when ((port <=? 0) || (65536 <=? port))
          (Errorf (yaml.Line node) "port value out of range")
    end.

(** [len(s) == 0 || s[0] != '/'] *)
Definition notAbsolute (s : string) : bool :=
  match s with
  | EmptyString => true
  | String c _ => negb (Ascii.eqb c "/")
  end.

(** The end of [Validate]: every line of [v.errors] goes to standard error
    and the result is an error exactly when there is one. *)
Definition report : M bool :=
  λ v, Some (negb (bool_decide (errors v = [])), v).

(** The lines a process prints for [NewValidator(filename)] and the method
    [validate]; [None] when it panics before it prints. *)
Definition stderr {A} (validate : M A) (filename : string) : option (list string) :=
  match validate (NewValidator filename) with
  | Some (_, v) => Some (errors v)
  | None => None
  end.

End Session.

(** ** src/main.go, second document: [validateTopLevel] *)

Module TopLevel.
Import Session.

(** [fields := make(map[string]*yaml.Node)] and the loop that fills it, as
    every function of this file that reads a mapping starts. *)
Definition collectFields (content : list Node) : M (gmap string Node) :=
  forPairs (λ key value fields, ret (<[yaml.Value key := value]> fields)) content ∅.

Definition validateAPIVersion (node : Node) : M unit :=
  when (negb (yaml.Value node == "v1"))
    (Errorf (yaml.Line node)
       ("apiVersion has unsupported value '" +:+ yaml.Value node +:+ "'")).

Definition validateKind (node : Node) : M unit :=
  when (negb (yaml.Value node == "Pod"))
    (Errorf (yaml.Line node)
       ("kind has unsupported value '" +:+ yaml.Value node +:+ "'")).

Definition validateMetadata (node : Node) : M unit :=
  if negb (kindIs yaml.MappingNode node) then
    Errorf (yaml.Line node) "metadata must be mapping"
  else
    fields <- collectFields (yaml.Content node) ;;
    match fields !! "name" with
    | None => Errorf 0 "metadata.name is required"
    | Some nameNode =>
        if negb (kindIs yaml.ScalarNode nameNode) then
          Errorf (yaml.Line nameNode) "name must be string"
        else when (yaml.Value nameNode == "")
               (Errorf (yaml.Line nameNode) "name is required")
    end ;;
    match fields !! "namespace" with
    | Some namespaceNode =>
        when (negb (kindIs yaml.ScalarNode namespaceNode))
          (Errorf (yaml.Line namespaceNode) "namespace must be string")
    | None => ret tt
    end ;;
    match fields !! "labels" with
    | Some labelsNode => validateLabels labelsNode
    | None => ret tt
    end.

Definition validateCPU (node : Node) (prefix : string) : M unit :=
  if negb (kindIs yaml.ScalarNode node) then
    Errorf (yaml.Line node) (prefix +:+ ".cpu must be integer")
  else
    match Atoi (yaml.Value node) with
    | (_, Some _) => Errorf (yaml.Line node) (prefix +:+ ".cpu must be integer")
    | (_, None) => ret tt
    end.

Definition validateResourceRequirements (node : Node) (prefix : string) : M unit :=
  if negb (kindIs yaml.MappingNode node) then
    Errorf (yaml.Line node) (prefix +:+ " must be mapping")
  else
    forPairs (λ key value _,
      if yaml.Value key == "cpu" then validateCPU value prefix
      else if yaml.Value key == "memory" then validateMemory value prefix
      else Errorf (yaml.Line key)
             (prefix +:+ "." +:+ yaml.Value key +:+ " has unsupported resource type"))
      (yaml.Content node) tt.

Definition validateResources (node : Node) : M unit :=
  if negb (kindIs yaml.MappingNode node) then
    Errorf (yaml.Line node) "resources must be mapping"
  else
    fields <- collectFields (yaml.Content node) ;;
    match fields !! "requests" with
    | Some requestsNode => validateResourceRequirements requestsNode "requests"
    | None => ret tt
    end ;;
    match fields !! "limits" with
    | Some limitsNode => validateResourceRequirements limitsNode "limits"
    | None => ret tt
    end.

Definition validatePorts (node : Node) : M unit :=
  if negb (kindIs yaml.SequenceNode node) then
    Errorf (yaml.Line node) "ports must be sequence"
  else
    forRange (λ portNode _,
      if negb (kindIs yaml.MappingNode portNode) then
        Errorf (yaml.Line portNode) "port must be mapping"
      else
        fields <- collectFields (yaml.Content portNode) ;;
        match fields !! "containerPort" with
        | None => Errorf 0 "containerPort is required"
        | Some portNode => validateContainerPort portNode
        end ;;
        match fields !! "protocol" with
        | Some protocolNode => validateProtocol protocolNode
        | None => ret tt
        end)
      (yaml.Content node) tt.

Definition validateHTTPGetAction (node : Node) : M unit :=
  if negb (kindIs yaml.MappingNode node) then
    Errorf (yaml.Line node) "httpGet must be mapping"
  else
    fields <- collectFields (yaml.Content node) ;;
    match fields !! "path" with
    | None => Errorf 0 "path is required"
    | Some pathNode =>
        if negb (kindIs yaml.ScalarNode pathNode) then
          Errorf (yaml.Line pathNode) "path must be string"
        else when (notAbsolute (yaml.Value pathNode))
               (Errorf (yaml.Line pathNode) "path must be absolute path")
    end ;;
    match fields !! "port" with
    | None => Errorf 0 "port is required"
    | Some portNode => validateProbePort portNode
    end.

Definition validateProbe (node : Node) : M unit :=
  if negb (kindIs yaml.MappingNode node) then
    Errorf (yaml.Line node) "probe must be mapping"
  else
    fields <- collectFields (yaml.Content node) ;;
    match fields !! "httpGet" with
    | None => Errorf 0 "httpGet is required"
    | Some httpGetNode => validateHTTPGetAction httpGetNode
    end.

(** One round of the loop of [validateContainers]. *)
Definition validateContainers_body (containerNode : Node)
    (containerNames : gmap string bool) : M (gmap string bool) :=
  if negb (kindIs yaml.MappingNode containerNode) then
    Errorf (yaml.Line containerNode) "container must be mapping" ;;
    ret containerNames
  else
    fields <- collectFields (yaml.Content containerNode) ;;
    containerNames <-
      match fields !! "name" with
      | None => Errorf 0 "container name is required" ;; ret containerNames
      | Some nameNode => validateContainerName nameNode containerNames
      end ;;
    match fields !! "image" with
    | None => Errorf 0 "container image is required"
    | Some imageNode => validateImage imageNode
    end ;;
    match fields !! "resources" with
    | None => Errorf 0 "container resources is required"
    | Some resourcesNode => validateResources resourcesNode
    end ;;
    match fields !! "ports" with
    | Some portsNode => validatePorts portsNode
    | None => ret tt
    end ;;
    match fields !! "readinessProbe" with
    | Some probeNode => validateProbe probeNode
    | None => ret tt
    end ;;
    match fields !! "livenessProbe" with
    | Some probeNode => validateProbe probeNode
    | None => ret tt
    end ;;
    ret containerNames.

Definition validateContainers (node : Node) : M unit :=
  if negb (kindIs yaml.SequenceNode node) then
    Errorf (yaml.Line node) "containers must be sequence"
  else
    forRange validateContainers_body (yaml.Content node) ∅ ;; ret tt.

Definition validateSpec (node : Node) : M unit :=
  if negb (kindIs yaml.MappingNode node) then
    Errorf (yaml.Line node) "spec must be mapping"
  else
    fields <- collectFields (yaml.Content node) ;;
    match fields !! "os" with
    | Some osNode => validateOS osNode
    | None => ret tt
    end ;;
    match fields !! "containers" with
    | None => Errorf 0 "spec.containers is required"
    | Some containersNode => validateContainers containersNode
    end.

Definition validateTopLevel (root : Node) : M unit :=
  match yaml.Content root with
  | [] => Errorf 0 "empty document"
  | doc :: _ =>
      if negb (kindIs yaml.MappingNode doc) then
        Errorf (yaml.Line doc) "root must be mapping"
      else
        fields <- collectFields (yaml.Content doc) ;;
        match fields !! "apiVersion" with
        | None => Errorf 0 "apiVersion is required"
        | Some node => validateAPIVersion node
        end ;;
        match fields !! "kind" with
        | None => Errorf 0 "kind is required"
        | Some node => validateKind node
        end ;;
        match fields !! "metadata" with
        | None => Errorf 0 "metadata is required"
        | Some node => validateMetadata node
        end ;;
        match fields !! "spec" with
        | None => Errorf 0 "spec is required"
        | Some node => validateSpec node
        end
  end.

Definition Validate (root : Node) : M bool :=
  validateTopLevel root ;; report.

End TopLevel.

(** ** src/unnamed/part_000: [validateDocument] *)

Module Document.
Import Session.

Definition validateAPIVersion (node : Node) : M unit :=
  if negb (kindIs yaml.ScalarNode node) then
    Errorf (yaml.Line node) "apiVersion must be string"
  else
    when (negb (yaml.Value node == "v1"))
      (Errorf (yaml.Line node)
         ("apiVersion has unsupported value '" +:+ yaml.Value node +:+ "'")).

Definition validateKind (node : Node) : M unit :=
  if negb (kindIs yaml.ScalarNode node) then
    Errorf (yaml.Line node) "kind must be string"
  else
    when (negb (yaml.Value node == "Pod"))
      (Errorf (yaml.Line node)
         ("kind has unsupported value '" +:+ yaml.Value node +:+ "'")).

Definition validateName (node : Node) : M unit :=
  if negb (kindIs yaml.ScalarNode node) then
    Errorf (yaml.Line node) "name must be string"
  else
    when (yaml.Value node == "") (Errorf (yaml.Line node) "name is required").

Definition validateMetadata (node : Node) : M unit :=
  if negb (kindIs yaml.MappingNode node) then
    Errorf (yaml.Line node) "metadata must be mapping"
  else
    nameNode <-
      forPairs (λ key value (nameNode : option Node),
        if yaml.Value key == "name" then ret (Some value)
        else if yaml.Value key == "namespace" then
          when (negb (kindIs yaml.ScalarNode value))
            (Errorf (yaml.Line value) "namespace must be string") ;;
          ret nameNode
        else if yaml.Value key == "labels" then
          validateLabels value ;; ret nameNode
        else ret nameNode)
        (yaml.Content node) None ;;
    match nameNode with
    | None => Errorf 0 "metadata.name is required"
    | Some nameNode => validateName nameNode
    end.

Definition validateCPU (node : Node) : M unit :=
  if negb (kindIs yaml.ScalarNode node) then
    Errorf (yaml.Line node) "cpu must be integer"
  else
    match Atoi (yaml.Value node) with
    | (_, Some _) => Errorf (yaml.Line node) "cpu must be int"
    | (_, None) => ret tt
    end.

Definition validateResourceRequirements (node : Node) (prefix : string) : M unit :=
  if negb (kindIs yaml.MappingNode node) then
    Errorf (yaml.Line node) (prefix +:+ " must be mapping")
  else
    forPairs (λ key value _,
      if yaml.Value key == "cpu" then validateCPU value
      else if yaml.Value key == "memory" then validateMemory value prefix
      else ret tt)
      (yaml.Content node) tt.

Definition validateResources (node : Node) : M unit :=
  if negb (kindIs yaml.MappingNode node) then
    Errorf (yaml.Line node) "resources must be mapping"
  else
    forPairs (λ key value _,
      if yaml.Value key == "requests" then
        validateResourceRequirements value "requests"
      else if yaml.Value key == "limits" then
        validateResourceRequirements value "limits"
      else ret tt)
      (yaml.Content node) tt.

Definition validatePorts (node : Node) : M unit :=
  if negb (kindIs yaml.SequenceNode node) then
    Errorf (yaml.Line node) "ports must be sequence"
  else
    forRange (λ portNode _,
      if negb (kindIs yaml.MappingNode portNode) then
        Errorf (yaml.Line portNode) "port must be mapping"
      else
        containerPortNode <-
          forPairs (λ key value (containerPortNode : option Node),
            if yaml.Value key == "containerPort" then ret (Some value)
            else if yaml.Value key == "protocol" then
              validateProtocol value ;; ret containerPortNode
            else ret containerPortNode)
            (yaml.Content portNode) None ;;
        match containerPortNode with
        | None => Errorf 0 "containerPort is required"
        | Some containerPortNode => validateContainerPort containerPortNode
        end)
      (yaml.Content node) tt.

Definition validatePath (node : Node) : M unit :=
  if negb (kindIs yaml.ScalarNode node) then
    Errorf (yaml.Line node) "path must be string"
  else
    when (notAbsolute (yaml.Value node))
      (Errorf (yaml.Line node) "path must be absolute path").

Definition validateHTTPGetAction (node : Node) : M unit :=
  if negb (kindIs yaml.MappingNode node) then
    Errorf (yaml.Line node) "httpGet must be mapping"
  else
    vars <-
      forPairs (λ key value '(pathNode, portNode),
        if yaml.Value key == "path" then ret (Some value, portNode)
        else if yaml.Value key == "port" then ret (pathNode, Some value)
        else ret (pathNode, portNode))
        (yaml.Content node) (None : option Node, None : option Node) ;;
    let '(pathNode, portNode) := vars in
    match pathNode with
    | None => Errorf 0 "path is required"
    | Some pathNode => validatePath pathNode
    end ;;
    match portNode with
    | None => Errorf 0 "port is required"
    | Some portNode => validateProbePort portNode
    end.

Definition validateProbe (node : Node) : M unit :=
  if negb (kindIs yaml.MappingNode node) then
    Errorf (yaml.Line node) "probe must be mapping"
  else
    httpGetNode <-
      forPairs (λ key value (httpGetNode : option Node),
        if yaml.Value key == "httpGet" then ret (Some value) else ret httpGetNode)
        (yaml.Content node) None ;;
    match httpGetNode with
    | None => Errorf 0 "httpGet is required"
    | Some httpGetNode => validateHTTPGetAction httpGetNode
    end.

(** The variables [nameNode], [imageNode] and [resourcesNode] of
    [validateContainer]. *)
Record containerVars := {
  nameNode : option Node;
  imageNode : option Node;
  resourcesNode : option Node
}.

(** The body of the loop of [validateContainer]. *)
Definition validateContainer_scan (key value : Node) (vars : containerVars)
  : M containerVars :=
  if yaml.Value key == "name" then
    ret {| nameNode := Some value; imageNode := imageNode vars;
           resourcesNode := resourcesNode vars |}
  else if yaml.Value key == "image" then
    ret {| nameNode := nameNode vars; imageNode := Some value;
           resourcesNode := resourcesNode vars |}
  else if yaml.Value key == "resources" then
    ret {| nameNode := nameNode vars; imageNode := imageNode vars;
           resourcesNode := Some value |}
  else if yaml.Value key == "ports" then validatePorts value ;; ret vars
  else if yaml.Value key == "readinessProbe" then validateProbe value ;; ret vars
  else if yaml.Value key == "livenessProbe" then validateProbe value ;; ret vars
  else ret vars.

Definition validateContainer (node : Node) (names : gmap string bool)
  : M (gmap string bool) :=
  vars <- forPairs validateContainer_scan (yaml.Content node)
            {| nameNode := None; imageNode := None; resourcesNode := None |} ;;
  names <-
    match nameNode vars with
    | None => Errorf 0 "container name is required" ;; ret names
    | Some nameNode => validateContainerName nameNode names
    end ;;
  match imageNode vars with
  | None => Errorf 0 "container image is required"
  | Some imageNode => validateImage imageNode
  end ;;
  match resourcesNode vars with
  | None => Errorf 0 "container resources is required"
  | Some resourcesNode => validateResources resourcesNode
  end ;;
  ret names.

Definition validateContainers (node : Node) : M unit :=
  if negb (kindIs yaml.SequenceNode node) then
    Errorf (yaml.Line node) "containers must be sequence"
  else
    forRange (λ containerNode containerNames,
      if negb (kindIs yaml.MappingNode containerNode) then
        Errorf (yaml.Line containerNode) "container must be mapping" ;;
        ret containerNames
      else validateContainer containerNode containerNames)
      (yaml.Content node) ∅ ;;
    ret tt.

Definition validateSpec (node : Node) : M unit :=
  if negb (kindIs yaml.MappingNode node) then
    Errorf (yaml.Line node) "spec must be mapping"
  else
    forPairs (λ key value _,
      if yaml.Value key == "os" then validateOS value
      else if yaml.Value key == "containers" then validateContainers value
      else ret tt)
      (yaml.Content node) tt.

Definition validateDocument (node : Node) : M unit :=
  if negb (kindIs yaml.MappingNode node) then
    Errorf (yaml.Line node) "root must be mapping"
  else
    forPairs (λ key value _,
      if yaml.Value key == "apiVersion" then validateAPIVersion value
      else if yaml.Value key == "kind" then validateKind value
      else if yaml.Value key == "metadata" then validateMetadata value
      else if yaml.Value key == "spec" then validateSpec value
      else ret tt)
      (yaml.Content node) tt.

(** [Validate] records "empty document" and goes on to [root.Content[0]]
    all the same: without a first element that index panics. *)
Definition Validate (root : Node) : M bool :=
  when (length (yaml.Content root) =? 0)%nat
    (Errorf 0 "empty document") ;;
  doc <- match yaml.Content root with
         | [] => panic
         | doc :: _ => ret doc
         end ;;
  validateDocument doc ;;
  report.

End Document.

(** ** Notions the statements use *)

(** Trees written as the parser builds them. *)
Definition scalar (line : Z) (value : string) : Node :=
  yaml.mkNode yaml.ScalarNode value line [].
Definition mapping (line : Z) (content : list Node) : Node :=
  yaml.mkNode yaml.MappingNode "" line content.
Definition sequence (line : Z) (content : list Node) : Node :=
  yaml.mkNode yaml.SequenceNode "" line content.
Definition document (doc : Node) : Node :=
  yaml.mkNode yaml.DocumentNode "" 1 [doc].

(** [v] with [es] appended to its lines. *)
Definition extend (v : Session.Validator) (es : list string) : Session.Validator :=
  {| Session.filename := Session.filename v;
     Session.errors := Session.errors v ++ es |}.

(** The result of a method and the lines it appends, for a receiver that has
    no line yet. *)
Definition out {A} (m : Session.M A) (filename : string) : option (A * list string) :=
  match m (Session.NewValidator filename) with
  | Some (a, v) => Some (a, Session.errors v)
  | None => None
  end.

(** The lines alone. *)
Definition lines {A} (m : Session.M A) (filename : string) : option (list string) :=
  snd <$> out m filename.

(** A method is framed when all it does to its receiver is to append the
    lines it appends to an empty one. *)
Definition framed {A} (m : Session.M A) : Prop :=
  ∀ v, m v = match out m (Session.filename v) with
             | Some (a, es) => Some (a, extend v es)
             | None => None
             end.

(** Two receivers for one file, holding [es1] and [es2], are treated alike by
    [m]: it panics on both, or appends the same lines in the same order to
    both. *)
Definition sameLines {A} (m : Session.M A) (fn : string) (es1 es2 : list string) : Prop :=
  match m {| Session.filename := fn; Session.errors := es1 |},
        m {| Session.filename := fn; Session.errors := es2 |} with
  | Some (_, v1), Some (_, v2) =>
      ∃ d, v1 = {| Session.filename := fn; Session.errors := es1 ++ d |}
           ∧ v2 = {| Session.filename := fn; Session.errors := es2 ++ d |}
  | None, None => True
  | _, _ => False
  end.

(** A manifest that is complete but for its [apiVersion]. *)
Definition podWithoutAPIVersion : Node :=
  document (mapping 1 [
    scalar 1 "kind"; scalar 1 "Pod";
    scalar 2 "metadata"; mapping 3 [scalar 3 "name"; scalar 3 "demo"];
    scalar 4 "spec"; mapping 5 [
      scalar 5 "containers"; sequence 6 [
        mapping 6 [
          scalar 6 "name"; scalar 6 "web";
          scalar 7 "image"; scalar 7 "registry.bigbrother.io/app:v1";
          scalar 8 "resources"; mapping 9 [
            scalar 9 "requests"; mapping 10 [scalar 10 "cpu"; scalar 10 "1"]]]]]]).

(** The words of a regular expression. *)
Inductive Lang : regexp → list ascii → Prop :=
  | Lang_Eps : Lang Eps []
  | Lang_Class p c : p c = true → Lang (Class p) [c]
  | Lang_Cat r1 r2 s1 s2 : Lang r1 s1 → Lang r2 s2 → Lang (Cat r1 r2) (s1 ++ s2)
  | Lang_Alt_l r1 r2 s : Lang r1 s → Lang (Alt r1 r2) s
  | Lang_Alt_r r1 r2 s : Lang r2 s → Lang (Alt r1 r2) s
  | Lang_Star_nil r : Lang (Star r) []
  | Lang_Star_app r s1 s2 : Lang r s1 → Lang (Star r) s2 → Lang (Star r) (s1 ++ s2).

(** An identifier in the words of the specification: lowercase letters and
    underscores only, at least one byte, no underscore at either end and no
    two underscores in a row. *)
Definition noDoubledUnderscore (s : list ascii) : Prop :=
  ∀ i : nat, s !! i = Some "_"%char → s !! S i = Some "_"%char → False.

Definition isIdentifier (s : list ascii) : Prop :=
  s ≠ []
  ∧ Forall (λ c, lower c = true ∨ c = "_"%char) s
  ∧ head s ≠ Some "_"%char
  ∧ last s ≠ Some "_"%char
  ∧ noDoubledUnderscore s.

(** The two states of a scan for an identifier: [false] before a letter is
    due (at the start and after an underscore), [true] after a letter. *)
Fixpoint identifierFrom (afterLetter : bool) (s : list ascii) : bool :=
  match s with
  | [] => afterLetter
  | c :: rest =>
      if lower c then identifierFrom true rest
      else afterLetter && Ascii.eqb c "_" && identifierFrom false rest
  end.

(** What the parser guarantees of a tree: every mapping, at any depth, has
    a value for each of its keys. *)
Fixpoint wellFormed (node : Node) : bool :=
  match node with
  | yaml.mkNode kind _ _ content =>
      (if decide (kind = yaml.MappingNode) then Nat.even (length content) else true)
      && forallb wellFormed content
  end.

(** The value of the last pair of [content] whose key reads [key]. *)
Fixpoint lastValue (key : string) (content : list Node) : option Node :=
  match content with
  | k :: value :: rest =>
      match lastValue key rest with
      | Some later => Some later
      | None => if yaml.Value k == key then Some value else None
      end
  | _ => None
  end.

(** A line of the file [fn] whose message is in [P]. *)
Definition lineWith (P : string → Prop) (fn s : string) : Prop :=
  ∃ line msg, s = Session.errorLine fn line msg ∧ P msg.

(** A method keeps the file name of its receiver, and every line it appends
    carries a message in [P]. *)
Definition logs {A} (P : string → Prop) (m : Session.M A) : Prop :=
  ∀ v a v', m v = Some (a, v') →
    Session.filename v' = Session.filename v
    ∧ ∃ es, Session.errors v' = Session.errors v ++ es
            ∧ Forall (lineWith P (Session.filename v)) es.

(** A method returns, whatever its receiver holds, with a result in [Q]. *)
Definition returns {A} (m : Session.M A) (Q : A → Prop) : Prop :=
  ∀ v, ∃ a v', m v = Some (a, v') ∧ Q a.

(** No blank among the bytes of [s]. *)
Fixpoint noSpace (s : string) : bool :=
  match s with
  | EmptyString => true
  | String c rest => negb (Ascii.eqb c " ") && noSpace rest
  end.

(** A valid manifest with one container, named [name]. *)
Definition podWithContainer (name : string) : Node :=
  document (mapping 1 [
    scalar 1 "apiVersion"; scalar 1 "v1";
    scalar 2 "kind"; scalar 2 "Pod";
    scalar 3 "metadata"; mapping 4 [scalar 4 "name"; scalar 4 "demo"];
    scalar 5 "spec"; mapping 6 [
      scalar 6 "containers"; sequence 7 [
        mapping 7 [
          scalar 7 "name"; scalar 7 name;
          scalar 8 "image"; scalar 8 "registry.bigbrother.io/app:v1";
          scalar 9 "resources"; mapping 10 [
            scalar 10 "requests"; mapping 11 [scalar 11 "cpu"; scalar 11 "1"]]]]]]).

(** The message of the test of uniqueness, and the lines that carry it. *)
Definition uniquenessMessage (name : string) : string :=
  "container name '" +:+ name +:+ "' is not unique".

Definition uniquenessLine (fn s : string) : Prop :=
  ∃ line name, s = Session.errorLine fn line (uniquenessMessage name).

(** A message that does not start as the message of uniqueness does. *)
Definition otherMessage (msg : string) : Prop :=
  String.prefix "container name '" msg = false.

Definition orElse {A} (later earlier : option A) : option A :=
  match later with
  | Some x => Some x
  | None => earlier
  end.

(** The lines of the checks [validateContainer] of part_000 runs while it
    scans the pair [key], [value]: the ports and the two probes. *)
Definition inlineStep (fn : string) (key value : Node) : option (list string) :=
  if yaml.Value key == "ports" then
    Session.stderr (Document.validatePorts value) fn
  else if (yaml.Value key == "readinessProbe") || (yaml.Value key == "livenessProbe") then
    Session.stderr (Document.validateProbe value) fn
  else Some [].

(** The same over a whole mapping, in the order of its keys; [None] stands
    for a panic. *)
Fixpoint inlineLines (fn : string) (content : list Node) : option (list string) :=
  match content with
  | [] => Some []
  | [_] => None
  | key :: value :: rest =>
      es ← inlineStep fn key value;
      es' ← inlineLines fn rest;
      Some (es ++ es')
  end.

(** The lines of a required field, absent or checked by [validate]. *)
Definition requiredLines (fn what : string) (validate : Node → Session.M unit)
    (field : option Node) : option (list string) :=
  match field with
  | None => Some [fn +:+ " " +:+ what +:+ " is required"]
  | Some node => Session.stderr (validate node) fn
  end.

(** The lines of an optional field. *)
Definition optionalLines (fn : string) (validate : Node → Session.M unit)
    (field : option Node) : option (list string) :=
  match field with
  | None => Some []
  | Some node => Session.stderr (validate node) fn
  end.

(** The check of the name of a container: the names seen so far, updated,
    and the lines. *)
Definition nameLines (fn : string) (names : gmap string bool) (field : option Node)
  : option (gmap string bool * list string) :=
  match field with
  | None => Some (names, [fn +:+ " container name is required"])
  | Some node => out (Session.validateContainerName node names) fn
  end.

(** A container whose liveness probe comes before its ports, and that has
    no name, image or resources. *)
Definition probeThenPorts : Node :=
  mapping 7 [
    scalar 7 "livenessProbe"; mapping 8 [];
    scalar 9 "ports"; sequence 10 [
      mapping 10 [scalar 10 "containerPort"; scalar 10 "70000"]]].

(** Two containers named [web], each with an image and resources. *)
Definition twoWebContainers : Node :=
  sequence 7 [
    mapping 7 [
      scalar 7 "name"; scalar 7 "web";
      scalar 8 "image"; scalar 8 "registry.bigbrother.io/app:v1";
      scalar 9 "resources"; mapping 9 []];
    mapping 10 [
      scalar 10 "name"; scalar 10 "web";
      scalar 11 "image"; scalar 11 "registry.bigbrother.io/app:v2";
      scalar 12 "resources"; mapping 12 []]].

(** The record [validatePod] appends for a name it has seen before, and the
    records that start as it does. *)
Definition duplicateRecord (fp : string) (line : Z) (name : string)
  : PodFields.ValidationError :=
  {| PodFields.File := fp; PodFields.Line := line;
     PodFields.Message :=
       "containers.name must be unique, '" +:+ name +:+ "' is duplicated" |}.

Definition aboutDuplicate (e : PodFields.ValidationError) : Prop :=
  String.prefix "containers.name must be unique, '" (PodFields.Message e) = true.

#[global] Instance aboutDuplicate_dec e : Decision (aboutDuplicate e).
Proof. unfold aboutDuplicate. apply _. Defined.

(** [node'] is [node] without one of its pairs, whose key is none of
    [recognized]. *)
Inductive dropsPair (recognized : list string) : Node → Node → Prop :=
  | dropsPair_intro kind text line pre key value post :
      Nat.even (length pre) = true →
      yaml.Value key ∉ recognized →
      dropsPair recognized
        (yaml.mkNode kind text line (pre ++ key :: value :: post))
        (yaml.mkNode kind text line (pre ++ post)).

(** The line for a key of a resource set that is neither [cpu] nor
    [memory]. *)
Definition unsupportedLine (fn prefix : string) (key : Node) : string :=
  Session.errorLine fn (yaml.Line key)
    (prefix +:+ "." +:+ yaml.Value key +:+ " has unsupported resource type").

(** A resource set with a key that is neither [cpu] nor [memory]. *)
Definition gpuRequest : Node :=
  mapping 10 [scalar 10 "cpu"; scalar 10 "1"; scalar 11 "gpu"; scalar 11 "2"].

(** The words that may follow a letter: more letters, then the groups. *)
Definition afterLetterRegex : regexp :=
  Cat (Star (Class lower)) (Star (Cat (Class (chr "_")) (Plus (Class lower)))).

(** A variable the scan of a mapping assigns holds a node of the tree. *)
Definition wellFormedVar (var : option Node) : Prop :=
  ∀ n, var = Some n → wellFormed n = true.

(** What one round of the scan of part_000 assigns. *)
Definition assignVars (key value : Node) (vars : Document.containerVars)
  : Document.containerVars :=
  {| Document.nameNode :=
       if yaml.Value key == "name" then Some value else Document.nameNode vars;
     Document.imageNode :=
       if yaml.Value key == "image" then Some value else Document.imageNode vars;
     Document.resourcesNode :=
       if yaml.Value key == "resources" then Some value
       else Document.resourcesNode vars |}.

(** A message other than the one for an absent [apiVersion]. *)
Definition notRequiresAPIVersion (msg : string) : Prop :=
  msg ≠ "apiVersion is required"%string.

(** A step of [validatePod] appends to [errors], and only records in [Q]. *)
Definition appendsOnly (Q : PodFields.ValidationError → Prop)
    (f : list PodFields.ValidationError → list PodFields.ValidationError) : Prop :=
  ∀ errors, ∃ post, Forall Q post ∧ f errors = errors ++ post.

(** It appends nothing about a duplicate. *)
Definition appendsOthers :=
  appendsOnly (λ e, ¬ aboutDuplicate e).

(** It appends nothing about an absent [apiVersion]. *)
Definition appendsNoAPIVersion :=
  appendsOnly (λ e, notRequiresAPIVersion (PodFields.Message e)).

(** The bytes of a string. *)
Abbreviation bytes := list_ascii_of_string.

(** An image in the words of the specification: the registry, a repository
    of two bytes or more that starts with a letter or a digit, a colon and
    a tag of one byte or more. *)
Definition isImage (s : list ascii) : Prop :=
  ∃ first rest tag,
    s = bytes "registry.bigbrother.io/" ++ first :: rest ++ ":"%char :: tag
    ∧ alnum first = true
    ∧ rest ≠ [] ∧ Forall (λ c, nameByte c = true) rest
    ∧ tag ≠ [] ∧ Forall (λ c, nameByte c = true) tag.

(** An amount of memory: one decimal digit or more, then a unit. *)
Definition isMemory (s : list ascii) : Prop :=
  ∃ digits unit,
    s = digits ++ bytes unit
    ∧ digits ≠ [] ∧ Forall (λ c, digit c = true) digits
    ∧ unit ∈ ["Gi"; "Mi"; "Ki"]%string.

(** The map [fields] of a mapping holds nodes of the tree. *)
Definition wellFormedFields (fields : gmap string Node) : Prop :=
  ∀ key n, fields !! key = Some n → wellFormed n = true.

(** The name a container declares: the text of the last value of its key
    [name]; and the names of a list of containers, in order. *)
Definition containerName (container : Node) : option string :=
  yaml.Value <$> lastValue "name" (yaml.Content container).

Definition containerNames (containers : list Node) : list string :=
  omap containerName containers.

(** [names[name]] of the source: an absent key reads [false]. *)
Definition registered (names : gmap string bool) (name : string) : bool :=
  default false (names !! name).

(** Two containers, named [web] and [db], that have nothing but a name. *)
Definition webAndDb : Node :=
  sequence 7 [
    mapping 7 [scalar 7 "name"; scalar 7 "web"];
    mapping 8 [scalar 8 "name"; scalar 8 "db"]].

(** The keys and values of a mapping of labels that are not scalars. *)
Definition notScalars (content : list Node) : list Node :=
  filter (λ n, yaml.Kind n ≠ yaml.ScalarNode) content.

(** The messages of part_000 that have no variable part. *)
Definition fixedMessages : list string := [
  "empty document"; "root must be mapping";
  "apiVersion must be string"; "kind must be string";
  "metadata must be mapping"; "metadata.name is required";
  "name must be string"; "name is required"; "namespace must be string";
  "labels must be mapping"; "label key must be string"; "label value must be string";
  "spec must be mapping"; "os must be string";
  "containers must be sequence"; "container must be mapping";
  "container name is required"; "container image is required";
  "container resources is required";
  "container name must be string"; "image must be string";
  "resources must be mapping"; "requests must be mapping"; "limits must be mapping";
  "cpu must be integer"; "cpu must be int";
  "requests.memory must be string"; "limits.memory must be string";
  "ports must be sequence"; "port must be mapping";
  "containerPort is required"; "containerPort must be integer";
  "containerPort value out of range"; "protocol must be string";
  "probe must be mapping"; "httpGet is required"; "httpGet must be mapping";
  "path is required"; "path must be string"; "path must be absolute path";
  "port is required"; "port must be integer"; "port value out of range"
]%string.

(** The messages of part_000: the fixed ones, and those that quote a value
    of the manifest. *)
Inductive DocumentMessage : string → Prop :=
  | message_fixed msg :
      msg ∈ fixedMessages → DocumentMessage msg
  | message_unsupported what value :
      what ∈ ["apiVersion"; "kind"; "os"; "protocol"]%string →
      DocumentMessage (what +:+ " has unsupported value '" +:+ value +:+ "'")
  | message_format what value :
      what ∈ ["container name"; "image"; "requests.memory"; "limits.memory"]%string →
      DocumentMessage (what +:+ " has invalid format '" +:+ value +:+ "'")
  | message_unique name :
      DocumentMessage (uniquenessMessage name).

(** The fields that the specification requires of a manifest and of its
    [spec]. *)
Definition requiredFields : list string :=
  ["apiVersion"; "kind"; "metadata"; "spec"; "spec.containers"]%string.

(** The record [validatePod] appends for a field that is not there. *)
Definition requiredRecord (fp what : string) : PodFields.ValidationError :=
  {| PodFields.File := fp; PodFields.Line := 0;
     PodFields.Message := what +:+ " is required" |}.

(** An integer in the range of a port. *)
Definition isPort (text : string) : Prop :=
  ∃ port, Atoi text = (port, None) ∧ 1 ≤ port ≤ 65535.

(** *** A valid manifest

    The rules of [validateTopLevel], read off its checks and stated of the
    tree alone.  A field of a mapping is the last value of its key. *)
Definition field (key : string) (node : Node) : option Node :=
  lastValue key (yaml.Content node).

Definition required (P : Node → Prop) (value : option Node) : Prop :=
  ∃ n, value = Some n ∧ P n.

Definition optional (P : Node → Prop) (value : option Node) : Prop :=
  ∀ n, value = Some n → P n.

Definition isScalar (n : Node) : Prop := yaml.Kind n = yaml.ScalarNode.
Definition isMapping (n : Node) : Prop := yaml.Kind n = yaml.MappingNode.
Definition isSequence (n : Node) : Prop := yaml.Kind n = yaml.SequenceNode.

(** [P] of every key and its value. *)
Fixpoint allPairs (P : Node → Node → Prop) (content : list Node) : Prop :=
  match content with
  | [] => True
  | [_] => False
  | key :: value :: rest => P key value ∧ allPairs P rest
  end.

Definition validLabels (labels : Node) : Prop :=
  isMapping labels ∧ Forall isScalar (yaml.Content labels).

Definition validMetadata (metadata : Node) : Prop :=
  isMapping metadata
  ∧ required (λ n, isScalar n ∧ yaml.Value n ≠ ""%string) (field "name" metadata)
  ∧ optional isScalar (field "namespace" metadata)
  ∧ optional validLabels (field "labels" metadata).

Definition isInteger (text : string) : Prop := ∃ z, Atoi text = (z, None).

Definition validQuantity (key value : Node) : Prop :=
  (yaml.Value key = "cpu"%string ∧ isScalar value ∧ isInteger (yaml.Value value))
  ∨ (yaml.Value key = "memory"%string
     ∧ isScalar value ∧ isMemory (bytes (yaml.Value value))).

Definition validRequirements (requirements : Node) : Prop :=
  isMapping requirements ∧ allPairs validQuantity (yaml.Content requirements).

Definition validResources (resources : Node) : Prop :=
  isMapping resources
  ∧ optional validRequirements (field "requests" resources)
  ∧ optional validRequirements (field "limits" resources).

Definition portScalar (n : Node) : Prop := isScalar n ∧ isPort (yaml.Value n).

Definition oneOf (values : list string) (n : Node) : Prop :=
  isScalar n ∧ yaml.Value n ∈ values.

Definition validPort (port : Node) : Prop :=
  isMapping port
  ∧ required portScalar (field "containerPort" port)
  ∧ optional (oneOf ["TCP"; "UDP"]%string) (field "protocol" port).

Definition validPorts (ports : Node) : Prop :=
  isSequence ports ∧ Forall validPort (yaml.Content ports).

Definition validHTTPGet (httpGet : Node) : Prop :=
  isMapping httpGet
  ∧ required (λ n, isScalar n ∧ HasPrefix (yaml.Value n) "/" = true)
      (field "path" httpGet)
  ∧ required portScalar (field "port" httpGet).

Definition validProbe (probe : Node) : Prop :=
  isMapping probe ∧ required validHTTPGet (field "httpGet" probe).

Definition validContainer (container : Node) : Prop :=
  isMapping container
  ∧ required (λ n, isScalar n ∧ isIdentifier (bytes (yaml.Value n)))
      (field "name" container)
  ∧ required (λ n, isScalar n ∧ isImage (bytes (yaml.Value n)))
      (field "image" container)
  ∧ required validResources (field "resources" container)
  ∧ optional validPorts (field "ports" container)
  ∧ optional validProbe (field "readinessProbe" container)
  ∧ optional validProbe (field "livenessProbe" container).

Definition validContainers (containers : Node) : Prop :=
  isSequence containers
  ∧ Forall validContainer (yaml.Content containers)
  ∧ NoDup (containerNames (yaml.Content containers)).

Definition validSpec (spec : Node) : Prop :=
  isMapping spec
  ∧ optional (oneOf ["linux"; "windows"]%string) (field "os" spec)
  ∧ required validContainers (field "containers" spec).

Definition validManifest (root : Node) : Prop :=
  ∃ doc rest,
    yaml.Content root = doc :: rest
    ∧ isMapping doc
    ∧ required (λ n, yaml.Value n = "v1"%string) (field "apiVersion" doc)
    ∧ required (λ n, yaml.Value n = "Pod"%string) (field "kind" doc)
    ∧ required validMetadata (field "metadata" doc)
    ∧ required validSpec (field "spec" doc).

(** The texts of the keys of a mapping, in order. *)
Fixpoint keys (content : list Node) : list string :=
  match content with
  | key :: _ :: rest => yaml.Value key :: keys rest
  | _ => []
  end.

(** No mapping of the tree, at any depth, has two keys of one text. *)
Fixpoint noDuplicateKeys (node : Node) : bool :=
  match node with
  | yaml.mkNode kind _ _ content =>
      (if decide (kind = yaml.MappingNode)
       then bool_decide (NoDup (keys content)) else true)
      && forallb noDuplicateKeys content
  end.

(** A tree of the parser without duplicate keys. *)
Definition plain (node : Node) : Prop :=
  wellFormed node = true ∧ noDuplicateKeys node = true.

(** [apiVersion] and [kind] of the first document are scalars, where they
    are there. *)
Definition scalarHead (root : Node) : Prop :=
  ∀ doc, head (yaml.Content root) = Some doc →
    optional isScalar (field "apiVersion" doc)
    ∧ optional isScalar (field "kind" doc).

(** [n] is a node of the tree [root], at any depth. *)
Inductive inTree (n : Node) : Node → Prop :=
  | inTree_here : inTree n n
  | inTree_child c root : c ∈ yaml.Content root → inTree n c → inTree n root.

(** A line number that a line about the tree [root] may carry: none, or
    the line of one of its nodes. *)
Definition cites (root : Node) (line : Z) : Prop :=
  line = 0 ∨ ∃ n, inTree n root ∧ yaml.Line n = line.

(** A line of the file [fn] whose line number is in [L]. *)
Definition lineAt (L : Z → Prop) (fn s : string) : Prop :=
  ∃ line msg, s = Session.errorLine fn line msg ∧ L line.

(** A method keeps the file name of its receiver, every line it appends
    carries a line number in [L], and its result is in [Q]. *)
Definition logsAt {A} (L : Z → Prop) (Q : A → Prop) (m : Session.M A) : Prop :=
  ∀ v a v', m v = Some (a, v') →
    Q a
    ∧ Session.filename v' = Session.filename v
    ∧ ∃ es, Session.errors v' = Session.errors v ++ es
            ∧ Forall (lineAt L (Session.filename v)) es.

(** The nodes a mapping holds under its keys are among its content. *)
Definition fieldsOf (content : list Node) (fields : gmap string Node) : Prop :=
  ∀ key n, fields !! key = Some n → n ∈ content.

Definition varOf (content : list Node) (var : option Node) : Prop :=
  ∀ n, var = Some n → n ∈ content.

(** * Proofs *)

Import Session.

(** Induction over a list two elements at a time. *)
Lemma pairs_ind {X} (P : list X → Prop) :
  P [] → (∀ x, P [x]) → (∀ k v rest, P rest → P (k :: v :: rest)) → ∀ l, P l.
Proof.
  intros H0 H1 H2 l. enough (P l ∧ ∀ x, P (x :: l)) as [? _] by done.
  induction l as [|y l [IH1 IH2]]; [by split|].
  split; [apply IH2|]. intros x. by apply H2.
Qed.

(** ** Framing *)

Lemma extend_nil v : extend v [] = v.
Proof. destruct v; unfold extend; simpl; by rewrite app_nil_r. Qed.

Lemma extend_extend v es1 es2 : extend (extend v es1) es2 = extend v (es1 ++ es2).
Proof. unfold extend; simpl; by rewrite app_assoc. Qed.

Lemma stderr_out {A} (m : M A) fn : stderr m fn = snd <$> out m fn.
Proof. unfold stderr, out. by destruct (m (NewValidator fn)) as [[a v]|]. Qed.

Lemma framed_ret {A} (a : A) : framed (ret a).
Proof. intros v. unfold out, ret; simpl. by rewrite extend_nil. Qed.

Lemma framed_panic {A} : framed (@panic A).
Proof. by intros v. Qed.

Lemma framed_Errorf line msg : framed (Errorf line msg).
Proof. by intros v. Qed.

Lemma out_framed {A} (m : M A) fn a es :
  framed m → out m fn = Some (a, es) →
  m (NewValidator fn) = Some (a, extend (NewValidator fn) es).
Proof. intros Hm Ho. rewrite (Hm (NewValidator fn)); simpl. by rewrite Ho. Qed.

Lemma framed_bind {A B} (m : M A) (k : A → M B) :
  framed m → (∀ a, framed (k a)) → framed (bind m k).
Proof.
  intros Hm Hk v. unfold out at 1, bind at 2.
  unfold bind at 1. rewrite (Hm v), (Hm (NewValidator (filename v))); simpl.
  destruct (out m (filename v)) as [[a es]|]; [|done].
  rewrite (Hk a (extend v es)), (Hk a (extend (NewValidator (filename v)) es)); simpl.
  destruct (out (k a) (filename v)) as [[b es']|]; [|done].
  simpl. by rewrite !extend_extend.
Qed.

Lemma framed_when b m : framed m → framed (when b m).
Proof. destruct b; [done|]. intros _. apply framed_ret. Qed.

Lemma framed_forPairs {S} (body : Node → Node → S → M S) content :
  (∀ key value s, framed (body key value s)) → ∀ s, framed (forPairs body content s).
Proof.
  intros Hb. induction content as [content IH] using (induction_ltof1 _ length).
  unfold ltof in IH. intros s. destruct content as [|key [|value rest]]; simpl.
  - apply framed_ret.
  - apply framed_panic.
  - apply framed_bind; [apply Hb|]. intros s'. apply IH. simpl. lia.
Qed.

Lemma framed_forRange {S} (body : Node → S → M S) content :
  (∀ x s, framed (body x s)) → ∀ s, framed (forRange body content s).
Proof.
  intros Hb. induction content as [|x rest IH]; intros s; simpl.
  - apply framed_ret.
  - apply framed_bind; [apply Hb|]. intros s'. apply IH.
Qed.

Lemma framed_report_after {A} (m : M A) : framed m → ∀ v,
  bind m (λ _, report) v =
  match out m (filename v) with
  | Some (_, es) =>
      Some (negb (bool_decide (errors v ++ es = [])), extend v es)
  | None => None
  end.
Proof.
  intros Hm v. unfold bind. rewrite (Hm v).
  by destruct (out m (filename v)) as [[a es]|].
Qed.

(** The lines of a sequence of two framed methods are the lines of the first
    followed by the lines of the second. *)
Lemma out_bind {A B} (m : M A) (k : A → M B) fn :
  framed m → (∀ a, framed (k a)) →
  out (bind m k) fn =
  match out m fn with
  | Some (a, es) =>
      match out (k a) fn with
      | Some (b, es') => Some (b, es ++ es')
      | None => None
      end
  | None => None
  end.
Proof.
  intros Hm Hk. unfold out at 1, bind.
  rewrite (Hm (NewValidator fn)); simpl.
  destruct (out m fn) as [[a es]|]; [|done].
  rewrite (Hk a (extend (NewValidator fn) es)); simpl.
  by destruct (out (k a) fn) as [[b es']|].
Qed.

Lemma out_ret {A} (a : A) fn : out (ret a) fn = Some (a, []).
Proof. done. Qed.

Lemma out_Errorf line msg fn : out (Errorf line msg) fn = Some (tt, [errorLine fn line msg]).
Proof. done. Qed.

Lemma out_when b m fn : out (when b m) fn = if b then out m fn else Some (tt, []).
Proof. by destruct b. Qed.

Ltac framed_step :=
  match goal with
  | |- framed (bind _ _) => apply framed_bind; [|intros]
  | |- framed (ret _) => apply framed_ret
  | |- framed (Errorf _ _) => apply framed_Errorf
  | |- framed panic => apply framed_panic
  | |- framed (when _ _) => apply framed_when
  | |- framed (forPairs _ _ _) => apply framed_forPairs; intros
  | |- framed (forRange _ _ _) => apply framed_forRange; intros
  | |- framed (if ?b then _ else _) => destruct b
  | |- framed (match ?o with _ => _ end) => destruct o
  | |- framed (let '(_, _) := ?p in _) => destruct p
  end.

Ltac framed_auto := intros; repeat first [framed_step | solve [auto with framed]].

Create HintDb framed.

Lemma validateLabels_framed node : framed (validateLabels node).
Proof. unfold validateLabels. framed_auto. Qed.

Lemma validateOS_framed node : framed (validateOS node).
Proof. unfold validateOS. framed_auto. Qed.

Lemma validateContainerName_framed node names : framed (validateContainerName node names).
Proof. unfold validateContainerName. framed_auto. Qed.

Lemma validateImage_framed node : framed (validateImage node).
Proof. unfold validateImage. framed_auto. Qed.

Lemma validateMemory_framed node prefix : framed (validateMemory node prefix).
Proof. unfold validateMemory. framed_auto. Qed.

Lemma validateContainerPort_framed node : framed (validateContainerPort node).
Proof. unfold validateContainerPort. framed_auto. Qed.

Lemma validateProtocol_framed node : framed (validateProtocol node).
Proof. unfold validateProtocol. framed_auto. Qed.

Lemma validateProbePort_framed node : framed (validateProbePort node).
Proof. unfold validateProbePort. framed_auto. Qed.

#[global] Hint Resolve validateLabels_framed validateOS_framed
  validateContainerName_framed validateImage_framed validateMemory_framed
  validateContainerPort_framed validateProtocol_framed validateProbePort_framed
  : framed.

(** *** src/main.go, second document *)

Lemma collectFields_framed content : framed (TopLevel.collectFields content).
Proof. unfold TopLevel.collectFields. framed_auto. Qed.

Lemma TopLevel_validateAPIVersion_framed node : framed (TopLevel.validateAPIVersion node).
Proof. unfold TopLevel.validateAPIVersion. framed_auto. Qed.

Lemma TopLevel_validateKind_framed node : framed (TopLevel.validateKind node).
Proof. unfold TopLevel.validateKind. framed_auto. Qed.

#[global] Hint Resolve collectFields_framed TopLevel_validateAPIVersion_framed
  TopLevel_validateKind_framed : framed.

Lemma TopLevel_validateMetadata_framed node : framed (TopLevel.validateMetadata node).
Proof. unfold TopLevel.validateMetadata. framed_auto. Qed.

Lemma TopLevel_validateCPU_framed node prefix : framed (TopLevel.validateCPU node prefix).
Proof. unfold TopLevel.validateCPU. framed_auto. Qed.

#[global] Hint Resolve TopLevel_validateMetadata_framed TopLevel_validateCPU_framed
  : framed.

Lemma TopLevel_validateResourceRequirements_framed node prefix :
  framed (TopLevel.validateResourceRequirements node prefix).
Proof. unfold TopLevel.validateResourceRequirements. framed_auto. Qed.

#[global] Hint Resolve TopLevel_validateResourceRequirements_framed : framed.

Lemma TopLevel_validateResources_framed node : framed (TopLevel.validateResources node).
Proof. unfold TopLevel.validateResources. framed_auto. Qed.

Lemma TopLevel_validatePorts_framed node : framed (TopLevel.validatePorts node).
Proof. unfold TopLevel.validatePorts. framed_auto. Qed.

Lemma TopLevel_validateHTTPGetAction_framed node :
  framed (TopLevel.validateHTTPGetAction node).
Proof. unfold TopLevel.validateHTTPGetAction. framed_auto. Qed.

#[global] Hint Resolve TopLevel_validateResources_framed TopLevel_validatePorts_framed
  TopLevel_validateHTTPGetAction_framed : framed.

Lemma TopLevel_validateProbe_framed node : framed (TopLevel.validateProbe node).
Proof. unfold TopLevel.validateProbe. framed_auto. Qed.

#[global] Hint Resolve TopLevel_validateProbe_framed : framed.

Lemma TopLevel_validateContainers_body_framed node names :
  framed (TopLevel.validateContainers_body node names).
Proof. unfold TopLevel.validateContainers_body. framed_auto. Qed.

#[global] Hint Resolve TopLevel_validateContainers_body_framed : framed.

Lemma TopLevel_validateContainers_framed node : framed (TopLevel.validateContainers node).
Proof. unfold TopLevel.validateContainers. framed_auto. Qed.

#[global] Hint Resolve TopLevel_validateContainers_framed : framed.

Lemma TopLevel_validateSpec_framed node : framed (TopLevel.validateSpec node).
Proof. unfold TopLevel.validateSpec. framed_auto. Qed.

#[global] Hint Resolve TopLevel_validateSpec_framed : framed.

Lemma validateTopLevel_framed root : framed (TopLevel.validateTopLevel root).
Proof. unfold TopLevel.validateTopLevel. framed_auto. Qed.

#[global] Hint Resolve validateTopLevel_framed : framed.

(** *** src/unnamed/part_000 *)

Lemma Document_validateAPIVersion_framed node : framed (Document.validateAPIVersion node).
Proof. unfold Document.validateAPIVersion. framed_auto. Qed.

Lemma Document_validateKind_framed node : framed (Document.validateKind node).
Proof. unfold Document.validateKind. framed_auto. Qed.

Lemma validateName_framed node : framed (Document.validateName node).
Proof. unfold Document.validateName. framed_auto. Qed.

#[global] Hint Resolve Document_validateAPIVersion_framed Document_validateKind_framed
  validateName_framed : framed.

Lemma Document_validateMetadata_framed node : framed (Document.validateMetadata node).
Proof. unfold Document.validateMetadata. framed_auto. Qed.

Lemma Document_validateCPU_framed node : framed (Document.validateCPU node).
Proof. unfold Document.validateCPU. framed_auto. Qed.

#[global] Hint Resolve Document_validateMetadata_framed Document_validateCPU_framed
  : framed.

Lemma Document_validateResourceRequirements_framed node prefix :
  framed (Document.validateResourceRequirements node prefix).
Proof. unfold Document.validateResourceRequirements. framed_auto. Qed.

#[global] Hint Resolve Document_validateResourceRequirements_framed : framed.

Lemma Document_validateResources_framed node : framed (Document.validateResources node).
Proof. unfold Document.validateResources. framed_auto. Qed.

Lemma Document_validatePorts_framed node : framed (Document.validatePorts node).
Proof. unfold Document.validatePorts. framed_auto. Qed.

Lemma validatePath_framed node : framed (Document.validatePath node).
Proof. unfold Document.validatePath. framed_auto. Qed.

#[global] Hint Resolve Document_validateResources_framed Document_validatePorts_framed
  validatePath_framed : framed.

Lemma Document_validateHTTPGetAction_framed node :
  framed (Document.validateHTTPGetAction node).
Proof. unfold Document.validateHTTPGetAction. framed_auto. Qed.

#[global] Hint Resolve Document_validateHTTPGetAction_framed : framed.

Lemma Document_validateProbe_framed node : framed (Document.validateProbe node).
Proof. unfold Document.validateProbe. framed_auto. Qed.

#[global] Hint Resolve Document_validateProbe_framed : framed.

Lemma validateContainer_scan_framed key value vars :
  framed (Document.validateContainer_scan key value vars).
Proof. unfold Document.validateContainer_scan. framed_auto. Qed.

#[global] Hint Resolve validateContainer_scan_framed : framed.

Lemma validateContainer_framed node names : framed (Document.validateContainer node names).
Proof. unfold Document.validateContainer. framed_auto. Qed.

#[global] Hint Resolve validateContainer_framed : framed.

Lemma Document_validateContainers_framed node : framed (Document.validateContainers node).
Proof. unfold Document.validateContainers. framed_auto. Qed.

#[global] Hint Resolve Document_validateContainers_framed : framed.

Lemma Document_validateSpec_framed node : framed (Document.validateSpec node).
Proof. unfold Document.validateSpec. framed_auto. Qed.

#[global] Hint Resolve Document_validateSpec_framed : framed.

Lemma validateDocument_framed node : framed (Document.validateDocument node).
Proof. unfold Document.validateDocument. framed_auto. Qed.

#[global] Hint Resolve validateDocument_framed : framed.

(** *** src/main.go, first document: what a call appends to [errors] does
    not depend on what [errors] holds *)

Lemma PodFields_validateMetadata_app node fp pre e :
  PodFields.validateMetadata node fp (pre ++ e)
  = pre ++ PodFields.validateMetadata node fp e.
Proof. unfold PodFields.validateMetadata. intros; repeat case_match; by rewrite <- ?app_assoc. Qed.

Lemma PodFields_validateOS_app node fp pre e :
  PodFields.validateOS node fp (pre ++ e) = pre ++ PodFields.validateOS node fp e.
Proof. unfold PodFields.validateOS. intros; repeat case_match; by rewrite <- ?app_assoc. Qed.

Lemma PodFields_validateImage_app image line fp pre e :
  PodFields.validateImage image line fp (pre ++ e)
  = pre ++ PodFields.validateImage image line fp e.
Proof. unfold PodFields.validateImage. intros; repeat case_match; by rewrite <- ?app_assoc. Qed.

Lemma PodFields_validatePorts_body_app node fp pre e :
  PodFields.validatePorts_body node fp (pre ++ e)
  = pre ++ PodFields.validatePorts_body node fp e.
Proof.
  unfold PodFields.validatePorts_body. intros; repeat case_match; by rewrite <- ?app_assoc.
Qed.

Lemma fold_left_app_frame {E X} (f : X → list E → list E) (xs : list X) :
  (∀ x pre e, f x (pre ++ e) = pre ++ f x e) →
  ∀ pre e, fold_left (λ e x, f x e) xs (pre ++ e)
           = pre ++ fold_left (λ e x, f x e) xs e.
Proof.
  intros Hf. induction xs as [|x xs IH]; intros pre e; simpl; [done|].
  by rewrite Hf, IH.
Qed.

Lemma PodFields_validatePorts_app node fp pre e :
  PodFields.validatePorts node fp (pre ++ e) = pre ++ PodFields.validatePorts node fp e.
Proof.
  unfold PodFields.validatePorts. case_match; [done|].
  apply (fold_left_app_frame (λ x e, PodFields.validatePorts_body x fp e)).
  intros. apply PodFields_validatePorts_body_app.
Qed.

Lemma PodFields_validateHTTPGetAction_app node probe fp pre e :
  PodFields.validateHTTPGetAction node probe fp (pre ++ e)
  = pre ++ PodFields.validateHTTPGetAction node probe fp e.
Proof.
  unfold PodFields.validateHTTPGetAction.
  intros; repeat case_match; by rewrite <- ?app_assoc.
Qed.

Lemma PodFields_validateProbe_app node probe fp pre e :
  PodFields.validateProbe node probe fp (pre ++ e)
  = pre ++ PodFields.validateProbe node probe fp e.
Proof.
  unfold PodFields.validateProbe.
  intros; repeat case_match; rewrite <- ?app_assoc; try done.
  apply PodFields_validateHTTPGetAction_app.
Qed.

Lemma validateResourceSpec_app node spec fp pre e :
  PodFields.validateResourceSpec node spec fp (pre ++ e)
  = pre ++ PodFields.validateResourceSpec node spec fp e.
Proof.
  unfold PodFields.validateResourceSpec.
  intros; repeat case_match; by rewrite <- ?app_assoc.
Qed.

Lemma PodFields_validateResources_app node fp pre e :
  PodFields.validateResources node fp (pre ++ e)
  = pre ++ PodFields.validateResources node fp e.
Proof.
  unfold PodFields.validateResources.
  intros; repeat case_match; by rewrite ?validateResourceSpec_app.
Qed.

Lemma PodFields_validateContainers_body_app node fp names pre e :
  PodFields.validateContainers_body node fp (names, pre ++ e)
  = (fst (PodFields.validateContainers_body node fp (names, e)),
     pre ++ snd (PodFields.validateContainers_body node fp (names, e))).
Proof.
  unfold PodFields.validateContainers_body.
  destruct (negb (kindIs yaml.MappingNode node)); [done|].
  set (container := PodFields.parseMapping node).
  destruct (negb (PodFields.hasField container "name")),
    (negb (PodFields.isValidSnakeCase (PodFields.getStringValue container "name"))),
    (default false (names !! PodFields.getStringValue container "name")),
    (negb (PodFields.hasField container "image")),
    (container !! "ports"), (container !! "readinessProbe"),
    (container !! "livenessProbe"), (container !! "resources"); simpl;
    rewrite <- ?app_assoc;
    repeat first
      [ rewrite PodFields_validateImage_app | rewrite PodFields_validatePorts_app
      | rewrite PodFields_validateProbe_app | rewrite PodFields_validateResources_app
      | rewrite <- app_assoc ];
    done.
Qed.

Lemma PodFields_validateContainers_loop_app fp content names pre e :
  fold_left (λ st c, PodFields.validateContainers_body c fp st) content (names, pre ++ e)
  = (fst (fold_left (λ st c, PodFields.validateContainers_body c fp st) content (names, e)),
     pre ++ snd (fold_left (λ st c, PodFields.validateContainers_body c fp st)
                   content (names, e))).
Proof.
  revert names e. induction content as [|c content IH]; intros names e;
    cbn [fold_left]; [done|].
  rewrite PodFields_validateContainers_body_app.
  destruct (PodFields.validateContainers_body c fp (names, e)) as [names' e'].
  cbn [fst snd]. apply IH.
Qed.

Lemma PodFields_validateContainers_app node fp pre e :
  PodFields.validateContainers node fp (pre ++ e)
  = pre ++ PodFields.validateContainers node fp e.
Proof.
  unfold PodFields.validateContainers. case_match; [by rewrite app_assoc|].
  by rewrite PodFields_validateContainers_loop_app.
Qed.

Lemma PodFields_validateSpec_app node fp pre e :
  PodFields.validateSpec node fp (pre ++ e) = pre ++ PodFields.validateSpec node fp e.
Proof.
  unfold PodFields.validateSpec.
  intros; repeat case_match; rewrite ?PodFields_validateOS_app;
    rewrite ?PodFields_validateContainers_app; by rewrite <- ?app_assoc.
Qed.

Lemma validatePod_app root fp pre e :
  PodFields.validatePod root fp (pre ++ e) = pre ++ PodFields.validatePod root fp e.
Proof.
  unfold PodFields.validatePod.
  destruct (negb (kindIs yaml.DocumentNode root)); [done|].
  destruct (yaml.Content root) as [|doc rest]; [done|].
  destruct (negb (kindIs yaml.MappingNode doc)); [done|].
  set (pod := PodFields.parseMapping doc).
  destruct (negb (PodFields.hasField pod "apiVersion")),
    (negb (PodFields.getStringValue pod "apiVersion" == "v1")),
    (negb (PodFields.hasField pod "kind")),
    (negb (PodFields.getStringValue pod "kind" == "Pod")),
    (pod !! "metadata"), (pod !! "spec"); simpl;
    rewrite <- ?app_assoc;
    repeat first
      [ rewrite PodFields_validateMetadata_app | rewrite PodFields_validateSpec_app
      | rewrite <- app_assoc ];
    done.
Qed.

(** ** The lines [Errorf] writes *)

Lemma append_inj_l (p a b : string) : p +:+ a = p +:+ b → a = b.
Proof. induction p as [|c p IH]; simpl; [done|]. intros [= H]. by apply IH. Qed.

Lemma noSpace_split (d d' m m' : string) :
  noSpace d = true → noSpace d' = true →
  d +:+ " " +:+ m = d' +:+ " " +:+ m' → d = d' ∧ m = m'.
Proof.
  revert d'. induction d as [|c d IH]; intros [|c' d'] Hd Hd' E; simpl in *.
  - by injection E.
  - injection E as <- _. done.
  - injection E as -> _. done.
  - injection E as -> E. apply andb_true_iff in Hd as [_ Hd], Hd' as [_ Hd'].
    destruct (IH d' Hd Hd' E) as [-> ->]. done.
Qed.

Lemma string_of_uint_noSpace d : noSpace (NilEmpty.string_of_uint d) = true.
Proof. induction d; simpl; done. Qed.

Lemma itoa_noSpace n : noSpace (itoa n) = true.
Proof.
  unfold itoa. destruct n as [|p|p]; simpl; [done| |].
  - destruct (Pos.to_uint p) eqn:E; simpl; try done; apply string_of_uint_noSpace.
  - destruct (Pos.to_uint p) eqn:E; simpl; try done; apply string_of_uint_noSpace.
Qed.

(** A line determines its message. *)
Lemma errorLine_msg_inj fn line line' msg msg' :
  errorLine fn line msg = errorLine fn line' msg' → msg = msg'.
Proof.
  unfold errorLine. intros E.
  destruct (0 <? line), (0 <? line'); apply append_inj_l in E; simpl in E.
  - injection E as E. by apply noSpace_split in E as [_ ?]; [|apply itoa_noSpace..].
  - done.
  - done.
  - by injection E.
Qed.

Lemma errorLine_0 fn msg : errorLine fn 0 msg = fn +:+ " " +:+ msg.
Proof. done. Qed.

(** ** What a method logs, and that it returns *)

Lemma logs_ret {A} P (a : A) : logs P (ret a).
Proof.
  intros v a' v' [= <- <-]. split; [done|]. exists []. by rewrite app_nil_r.
Qed.

Lemma logs_panic {A} P : logs P (@panic A).
Proof. by intros v a v'. Qed.

Lemma logs_Errorf (P : string → Prop) line msg : P msg → logs P (Errorf line msg).
Proof.
  intros HP v a v' [= <- <-]. split; [done|]. simpl.
  eexists; split; [done|]. constructor; [|done]. by exists line, msg.
Qed.

Lemma logs_bind {A B} P (m : M A) (k : A → M B) :
  logs P m → (∀ a, logs P (k a)) → logs P (bind m k).
Proof.
  intros Hm Hk v b v'. unfold bind.
  destruct (m v) as [[a v1]|] eqn:E1; [|done]. intros E2.
  destruct (Hm _ _ _ E1) as (F1 & es1 & G1 & H1).
  destruct (Hk a _ _ _ E2) as (F2 & es2 & G2 & H2).
  split; [congruence|]. exists (es1 ++ es2). split.
  - by rewrite G2, G1, app_assoc.
  - apply Forall_app. split; [done|]. by rewrite <- F1.
Qed.

Lemma logs_when P b m : logs P m → logs P (when b m).
Proof. destruct b; [done|]. intros _. apply logs_ret. Qed.

Lemma logs_forPairs {S} P (body : Node → Node → S → M S) content :
  (∀ key value s, logs P (body key value s)) → ∀ s, logs P (forPairs body content s).
Proof.
  intros Hb. induction content as [|x|k v rest IH] using pairs_ind; intros s; simpl.
  - apply logs_ret.
  - apply logs_panic.
  - apply logs_bind; [apply Hb|done].
Qed.

Lemma logs_forRange {S} P (body : Node → S → M S) content :
  (∀ x s, logs P (body x s)) → ∀ s, logs P (forRange body content s).
Proof.
  intros Hb. induction content as [|x rest IH]; intros s; simpl.
  - apply logs_ret.
  - apply logs_bind; [apply Hb|done].
Qed.

Lemma logs_out {A} P (m : M A) fn a es :
  logs P m → out m fn = Some (a, es) → Forall (lineWith P fn) es.
Proof.
  intros Hm. unfold out.
  destruct (m (NewValidator fn)) as [[a' v']|] eqn:E; [|done].
  intros [= <- <-]. by destruct (Hm _ _ _ E) as (_ & es & -> & H).
Qed.

Lemma logs_stderr {A} P (m : M A) fn es :
  logs P m → stderr m fn = Some es → Forall (lineWith P fn) es.
Proof.
  intros Hm. rewrite stderr_out.
  destruct (out m fn) as [[a es']|] eqn:E; [|done]. intros [= <-].
  by apply (logs_out P m fn a).
Qed.

Ltac logs_step :=
  match goal with
  | |- logs _ (bind _ _) => apply logs_bind; [|intros]
  | |- logs _ (ret _) => apply logs_ret
  | |- logs _ (Errorf _ _) => apply logs_Errorf
  | |- logs _ panic => apply logs_panic
  | |- logs _ (when _ _) => apply logs_when
  | |- logs _ (forPairs _ _ _) => apply logs_forPairs; intros
  | |- logs _ (forRange _ _ _) => apply logs_forRange; intros
  | |- logs _ (if ?b then _ else _) => destruct b
  | |- logs _ (match ?o with _ => _ end) => destruct o
  | |- logs _ (let '(_, _) := ?p in _) => destruct p
  end.

Lemma returns_ret {A} (Q : A → Prop) a : Q a → returns (ret a) Q.
Proof. intros HQ v. by exists a, v. Qed.

Lemma returns_Errorf (Q : unit → Prop) line msg : Q tt → returns (Errorf line msg) Q.
Proof. intros HQ v. by eexists tt, _. Qed.

Lemma returns_bind {A B} (m : M A) (k : A → M B) (P : A → Prop) (Q : B → Prop) :
  returns m P → (∀ a, P a → returns (k a) Q) → returns (bind m k) Q.
Proof.
  intros Hm Hk v. unfold bind.
  destruct (Hm v) as (a & v1 & -> & Ha). apply (Hk a Ha).
Qed.

Lemma returns_when (Q : unit → Prop) b m : Q tt → returns m Q → returns (when b m) Q.
Proof. destruct b; [done|]. intros HQ _. by apply returns_ret. Qed.

Lemma returns_weaken {A} (m : M A) (P Q : A → Prop) :
  returns m P → (∀ a, P a → Q a) → returns m Q.
Proof. intros Hm HPQ v. destruct (Hm v) as (a & v' & ? & ?). exists a, v'. auto. Qed.

Lemma returns_forPairs {S} (I : S → Prop) (body : Node → Node → S → M S) content :
  Nat.even (length content) = true →
  (∀ key value s, key ∈ content → value ∈ content → I s →
                  returns (body key value s) I) →
  ∀ s, I s → returns (forPairs body content s) I.
Proof.
  induction content as [|x|k v rest IH] using pairs_ind; intros He Hb s Hs; simpl.
  - by apply returns_ret.
  - done.
  - apply (returns_bind _ _ I).
    + apply Hb; [set_solver..|done].
    + intros s' Hs'. apply IH; [done| |done].
      intros key value s0 Hk Hv. apply Hb; set_solver.
Qed.

Lemma returns_forRange {S} (I : S → Prop) (body : Node → S → M S) content :
  (∀ x s, x ∈ content → I s → returns (body x s) I) →
  ∀ s, I s → returns (forRange body content s) I.
Proof.
  induction content as [|x rest IH]; intros Hb s Hs; simpl.
  - by apply returns_ret.
  - apply (returns_bind _ _ I).
    + apply Hb; [set_solver|done].
    + intros s' Hs'. apply IH; [|done]. intros y s0 Hy. apply Hb. set_solver.
Qed.

Lemma returns_out {A} (m : M A) (Q : A → Prop) fn :
  returns m Q → ∃ a es, out m fn = Some (a, es) ∧ Q a.
Proof.
  intros Hm. unfold out. destruct (Hm (NewValidator fn)) as (a & v' & -> & Ha).
  by exists a, (errors v').
Qed.

Lemma returns_stderr {A} (m : M A) (Q : A → Prop) fn :
  returns m Q → is_Some (stderr m fn).
Proof.
  intros Hm. unfold stderr. by destruct (Hm (NewValidator fn)) as (a & v' & -> & Ha).
Qed.

Lemma wellFormed_content node x :
  wellFormed node = true → x ∈ yaml.Content node → wellFormed x = true.
Proof.
  destruct node as [kind value line content]. simpl.
  intros [_ H]%andb_true_iff Hx. rewrite forallb_forall in H.
  apply H. by apply list_elem_of_In.
Qed.

Lemma wellFormed_mapping node :
  wellFormed node = true → kindIs yaml.MappingNode node = true →
  Nat.even (length (yaml.Content node)) = true.
Proof.
  destruct node as [kind value line content]. unfold kindIs. simpl.
  intros [H _]%andb_true_iff Hk%bool_decide_eq_true.
  by destruct (decide (kind = yaml.MappingNode)).
Qed.

Lemma stderr_report {A} (m : M A) fn :
  framed m → stderr (m ;; report) fn = stderr m fn.
Proof.
  intros Hm. unfold stderr at 1. rewrite framed_report_after by done. simpl.
  rewrite stderr_out. destruct (out m fn) as [[a es]|]; [|done]. done.
Qed.

(** *** The checks of a container other than the one of its name, in
    src/unnamed/part_000: their messages, and that they return *)

Lemma otherMessage_not_uniqueness fn s :
  lineWith otherMessage fn s → ¬ uniquenessLine fn s.
Proof.
  intros (line & msg & -> & Hm) (line' & name & E).
  apply errorLine_msg_inj in E. subst msg.
  unfold otherMessage, uniquenessMessage in Hm. by destruct name.
Qed.

Ltac logs_auto :=
  intros; unfold otherMessage;
  repeat first [logs_step | reflexivity | solve [auto with logs]].

Create HintDb logs.

Lemma validateImage_logs node : logs otherMessage (validateImage node).
Proof. unfold validateImage. logs_auto. Qed.

Lemma validateProtocol_logs node : logs otherMessage (validateProtocol node).
Proof. unfold validateProtocol. logs_auto. Qed.

Lemma validateContainerPort_logs node : logs otherMessage (validateContainerPort node).
Proof. unfold validateContainerPort. logs_auto. Qed.

Lemma validateProbePort_logs node : logs otherMessage (validateProbePort node).
Proof. unfold validateProbePort. logs_auto. Qed.

Lemma validateMemory_logs node prefix :
  prefix = "requests"%string ∨ prefix = "limits"%string →
  logs otherMessage (validateMemory node prefix).
Proof. intros [-> | ->]; unfold validateMemory; logs_auto. Qed.

Lemma validatePath_logs node : logs otherMessage (Document.validatePath node).
Proof. unfold Document.validatePath. logs_auto. Qed.

Lemma Document_validateCPU_logs node : logs otherMessage (Document.validateCPU node).
Proof. unfold Document.validateCPU. logs_auto. Qed.

#[global] Hint Resolve validateImage_logs validateProtocol_logs
  validateContainerPort_logs validateProbePort_logs validatePath_logs
  Document_validateCPU_logs : logs.

Lemma Document_validateResourceRequirements_logs node prefix :
  prefix = "requests"%string ∨ prefix = "limits"%string →
  logs otherMessage (Document.validateResourceRequirements node prefix).
Proof.
  intros Hp. unfold Document.validateResourceRequirements.
  pose proof (λ n, validateMemory_logs n prefix Hp).
  destruct Hp as [-> | ->]; logs_auto.
Qed.

Lemma Document_validateResources_logs node :
  logs otherMessage (Document.validateResources node).
Proof.
  unfold Document.validateResources.
  pose proof (λ n, Document_validateResourceRequirements_logs n "requests" (or_introl eq_refl)).
  pose proof (λ n, Document_validateResourceRequirements_logs n "limits" (or_intror eq_refl)).
  logs_auto.
Qed.

Lemma Document_validatePorts_logs node : logs otherMessage (Document.validatePorts node).
Proof. unfold Document.validatePorts. logs_auto. Qed.

Lemma Document_validateHTTPGetAction_logs node :
  logs otherMessage (Document.validateHTTPGetAction node).
Proof. unfold Document.validateHTTPGetAction. logs_auto. Qed.

#[global] Hint Resolve Document_validateResources_logs Document_validatePorts_logs
  Document_validateHTTPGetAction_logs : logs.

Lemma Document_validateProbe_logs node : logs otherMessage (Document.validateProbe node).
Proof. unfold Document.validateProbe. logs_auto. Qed.

#[global] Hint Resolve Document_validateProbe_logs : logs.

Ltac returns_leaf :=
  intros;
  repeat match goal with
    | |- returns (if ?b then _ else _) _ => destruct b
    | |- returns (match ?o with _ => _ end) _ => destruct o
    | |- returns (when _ _) _ => apply returns_when; [done|]
    | |- returns (Errorf _ _) _ => by apply returns_Errorf
    | |- returns (ret _) _ => by apply returns_ret
    end.

Lemma validateImage_returns node : returns (validateImage node) (λ _, True).
Proof. unfold validateImage. returns_leaf. Qed.

Lemma validateProtocol_returns node : returns (validateProtocol node) (λ _, True).
Proof. unfold validateProtocol. returns_leaf. Qed.

Lemma validateContainerPort_returns node :
  returns (validateContainerPort node) (λ _, True).
Proof. unfold validateContainerPort. returns_leaf. Qed.

Lemma validateProbePort_returns node : returns (validateProbePort node) (λ _, True).
Proof. unfold validateProbePort. returns_leaf. Qed.

Lemma validateMemory_returns node prefix :
  returns (validateMemory node prefix) (λ _, True).
Proof. unfold validateMemory. returns_leaf. Qed.

Lemma validatePath_returns node : returns (Document.validatePath node) (λ _, True).
Proof. unfold Document.validatePath. returns_leaf. Qed.

Lemma Document_validateCPU_returns node : returns (Document.validateCPU node) (λ _, True).
Proof. unfold Document.validateCPU. returns_leaf. Qed.

Lemma Document_validateResourceRequirements_returns node prefix :
  wellFormed node = true →
  returns (Document.validateResourceRequirements node prefix) (λ _, True).
Proof.
  intros Hw. unfold Document.validateResourceRequirements.
  destruct (kindIs yaml.MappingNode node) eqn:Hk; simpl; [|by apply returns_Errorf].
  apply (returns_forPairs (λ _, True)); [by apply wellFormed_mapping| |done].
  intros key value [] _ _ _.
  destruct (_ == _); [apply Document_validateCPU_returns|].
  destruct (_ == _); [apply validateMemory_returns|by apply returns_ret].
Qed.

Lemma Document_validateResources_returns node :
  wellFormed node = true → returns (Document.validateResources node) (λ _, True).
Proof.
  intros Hw. unfold Document.validateResources.
  destruct (kindIs yaml.MappingNode node) eqn:Hk; simpl; [|by apply returns_Errorf].
  apply (returns_forPairs (λ _, True)); [by apply wellFormed_mapping| |done].
  intros key value [] _ Hv _. apply (wellFormed_content _ _ Hw) in Hv.
  destruct (_ == _); [by apply Document_validateResourceRequirements_returns|].
  destruct (_ == _); [by apply Document_validateResourceRequirements_returns|].
  by apply returns_ret.
Qed.

Lemma Document_validatePorts_returns node :
  wellFormed node = true → returns (Document.validatePorts node) (λ _, True).
Proof.
  intros Hw. unfold Document.validatePorts.
  destruct (kindIs yaml.SequenceNode node); simpl; [|by apply returns_Errorf].
  apply (returns_forRange (λ _, True)); [|done].
  intros portNode [] Hp _. apply (wellFormed_content _ _ Hw) in Hp.
  destruct (kindIs yaml.MappingNode portNode) eqn:Hk; simpl;
    [|by apply returns_Errorf].
  apply (returns_bind _ _ (λ _, True)).
  - apply (returns_forPairs (λ _, True)); [by apply wellFormed_mapping| |done].
    intros key value s _ _ _.
    destruct (_ == _); [by apply returns_ret|].
    destruct (_ == _); [|by apply returns_ret].
    apply (returns_bind _ _ (λ _, True)); [apply validateProtocol_returns|].
    intros. by apply returns_ret.
  - intros [n|] _; [apply validateContainerPort_returns|by apply returns_Errorf].
Qed.

Lemma Document_validateHTTPGetAction_returns node :
  wellFormed node = true →
  returns (Document.validateHTTPGetAction node) (λ _, True).
Proof.
  intros Hw. unfold Document.validateHTTPGetAction.
  destruct (kindIs yaml.MappingNode node) eqn:Hk; simpl; [|by apply returns_Errorf].
  apply (returns_bind _ _ (λ _, True)).
  - apply (returns_forPairs (λ _, True)); [by apply wellFormed_mapping| |done].
    intros key value [pathNode portNode] _ _ _.
    destruct (_ == _); [by apply returns_ret|].
    destruct (_ == _); by apply returns_ret.
  - intros [pathNode portNode] _.
    apply (returns_bind _ _ (λ _, True)).
    + destruct pathNode; [apply validatePath_returns|by apply returns_Errorf].
    + intros _ _.
      destruct portNode; [apply validateProbePort_returns|by apply returns_Errorf].
Qed.

Lemma Document_validateProbe_returns node :
  wellFormed node = true → returns (Document.validateProbe node) (λ _, True).
Proof.
  intros Hw. unfold Document.validateProbe.
  destruct (kindIs yaml.MappingNode node) eqn:Hk; simpl; [|by apply returns_Errorf].
  apply (returns_bind _ _ wellFormedVar).
  - apply (returns_forPairs wellFormedVar); [by apply wellFormed_mapping| |done].
    intros key value s _ Hv Hs. apply (wellFormed_content _ _ Hw) in Hv.
    destruct (_ == _); apply returns_ret; [|done]. by intros n [= <-].
  - intros [n|] Hn; [|by apply returns_Errorf].
    apply Document_validateHTTPGetAction_returns. by apply Hn.
Qed.

(** *** part_000 has no line for an absent [apiVersion] *)

Ltac logs_api :=
  intros; unfold notRequiresAPIVersion;
  repeat first
    [ logs_step
    | solve [auto with logs_api]
    | (let H := fresh in intros H; simpl in H; discriminate H) ].

Create HintDb logs_api.

Lemma validateLabels_logs_api node : logs notRequiresAPIVersion (validateLabels node).
Proof. unfold validateLabels. logs_api. Qed.

Lemma validateOS_logs_api node : logs notRequiresAPIVersion (validateOS node).
Proof. unfold validateOS. logs_api. Qed.

Lemma validateContainerName_logs_api node names :
  logs notRequiresAPIVersion (validateContainerName node names).
Proof. unfold validateContainerName. logs_api. Qed.

Lemma validateImage_logs_api node : logs notRequiresAPIVersion (validateImage node).
Proof. unfold validateImage. logs_api. Qed.

Lemma validateMemory_logs_api node prefix :
  prefix = "requests"%string ∨ prefix = "limits"%string →
  logs notRequiresAPIVersion (validateMemory node prefix).
Proof. intros [-> | ->]; unfold validateMemory; logs_api. Qed.

Lemma validateContainerPort_logs_api node :
  logs notRequiresAPIVersion (validateContainerPort node).
Proof. unfold validateContainerPort. logs_api. Qed.

Lemma validateProtocol_logs_api node : logs notRequiresAPIVersion (validateProtocol node).
Proof. unfold validateProtocol. logs_api. Qed.

Lemma validateProbePort_logs_api node : logs notRequiresAPIVersion (validateProbePort node).
Proof. unfold validateProbePort. logs_api. Qed.

Lemma Document_validateAPIVersion_logs_api node :
  logs notRequiresAPIVersion (Document.validateAPIVersion node).
Proof. unfold Document.validateAPIVersion. logs_api. Qed.

Lemma Document_validateKind_logs_api node :
  logs notRequiresAPIVersion (Document.validateKind node).
Proof. unfold Document.validateKind. logs_api. Qed.

Lemma validateName_logs_api node : logs notRequiresAPIVersion (Document.validateName node).
Proof. unfold Document.validateName. logs_api. Qed.

Lemma Document_validateCPU_logs_api node :
  logs notRequiresAPIVersion (Document.validateCPU node).
Proof. unfold Document.validateCPU. logs_api. Qed.

Lemma validatePath_logs_api node : logs notRequiresAPIVersion (Document.validatePath node).
Proof. unfold Document.validatePath. logs_api. Qed.

#[global] Hint Resolve validateLabels_logs_api validateOS_logs_api
  validateContainerName_logs_api validateImage_logs_api
  validateContainerPort_logs_api validateProtocol_logs_api
  validateProbePort_logs_api Document_validateAPIVersion_logs_api
  Document_validateKind_logs_api validateName_logs_api
  Document_validateCPU_logs_api validatePath_logs_api : logs_api.

Lemma Document_validateMetadata_logs_api node :
  logs notRequiresAPIVersion (Document.validateMetadata node).
Proof. unfold Document.validateMetadata. logs_api. Qed.

Lemma Document_validateResourceRequirements_logs_api node prefix :
  prefix = "requests"%string ∨ prefix = "limits"%string →
  logs notRequiresAPIVersion (Document.validateResourceRequirements node prefix).
Proof.
  intros Hp. unfold Document.validateResourceRequirements.
  pose proof (λ n, validateMemory_logs_api n prefix Hp).
  destruct Hp as [-> | ->]; logs_api.
Qed.

Lemma Document_validateResources_logs_api node :
  logs notRequiresAPIVersion (Document.validateResources node).
Proof.
  unfold Document.validateResources.
  pose proof (λ n, Document_validateResourceRequirements_logs_api n "requests"
                     (or_introl eq_refl)).
  pose proof (λ n, Document_validateResourceRequirements_logs_api n "limits"
                     (or_intror eq_refl)).
  logs_api.
Qed.

Lemma Document_validatePorts_logs_api node :
  logs notRequiresAPIVersion (Document.validatePorts node).
Proof. unfold Document.validatePorts. logs_api. Qed.

Lemma Document_validateHTTPGetAction_logs_api node :
  logs notRequiresAPIVersion (Document.validateHTTPGetAction node).
Proof. unfold Document.validateHTTPGetAction. logs_api. Qed.

#[global] Hint Resolve Document_validateMetadata_logs_api
  Document_validateResources_logs_api Document_validatePorts_logs_api
  Document_validateHTTPGetAction_logs_api : logs_api.

Lemma Document_validateProbe_logs_api node :
  logs notRequiresAPIVersion (Document.validateProbe node).
Proof. unfold Document.validateProbe. logs_api. Qed.

#[global] Hint Resolve Document_validateProbe_logs_api : logs_api.

Lemma validateContainer_logs_api node names :
  logs notRequiresAPIVersion (Document.validateContainer node names).
Proof.
  unfold Document.validateContainer, Document.validateContainer_scan. logs_api.
Qed.

#[global] Hint Resolve validateContainer_logs_api : logs_api.

Lemma Document_validateContainers_logs_api node :
  logs notRequiresAPIVersion (Document.validateContainers node).
Proof. unfold Document.validateContainers. logs_api. Qed.

#[global] Hint Resolve Document_validateContainers_logs_api : logs_api.

Lemma Document_validateSpec_logs_api node :
  logs notRequiresAPIVersion (Document.validateSpec node).
Proof. unfold Document.validateSpec. logs_api. Qed.

#[global] Hint Resolve Document_validateSpec_logs_api : logs_api.

Lemma validateDocument_logs_api node :
  logs notRequiresAPIVersion (Document.validateDocument node).
Proof. unfold Document.validateDocument. logs_api. Qed.

Lemma logs_report P : logs P report.
Proof.
  intros v a v' [= <- <-]. split; [done|]. exists []. by rewrite app_nil_r.
Qed.

(** X2.  Whatever the tree, no line that [Validate] of part_000 prints is
    the line for an absent [apiVersion]. *)
Theorem Document_Validate_never_requires_apiVersion root fn es :
  stderr (Document.Validate root) fn = Some es →
  fn +:+ " apiVersion is required" ∉ es.
Proof.
  intros Hes Hin.
  assert (logs notRequiresAPIVersion (Document.Validate root)) as Hl.
  { unfold Document.Validate. pose proof validateDocument_logs_api.
    pose proof (logs_report notRequiresAPIVersion). logs_api. }
  pose proof (logs_stderr _ _ _ _ Hl Hes) as Hall.
  rewrite Forall_forall in Hall.
  destruct (Hall _ Hin) as (line & msg & E & Hmsg).
  apply (errorLine_msg_inj fn 0 line "apiVersion is required" msg) in E.
  by subst msg.
Qed.

Lemma Document_Validate_never_requires_apiVersion_witness :
  "pod.yaml apiVersion is required"%string ∉ ([] : list string).
Proof.
  exact (Document_Validate_never_requires_apiVersion
           podWithoutAPIVersion "pod.yaml" [] eq_refl).
Defined.

(** ** Whole runs *)

Lemma sameLines_framed_report {A} (m : M A) fn es1 es2 :
  framed m → sameLines (bind m (λ _, report)) fn es1 es2.
Proof.
  intros Hm. unfold sameLines. rewrite !framed_report_after by done. simpl.
  destruct (out m fn) as [[a d]|]; [|done]. by exists d.
Qed.

Lemma sameLines_ext {A} (m m' : M A) fn es1 es2 :
  (∀ v, m v = m' v) → sameLines m' fn es1 es2 → sameLines m fn es1 es2.
Proof. intros E. unfold sameLines. by rewrite !E. Qed.

(** The checks of [Document.Validate], before the report. *)
Lemma Document_Validate_checks root v :
  Document.Validate root v
  = bind (when (length (yaml.Content root) =? 0)%nat (Errorf 0 "empty document") ;;
          doc <- match yaml.Content root with
                 | [] => panic
                 | doc :: _ => ret doc
                 end ;;
          Document.validateDocument doc) (λ _, report) v.
Proof.
  unfold Document.Validate, bind.
  destruct (when _ _ v) as [[[] v1]|]; [|done].
  destruct (yaml.Content root) as [|doc rest]; [done|]. simpl.
  by destruct (Document.validateDocument doc v1) as [[[] v2]|].
Qed.

(** C9.  Two runs over one tree report the same lines in the same order:
    nothing a run reports depends on what the collector held when the run
    started, be it the package-level [errors] of [validatePod] or the
    [errors] of a [Validator]; a run that starts from an empty collector
    ([NewValidator], a new process) therefore reports exactly those lines.
    The one run that reports nothing at all, the panic of part_000, panics
    both times. *)
Theorem validation_is_idempotent (root : Node) (fn : string)
    (e1 e2 : list PodFields.ValidationError) (es1 es2 : list string) :
  (∃ d, PodFields.validatePod root fn e1 = e1 ++ d
        ∧ PodFields.validatePod root fn e2 = e2 ++ d
        ∧ PodFields.run root fn = map PodFields.String_ d)
  ∧ sameLines (TopLevel.Validate root) fn es1 es2
  ∧ sameLines (Document.Validate root) fn es1 es2.
Proof.
  split; [|split].
  - exists (PodFields.validatePod root fn []). unfold PodFields.run.
    rewrite <- (app_nil_r e1) at 1. rewrite <- (app_nil_r e2) at 1.
    by rewrite !validatePod_app.
  - apply sameLines_framed_report. auto with framed.
  - eapply sameLines_ext; [apply Document_Validate_checks|].
    apply sameLines_framed_report. framed_auto.
Qed.

(** C10.  [Validate] of part_000 does not return for a tree without any
    document: it records "empty document" and then reads [root.Content[0]],
    which panics.  [validateTopLevel] returns after the same message, and
    the process prints it. *)
Theorem Validate_panics_without_document (kind : yaml.NodeKind) (value : string)
    (line : Z) (fn : string) :
  stderr (Document.Validate (yaml.mkNode kind value line [])) fn = None
  ∧ stderr (TopLevel.Validate (yaml.mkNode kind value line [])) fn
    = Some [fn +:+ " empty document"].
Proof. done. Qed.

(** C1.  [validateDocument] of part_000 only looks at the keys that are
    there: a root mapping without [apiVersion] gets no line for it, and
    the process ends as for a valid manifest.  The two validators of
    src/main.go report the absence first of all. *)
Theorem validateDocument_misses_apiVersion (fn : string) (line : Z) :
  (out (Document.Validate (document (mapping line []))) fn = Some (false, [])
   ∧ out (Document.Validate podWithoutAPIVersion) fn = Some (false, []))
  ∧ (stderr (TopLevel.Validate podWithoutAPIVersion) fn
     = Some [fn +:+ " apiVersion is required"]
     ∧ PodFields.run podWithoutAPIVersion fn = [fn +:+ " apiVersion is required"]).
Proof. done. Qed.

(** C2, as the claim states it, fails for [validatePod]: a document whose
    root is a scalar gets no line at all. *)
Lemma validatePod_silent_on_scalar_root :
  yaml.Kind (scalar 1 "hello") ≠ yaml.MappingNode
  ∧ PodFields.run (document (scalar 1 "hello")) "pod.yaml" = []
  ∧ PodFields.run (document (scalar 1 "hello")) "pod.yaml"
    ≠ ["pod.yaml:1 root must be mapping"].
Proof. done. Qed.

(** C2, amended.  When the root of the document is not a mapping, the two
    [Validator]s report the one line "root must be mapping", at the line of
    the root, and check nothing else, while [validatePod] reports nothing.
    It is not the only way a run stops before any field is checked: for a
    tree without a document [validateTopLevel] reports "empty document"
    alone and [validatePod] again nothing. *)
Theorem root_must_be_mapping (root : Node) (fn : string) :
  (∀ doc rest,
     yaml.Content root = doc :: rest → yaml.Kind doc ≠ yaml.MappingNode →
     stderr (Document.Validate root) fn
       = Some [errorLine fn (yaml.Line doc) "root must be mapping"]
     ∧ stderr (TopLevel.Validate root) fn
       = Some [errorLine fn (yaml.Line doc) "root must be mapping"]
     ∧ PodFields.run root fn = [])
  ∧ (yaml.Content root = [] →
     stderr (TopLevel.Validate root) fn = Some [fn +:+ " empty document"]
     ∧ PodFields.run root fn = []).
Proof.
  split.
  - intros doc rest Hc Hk.
    assert (kindIs yaml.MappingNode doc = false) as Hm
      by (by apply bool_decide_eq_false).
    unfold stderr, Document.Validate, TopLevel.Validate, TopLevel.validateTopLevel,
      Document.validateDocument, PodFields.run, PodFields.validatePod, bind.
    rewrite Hc, Hm. simpl. rewrite Hm. simpl.
    by destruct (kindIs yaml.DocumentNode root).
  - intros Hc.
    unfold stderr, TopLevel.Validate, TopLevel.validateTopLevel,
      PodFields.run, PodFields.validatePod, bind.
    rewrite Hc. simpl. by destruct (kindIs yaml.DocumentNode root).
Qed.

Lemma root_must_be_mapping_witness :
  stderr (Document.Validate (document (sequence 3 []))) "pod.yaml"
    = Some ["pod.yaml:3 root must be mapping"]
  ∧ stderr (TopLevel.Validate (document (sequence 3 []))) "pod.yaml"
    = Some ["pod.yaml:3 root must be mapping"]
  ∧ PodFields.run (document (sequence 3 [])) "pod.yaml" = [].
Proof.
  apply (proj1 (root_must_be_mapping (document (sequence 3 [])) "pod.yaml")
           (sequence 3 []) []); [reflexivity | intros H; discriminate H].
Defined.

(** ** The matcher decides the words of an expression *)

Lemma Lang_Void_inv s : ¬ Lang Void s.
Proof. inversion 1. Qed.

Lemma Lang_Eps_inv s : Lang Eps s → s = [].
Proof. by inversion 1. Qed.

Lemma Lang_Class_inv p s : Lang (Class p) s → ∃ c, s = [c] ∧ p c = true.
Proof. inversion 1; subst. eauto. Qed.

Lemma Lang_Cat_inv r1 r2 s :
  Lang (Cat r1 r2) s → ∃ s1 s2, s = s1 ++ s2 ∧ Lang r1 s1 ∧ Lang r2 s2.
Proof. inversion 1; subst. eauto. Qed.

Lemma Lang_Alt_inv r1 r2 s : Lang (Alt r1 r2) s → Lang r1 s ∨ Lang r2 s.
Proof. inversion 1; subst; auto. Qed.

Lemma nullable_Lang r : nullable r = true ↔ Lang r [].
Proof.
  induction r as [| |p|r1 IH1 r2 IH2|r1 IH1 r2 IH2|r IH]; simpl.
  - split; [done|]. intros H. by apply Lang_Void_inv in H.
  - split; [constructor|done].
  - split; [done|]. intros H. by apply Lang_Class_inv in H as (c & ? & _).
  - rewrite andb_true_iff, IH1, IH2. split.
    + intros [H1 H2]. apply (Lang_Cat _ _ [] []); done.
    + intros H. apply Lang_Cat_inv in H as (s1 & s2 & E & H1 & H2).
      symmetry in E. apply app_eq_nil in E as [-> ->]. done.
  - rewrite orb_true_iff, IH1, IH2. split.
    + intros [H|H]; [by apply Lang_Alt_l|by apply Lang_Alt_r].
    + apply Lang_Alt_inv.
  - split; [constructor|done].
Qed.

(** A non-empty word of [Star r] starts with a non-empty word of [r]. *)
Lemma Lang_Star_cons r c s :
  Lang (Star r) (c :: s) →
  ∃ s1 s2, s = s1 ++ s2 ∧ Lang r (c :: s1) ∧ Lang (Star r) s2.
Proof.
  intros H. remember (Star r) as r' eqn:Er. remember (c :: s) as w eqn:Ew.
  induction H as [| | | | | |r0 s1 s2 H1 _ H2 IH2]; try discriminate.
  injection Er as ->. destruct s1 as [|c1 s1]; simpl in Ew.
  - by apply IH2.
  - injection Ew as -> <-. by exists s1, s2.
Qed.

Lemma deriv_Lang c r s : Lang (deriv c r) s ↔ Lang r (c :: s).
Proof.
  revert s.
  induction r as [| |p|r1 IH1 r2 IH2|r1 IH1 r2 IH2|r IH]; intros s; simpl.
  - split; intros H; by apply Lang_Void_inv in H.
  - split; intros H; [by apply Lang_Void_inv in H|by apply Lang_Eps_inv in H].
  - destruct (p c) eqn:Hp; split; intros H.
    + apply Lang_Eps_inv in H as ->. by constructor.
    + apply Lang_Class_inv in H as (c' & [= -> ->] & _). constructor.
    + by apply Lang_Void_inv in H.
    + apply Lang_Class_inv in H as (c' & [= -> ->] & ?). congruence.
  - assert (Lang (Cat (deriv c r1) r2) s → Lang (Cat r1 r2) (c :: s)) as Hcat.
    { intros H. apply Lang_Cat_inv in H as (s1 & s2 & -> & H1 & H2).
      apply IH1 in H1. by apply (Lang_Cat _ _ (c :: s1) s2). }
    split; intros H.
    + destruct (nullable r1) eqn:Hn; [|by apply Hcat].
      apply Lang_Alt_inv in H as [H|H]; [by apply Hcat|].
      apply IH2 in H. apply nullable_Lang in Hn.
      by apply (Lang_Cat _ _ [] (c :: s)).
    + apply Lang_Cat_inv in H as (s1 & s2 & E & H1 & H2).
      destruct s1 as [|c1 s1]; simpl in E.
      * subst s2. apply nullable_Lang in H1. rewrite H1.
        apply Lang_Alt_r. by apply IH2.
      * injection E as <- ->. apply IH1 in H1.
        assert (Lang (Cat (deriv c r1) r2) (s1 ++ s2)) by (by constructor).
        destruct (nullable r1); [by apply Lang_Alt_l|done].
  - split; intros H; apply Lang_Alt_inv in H as [H|H];
      [apply Lang_Alt_l|apply Lang_Alt_r|apply Lang_Alt_l|apply Lang_Alt_r];
      first [by apply IH1|by apply IH2].
  - split; intros H.
    + apply Lang_Cat_inv in H as (s1 & s2 & -> & H1 & H2).
      apply IH in H1. by apply (Lang_Star_app _ (c :: s1) s2).
    + apply Lang_Star_cons in H as (s1 & s2 & -> & H1 & H2).
      constructor; [by apply IH|done].
Qed.

Theorem matches_Lang r s : matches r s = true ↔ Lang r s.
Proof.
  revert r. induction s as [|c s IH]; intros r; simpl.
  - apply nullable_Lang.
  - by rewrite IH, deriv_Lang.
Qed.

(** *** One or more bytes of a class *)

Lemma Lang_Star_Class p s : Lang (Star (Class p)) s ↔ Forall (λ c, p c = true) s.
Proof.
  split.
  - intros H. remember (Star (Class p)) as r eqn:Er.
    induction H as [| | | | | |r0 s1 s2 H1 _ H2 IH2]; try discriminate; [done|].
    injection Er as ->. apply Lang_Class_inv in H1 as (c & -> & Hc).
    constructor; [done|by apply IH2].
  - induction 1 as [|c s Hc _ IH]; [constructor|].
    apply (Lang_Star_app _ [c] s); [by constructor|done].
Qed.

Lemma Lang_Plus_Class p s :
  Lang (Plus (Class p)) s ↔ s ≠ [] ∧ Forall (λ c, p c = true) s.
Proof.
  unfold Plus. split.
  - intros H. apply Lang_Cat_inv in H as (s1 & s2 & -> & H1 & H2).
    apply Lang_Class_inv in H1 as (c & -> & Hc).
    apply Lang_Star_Class in H2. split; [done|by constructor].
  - intros [Hne Hall]. destruct Hall as [|c s Hc Hs]; [done|].
    apply (Lang_Cat _ _ [c] s); [by constructor|by apply Lang_Star_Class].
Qed.

(** *** [^[a-z]+(_[a-z]+)*$] *)

Lemma chr_true a c : chr a c = true ↔ c = a.
Proof. unfold chr. rewrite Ascii.eqb_eq. split; congruence. Qed.

Lemma lower_not_underscore : lower "_" = false.
Proof. done. Qed.

Lemma snakeCase_nil : ¬ Lang snakeCaseRegex [].
Proof.
  unfold snakeCaseRegex. intros H.
  apply Lang_Cat_inv in H as (s1 & s2 & E & H1 & H2).
  symmetry in E. apply app_eq_nil in E as [-> _].
  apply Lang_Plus_Class in H1 as [? _]. done.
Qed.

Lemma snakeCase_cons c s :
  Lang snakeCaseRegex (c :: s) ↔ lower c = true ∧ Lang afterLetterRegex s.
Proof.
  unfold snakeCaseRegex, afterLetterRegex, Plus. split.
  - intros H. apply Lang_Cat_inv in H as (s1 & s2 & E & H1 & H2).
    apply Lang_Cat_inv in H1 as (s3 & s4 & -> & H3 & H4).
    apply Lang_Class_inv in H3 as (c' & -> & Hc).
    simpl in E. injection E as -> ->. split; [done|]. by constructor.
  - intros [Hc H]. apply Lang_Cat_inv in H as (s1 & s2 & -> & H1 & H2).
    apply (Lang_Cat _ _ (c :: s1) s2); [|done].
    apply (Lang_Cat _ _ [c] s1); [by constructor|done].
Qed.

Lemma afterLetter_nil : Lang afterLetterRegex [].
Proof. apply (Lang_Cat _ _ [] []); constructor. Qed.

Lemma afterLetter_cons c s :
  Lang afterLetterRegex (c :: s)
  ↔ (lower c = true ∧ Lang afterLetterRegex s)
    ∨ (c = "_"%char ∧ Lang snakeCaseRegex s).
Proof.
  unfold afterLetterRegex. split.
  - intros H. apply Lang_Cat_inv in H as (s1 & s2 & E & H1 & H2).
    destruct s1 as [|c1 s1]; simpl in E.
    + subst s2. apply Lang_Star_cons in H2 as (t1 & t2 & -> & Hg & Ht).
      apply Lang_Cat_inv in Hg as (u1 & u2 & Eu & Hu1 & Hu2).
      apply Lang_Class_inv in Hu1 as (c' & -> & Hc).
      simpl in Eu. injection Eu as -> ->.
      right. split; [by apply chr_true|]. by constructor.
    + injection E as -> ->. apply Lang_Star_Class in H1.
      inversion H1; subst. left. split; [done|].
      constructor; [by apply Lang_Star_Class|done].
  - intros [[Hc H]|[-> H]].
    + apply Lang_Cat_inv in H as (s1 & s2 & -> & H1 & H2).
      apply (Lang_Cat _ _ (c :: s1) s2); [|done].
      apply (Lang_Star_app _ [c] s1); [by constructor|done].
    + unfold snakeCaseRegex in H.
      apply Lang_Cat_inv in H as (s1 & s2 & -> & H1 & H2).
      apply (Lang_Cat _ _ [] ("_"%char :: s1 ++ s2)); [constructor|].
      apply (Lang_Star_app _ ("_"%char :: s1) s2); [|done].
      apply (Lang_Cat _ _ ["_"%char] s1); [by constructor|done].
Qed.

Lemma identifierFrom_Lang s :
  (identifierFrom false s = true ↔ Lang snakeCaseRegex s)
  ∧ (identifierFrom true s = true ↔ Lang afterLetterRegex s).
Proof.
  induction s as [|c s [IH0 IH1]]; simpl.
  - split; split; try done.
    + intros H. by apply snakeCase_nil in H.
    + intros _. apply afterLetter_nil.
  - rewrite snakeCase_cons, afterLetter_cons.
    destruct (lower c) eqn:Hc; simpl.
    + rewrite IH1. split; [tauto|]. split; [tauto|].
      intros [[_ H]|[-> _]]; [done|]. by rewrite lower_not_underscore in Hc.
    + split; [split; [done|tauto]|].
      destruct (Ascii.eqb_spec c "_") as [->|Hne]; simpl.
      * rewrite IH0. split; [tauto|]. intros [[? _]|[_ H]]; done.
      * split; [done|]. intros [[? _]|[? _]]; done.
Qed.

(** *** The scan and the identifier of the specification *)

Lemma last_cons_not (u c : ascii) (r : list ascii) :
  last (c :: r) ≠ Some u ↔ (r = [] ∧ c ≠ u) ∨ (r ≠ [] ∧ last r ≠ Some u).
Proof.
  rewrite last_cons. destruct r as [|c' r]; simpl.
  - split; [intros H; left; split; [done|congruence]|]. intros [[_ H]|[H _]]; congruence.
  - destruct (last (c' :: r)) as [y|] eqn:E.
    + split; [intros H; by right|]. intros [[? _]|[_ H]]; done.
    + by apply last_None in E.
Qed.

Lemma noDoubledUnderscore_cons (c : ascii) (r : list ascii) :
  noDoubledUnderscore (c :: r)
  ↔ ¬ (c = "_"%char ∧ head r = Some "_"%char) ∧ noDoubledUnderscore r.
Proof.
  unfold noDoubledUnderscore. split.
  - intros H. split.
    + intros [-> Hr]. apply (H 0%nat); [done|]. simpl. by destruct r.
    + intros i H1 H2. by apply (H (S i)).
  - intros [H0 H] [|i] H1 H2; simpl in *.
    + apply H0. split; [congruence|]. by destruct r.
    + by apply (H i).
Qed.

Lemma identifierFrom_spec s :
  (identifierFrom false s = true ↔ isIdentifier s)
  ∧ (identifierFrom true s = true
     ↔ Forall (λ c, lower c = true ∨ c = "_"%char) s
       ∧ last s ≠ Some "_"%char ∧ noDoubledUnderscore s).
Proof.
  unfold isIdentifier.
  induction s as [|c r [IH0 IH1]]; simpl.
  - split; [split; [done|by intros [? _]]|].
    split; [|done]. intros _. split; [constructor|]. split; [done|].
    intros i H. done.
  - rewrite Forall_cons, last_cons_not, noDoubledUnderscore_cons.
    destruct (lower c) eqn:Hc; simpl.
    + assert (c ≠ "_"%char) as Hne
        by (intros ->; by rewrite lower_not_underscore in Hc).
      rewrite IH1. split.
      * split.
        -- intros (Hall & Hl & Hd). repeat split; try done; [by left|congruence| |tauto].
           destruct r; [by left|right; by split].
        -- intros (_ & [_ Hall] & _ & Hl & _ & Hd). repeat split; try done.
           destruct Hl as [[-> _]|[_ Hl]]; done.
      * split.
        -- intros (Hall & Hl & Hd). repeat split; try done; [by left| |tauto].
           destruct r; [by left|right; by split].
        -- intros ([_ Hall] & Hl & _ & Hd). repeat split; try done.
           destruct Hl as [[-> _]|[_ Hl]]; done.
    + split.
      * split; [done|]. intros (_ & [[?| ->] _] & Hh & _); [congruence|done].
      * destruct (Ascii.eqb_spec c "_") as [->|Hne]; simpl.
        -- rewrite IH0. split.
           ++ intros (Hr & Hall & Hh & Hl & Hd).
              repeat split; try done; [by right|by right|tauto].
           ++ intros ([_ Hall] & Hl & Hh & Hd).
              destruct Hl as [[_ ?]|[Hr Hl]]; [done|].
              repeat split; try done. intros E. apply Hh. by split.
        -- split; [done|]. intros ([[?| ->] _] & _); [congruence|done].
Qed.

(** The pattern of the source accepts exactly the identifiers of the
    specification. *)
Lemma snakeCaseRegex_isIdentifier (s : string) :
  MatchString snakeCaseRegex s = true ↔ isIdentifier (list_ascii_of_string s).
Proof.
  unfold MatchString. rewrite matches_Lang.
  rewrite <- (proj1 (identifierFrom_Lang _)). apply identifierFrom_spec.
Qed.

(** [^[a-z0-9_]+$] and the test for the empty string beside it. *)
Lemma isValidSnakeCase_spec (s : string) :
  PodFields.isValidSnakeCase s = true
  ↔ s ≠ ""%string
    ∧ Forall (λ c, lower c = true ∨ digit c = true ∨ c = "_"%char)
        (list_ascii_of_string s).
Proof.
  unfold PodFields.isValidSnakeCase, MatchString, looseSnakeRegex.
  rewrite andb_true_iff, matches_Lang, Lang_Plus_Class, negb_true_iff.
  assert (∀ l : list ascii,
    Forall (λ c, lower c || digit c || chr "_" c = true) l
    ↔ Forall (λ c, lower c = true ∨ digit c = true ∨ c = "_"%char) l) as ->.
  { intros l. apply Forall_proper; [|done]. intros c.
    rewrite !orb_true_iff, chr_true. tauto. }
  destruct (String.eqb_spec s "") as [->|Hne]; simpl.
  - split; [by intros [_ ?]|by intros [? _]].
  - split; [intros [[_ H] _]; by split|].
    intros [_ H]. repeat split; try done. by destruct s.
Qed.

(** ** Ports *)

(** C6.  For a scalar that [strconv.Atoi] reads as the integer [port], both
    [validateContainerPort] and [validateProbePort] report nothing when
    [1 <= port <= 65535], the two ends included, and report "value out of
    range" at the line of the scalar when [port <= 0] or [port >= 65536]. *)
Theorem port_range (node : Node) (fn : string) (port : Z) :
  yaml.Kind node = yaml.ScalarNode →
  Atoi (yaml.Value node) = (port, None) →
  (1 ≤ port ≤ 65535 →
     stderr (validateContainerPort node) fn = Some []
     ∧ stderr (validateProbePort node) fn = Some [])
  ∧ (port ≤ 0 ∨ 65536 ≤ port →
     stderr (validateContainerPort node) fn
       = Some [errorLine fn (yaml.Line node) "containerPort value out of range"]
     ∧ stderr (validateProbePort node) fn
       = Some [errorLine fn (yaml.Line node) "port value out of range"]).
Proof.
  intros Hk Ha.
  unfold stderr, validateContainerPort, validateProbePort, kindIs.
  rewrite bool_decide_eq_true_2 by done. simpl. rewrite Ha.
  split; intros Hp.
  - replace ((port <=? 0) || (65536 <=? port)) with false; [done|].
    symmetry. apply orb_false_iff. split; [apply Z.leb_gt|apply Z.leb_gt]; lia.
  - replace ((port <=? 0) || (65536 <=? port)) with true; [done|].
    symmetry. apply orb_true_iff. rewrite !Z.leb_le. lia.
Qed.

Lemma port_range_witness :
  (stderr (validateContainerPort (scalar 15 "65535")) "pod.yaml" = Some []
   ∧ stderr (validateProbePort (scalar 15 "65535")) "pod.yaml" = Some [])
  ∧ (stderr (validateContainerPort (scalar 16 "65536")) "pod.yaml"
       = Some ["pod.yaml:16 containerPort value out of range"]
     ∧ stderr (validateProbePort (scalar 16 "65536")) "pod.yaml"
       = Some ["pod.yaml:16 port value out of range"]).
Proof.
  split.
  - apply (proj1 (port_range (scalar 15 "65535") "pod.yaml" 65535
                    eq_refl eq_refl)). lia.
  - apply (proj2 (port_range (scalar 16 "65536") "pod.yaml" 65536
                    eq_refl eq_refl)). lia.
Defined.

(** ** The field accessor of [validatePod] *)

Lemma parseMapping_loop_lookup content result key :
  PodFields.parseMapping_loop content result !! key
  = match lastValue key content with
    | Some value => Some value
    | None => result !! key
    end.
Proof.
  revert result.
  induction content as [|x|k v rest IH] using pairs_ind; intros result; simpl;
    [done..|].
  rewrite IH. destruct (lastValue key rest) as [later|]; [done|].
  destruct (String.eqb_spec (yaml.Value k) key) as [->|Hne].
  - by rewrite lookup_insert_eq.
  - by rewrite lookup_insert_ne.
Qed.

Lemma parseMapping_lookup node key :
  yaml.Kind node = yaml.MappingNode →
  PodFields.parseMapping node !! key = lastValue key (yaml.Content node).
Proof.
  intros Hk. unfold PodFields.parseMapping, kindIs.
  rewrite bool_decide_eq_true_2 by done. simpl.
  rewrite parseMapping_loop_lookup. by destruct (lastValue _ _).
Qed.

Lemma lastValue_app key (pre post : list Node) :
  Nat.even (length pre) = true →
  lastValue key (pre ++ post)
  = match lastValue key post with
    | Some value => Some value
    | None => lastValue key pre
    end.
Proof.
  induction pre as [|x|k v rest IH] using pairs_ind; simpl.
  - intros _. by destruct (lastValue key post).
  - done.
  - intros He. rewrite IH by done. by destruct (lastValue key post).
Qed.

Lemma pair_lookup_0 {X} (k v : X) rest :
  (k :: v :: rest) !! (2 * 0)%nat = Some k
  ∧ (k :: v :: rest) !! (2 * 0 + 1)%nat = Some v.
Proof. done. Qed.

Lemma pair_lookup_key {X} (k v : X) rest (i : nat) :
  (k :: v :: rest) !! (2 * S i)%nat = rest !! (2 * i)%nat.
Proof. by replace (2 * S i)%nat with (S (S (2 * i))) by lia. Qed.

Lemma pair_lookup_value {X} (k v : X) rest (i : nat) :
  (k :: v :: rest) !! (2 * S i + 1)%nat = rest !! (2 * i + 1)%nat.
Proof. by replace (2 * S i + 1)%nat with (S (S (2 * i + 1))) by lia. Qed.

Lemma lastValue_None key content (j : nat) k' v' :
  lastValue key content = None →
  content !! (2 * j)%nat = Some k' → content !! (2 * j + 1)%nat = Some v' →
  yaml.Value k' ≠ key.
Proof.
  revert j.
  induction content as [|x|k v rest IH] using pairs_ind; intros j; cbn [lastValue].
  - intros _ H. by rewrite lookup_nil in H.
  - intros _ _ H. apply lookup_lt_Some in H. simpl in H. lia.
  - destruct (lastValue key rest) as [later|]; [done|].
    destruct (String.eqb_spec (yaml.Value k) key) as [E|Hne]; [done|].
    intros _. destruct j as [|j].
    + destruct (pair_lookup_0 k v rest) as [-> _]. by intros [= <-].
    + rewrite ?pair_lookup_key, ?pair_lookup_value. by apply IH.
Qed.

(** What [lastValue] finds is the value at an odd index whose key reads
    [key], and no later pair has that key. *)
Lemma lastValue_Some key content value :
  lastValue key content = Some value ↔
  ∃ (i : nat) k,
    content !! (2 * i)%nat = Some k ∧ yaml.Value k = key
    ∧ content !! (2 * i + 1)%nat = Some value
    ∧ ∀ (j : nat) k', (i < j)%nat → content !! (2 * j)%nat = Some k' →
        is_Some (content !! (2 * j + 1)%nat) → yaml.Value k' ≠ key.
Proof.
  revert value.
  induction content as [|x|k v rest IH] using pairs_ind; intros value;
    cbn [lastValue].
  - split; [done|]. intros (i & k & H & _). by rewrite lookup_nil in H.
  - split; [done|]. intros (i & k & _ & _ & H & _).
    apply lookup_lt_Some in H. simpl in H. lia.
  - destruct (lastValue key rest) as [later|] eqn:El.
    + split.
      * intros [= <-].
        destruct (proj1 (IH later) eq_refl) as (i & k0 & H1 & H2 & H3 & H4).
        exists (S i), k0. rewrite ?pair_lookup_key, ?pair_lookup_value.
        repeat split; try done.
        intros [|j] k' Hj; [lia|].
        rewrite ?pair_lookup_key, ?pair_lookup_value. apply H4. lia.
      * intros ([|i] & k0 & H1 & H2 & H3 & H4).
        -- exfalso.
           destruct (proj1 (IH later) eq_refl) as (i' & k1 & G1 & G2 & G3 & _).
           apply (H4 (S i') k1); [lia| | |done];
             rewrite ?pair_lookup_key, ?pair_lookup_value; [done|by rewrite G3].
        -- rewrite pair_lookup_key in H1. rewrite pair_lookup_value in H3.
           apply IH. exists i, k0. repeat split; try done.
           intros j k' Hj G1 G2. apply (H4 (S j) k'); [lia| |];
             rewrite ?pair_lookup_key, ?pair_lookup_value; done.
    + split.
      * destruct (String.eqb_spec (yaml.Value k) key) as [E|Hne]; [|done].
        intros [= <-]. exists 0%nat, k. repeat split; try done.
        intros [|j] k' Hj; [lia|].
        rewrite ?pair_lookup_key, ?pair_lookup_value.
        intros G1 [v' G2]. by apply (lastValue_None key rest j k' v').
      * intros ([|i] & k0 & H1 & H2 & H3 & H4).
        -- destruct (pair_lookup_0 k v rest) as [E1 E2].
           rewrite E1 in H1. rewrite E2 in H3.
           injection H1 as ->. injection H3 as ->.
           by rewrite (proj2 (String.eqb_eq _ _) H2).
        -- rewrite pair_lookup_key in H1. rewrite pair_lookup_value in H3.
           enough (@None Node = Some value) by done.
           apply IH. exists i, k0. repeat split; try done.
           intros j k' Hj G1 G2. apply (H4 (S j) k'); [lia| |];
             rewrite ?pair_lookup_key, ?pair_lookup_value; done.
Qed.

Lemma lastValue_later key (content : list Node) (i : nat) k v :
  content !! (2 * i)%nat = Some k → content !! (2 * i + 1)%nat = Some v →
  yaml.Value k = key → is_Some (lastValue key content).
Proof.
  intros H1 H2 H3. destruct (lastValue key content) eqn:E; [done|].
  by destruct (lastValue_None key content i k v E H1 H2).
Qed.

(** C8.  [parseMapping] returns the empty map for a node that is not a
    mapping.  For a mapping it maps a key text to the value of the last
    pair with that key: a pair with a value whose key is not read by any
    later pair with a value.  An earlier pair with the same key leaves no
    trace in the map, so nothing that reads the map can report it. *)
Theorem parseMapping_last_wins (node : Node) :
  (yaml.Kind node ≠ yaml.MappingNode → PodFields.parseMapping node = ∅)
  ∧ (yaml.Kind node = yaml.MappingNode →
     ∀ key value,
       PodFields.parseMapping node !! key = Some value ↔
       ∃ (i : nat) k,
         yaml.Content node !! (2 * i)%nat = Some k ∧ yaml.Value k = key
         ∧ yaml.Content node !! (2 * i + 1)%nat = Some value
         ∧ ∀ (j : nat) k', (i < j)%nat →
             yaml.Content node !! (2 * j)%nat = Some k' →
             is_Some (yaml.Content node !! (2 * j + 1)%nat) →
             yaml.Value k' ≠ key)
  ∧ (∀ pre k v post (i : nat) k' v',
       yaml.Content node = pre ++ k :: v :: post →
       Nat.even (length pre) = true →
       post !! (2 * i)%nat = Some k' → post !! (2 * i + 1)%nat = Some v' →
       yaml.Value k' = yaml.Value k →
       PodFields.parseMapping node
       = PodFields.parseMapping
           (yaml.mkNode (yaml.Kind node) (yaml.Value node) (yaml.Line node)
              (pre ++ post))).
Proof.
  split; [|split].
  - intros Hk. unfold PodFields.parseMapping, kindIs.
    by rewrite bool_decide_eq_false_2.
  - intros Hk key value. rewrite parseMapping_lookup by done.
    apply lastValue_Some.
  - intros pre k v post i k' v' Hc He H1 H2 H3.
    destruct (decide (yaml.Kind node = yaml.MappingNode)) as [Hk|Hk].
    + apply map_eq. intros key. rewrite !parseMapping_lookup by done.
      rewrite Hc. simpl. rewrite !lastValue_app by done.
      cbn [lastValue].
      destruct (lastValue key post) as [later|] eqn:El; [done|].
      destruct (String.eqb_spec (yaml.Value k) key) as [E|Hne]; [|done].
      destruct (lastValue_later key post i k' v' H1 H2) as [later El'];
        congruence.
    + unfold PodFields.parseMapping, kindIs. simpl.
      by rewrite !bool_decide_eq_false_2.
Qed.

Lemma parseMapping_last_wins_witness :
  PodFields.parseMapping
    (mapping 1 [scalar 1 "name"; scalar 1 "a"; scalar 2 "name"; scalar 2 "b"])
    !! "name"%string = Some (scalar 2 "b")
  ∧ PodFields.parseMapping (scalar 1 "name") = ∅.
Proof.
  split.
  - apply (proj1 (proj2 (parseMapping_last_wins
             (mapping 1 [scalar 1 "name"; scalar 1 "a";
                         scalar 2 "name"; scalar 2 "b"]))) eq_refl).
    exists 1%nat, (scalar 2 "name"). repeat split.
    intros [|[|j]] k' Hj; [lia|lia|]. intros H%lookup_lt_Some. simpl in H. lia.
  - apply (proj1 (parseMapping_last_wins (scalar 1 "name"))).
    intros H. discriminate H.
Defined.

(** ** The format of a container name *)

(** C5, as the claim states it, fails for [isValidSnakeCase]: a name with a
    digit does not match [^[a-z]+(_[a-z]+)*$], yet the check accepts it and
    [validatePod] reports nothing for the manifest. *)
Lemma isValidSnakeCase_accepts_digit :
  MatchString snakeCaseRegex "web1" = false
  ∧ PodFields.isValidSnakeCase "web1" = true
  ∧ PodFields.run (podWithContainer "web1") "pod.yaml" = [].
Proof. done. Qed.

(** C5, amended.  For a scalar name that is not empty,
    [validateContainerName] of the two [Validator]s goes on to the test of
    uniqueness exactly when the name is an identifier, which is when it
    matches [^[a-z]+(_[a-z]+)*$], and otherwise reports "container name has
    invalid format" at the line of the name and nothing else.
    [isValidSnakeCase] of [validatePod] instead accepts every name that is
    not empty and made of lowercase letters, digits and underscores. *)
Theorem container_name_format (node : Node) (names : gmap string bool) (fn : string) :
  yaml.Kind node = yaml.ScalarNode →
  yaml.Value node ≠ ""%string →
  (MatchString snakeCaseRegex (yaml.Value node) = true
   ↔ isIdentifier (list_ascii_of_string (yaml.Value node)))
  ∧ (isIdentifier (list_ascii_of_string (yaml.Value node)) →
     ∃ names' es,
       out (validateContainerName node names) fn = Some (names', es)
       ∧ errorLine fn (yaml.Line node)
           ("container name has invalid format '" +:+ yaml.Value node +:+ "'") ∉ es)
  ∧ (¬ isIdentifier (list_ascii_of_string (yaml.Value node)) →
     out (validateContainerName node names) fn
     = Some (names,
             [errorLine fn (yaml.Line node)
                ("container name has invalid format '" +:+ yaml.Value node +:+ "'")]))
  ∧ (∀ s, PodFields.isValidSnakeCase s = true
          ↔ s ≠ ""%string
            ∧ Forall (λ c, lower c = true ∨ digit c = true ∨ c = "_"%char)
                (list_ascii_of_string s)).
Proof.
  intros Hk Hv.
  assert (out (validateContainerName node names) fn
          = if MatchString snakeCaseRegex (yaml.Value node) then
              if default false (names !! yaml.Value node) then
                Some (names, [errorLine fn (yaml.Line node)
                  ("container name '" +:+ yaml.Value node +:+ "' is not unique")])
              else Some (<[yaml.Value node := true]> names, [])
            else Some (names, [errorLine fn (yaml.Line node)
                  ("container name has invalid format '" +:+ yaml.Value node +:+ "'")]))
    as Hout.
  { unfold validateContainerName, kindIs.
    rewrite bool_decide_eq_true_2 by done. simpl.
    destruct (String.eqb_spec (yaml.Value node) "") as [?|_]; [done|].
    destruct (MatchString snakeCaseRegex (yaml.Value node)); simpl; [|done].
    by destruct (default false (names !! yaml.Value node)). }
  split; [apply snakeCaseRegex_isIdentifier|].
  split; [|split; [|apply isValidSnakeCase_spec]].
  - intros Hid. apply snakeCaseRegex_isIdentifier in Hid.
    rewrite Hout, Hid.
    destruct (default false (names !! yaml.Value node)); eexists _, _; (split; [done|]).
    + intros H%list_elem_of_singleton%errorLine_msg_inj. simpl in H. discriminate H.
    + apply not_elem_of_nil.
  - intros Hid. rewrite Hout.
    destruct (MatchString snakeCaseRegex (yaml.Value node)) eqn:E; [|done].
    by apply snakeCaseRegex_isIdentifier in E.
Qed.

Lemma container_name_format_witness :
  (MatchString snakeCaseRegex "web_app" = true
   ↔ isIdentifier (list_ascii_of_string "web_app"))
  ∧ out (validateContainerName (scalar 7 "web__app") ∅) "pod.yaml"
    = Some (∅, ["pod.yaml:7 container name has invalid format 'web__app'"]).
Proof.
  split.
  - apply (container_name_format (scalar 7 "web_app") ∅ "pod.yaml" eq_refl).
    intros H. discriminate H.
  - assert (yaml.Value (scalar 7 "web__app") ≠ ""%string) as Hv
      by (intros H; discriminate H).
    apply (proj1 (proj2 (proj2
      (container_name_format (scalar 7 "web__app") ∅ "pod.yaml" eq_refl Hv)))).
    intros (_ & _ & _ & _ & Hd). apply (Hd 3%nat); reflexivity.
Defined.

(** ** The order of the checks of a container *)

Lemma out_unit {A} (m : M unit) (a : A) fn :
  framed m →
  out (m ;; ret a) fn = es ← stderr m fn; Some (a, es).
Proof.
  intros Hm. rewrite out_bind by (done || intros; apply framed_ret).
  rewrite stderr_out. destruct (out m fn) as [[[] es]|]; simpl; [|done].
  by rewrite app_nil_r.
Qed.

Lemma validateContainer_scan_out key value vars fn :
  out (Document.validateContainer_scan key value vars) fn
  = es ← inlineStep fn key value; Some (assignVars key value vars, es).
Proof.
  unfold Document.validateContainer_scan, inlineStep, assignVars.
  destruct vars as [n i r]; simpl.
  destruct (String.eqb_spec (yaml.Value key) "name") as [E|_];
    [by rewrite ?E|].
  destruct (String.eqb_spec (yaml.Value key) "image") as [E|_];
    [by rewrite ?E|].
  destruct (String.eqb_spec (yaml.Value key) "resources") as [E|_];
    [by rewrite ?E|].
  destruct (String.eqb_spec (yaml.Value key) "ports") as [E|_].
  { by rewrite out_unit by auto with framed. }
  destruct (String.eqb_spec (yaml.Value key) "readinessProbe") as [E|_].
  { by rewrite out_unit by auto with framed. }
  destruct (String.eqb_spec (yaml.Value key) "livenessProbe") as [E|_].
  { by rewrite out_unit by auto with framed. }
  done.
Qed.

Lemma validateContainer_scan_loop_out content vars fn :
  out (forPairs Document.validateContainer_scan content vars) fn
  = es ← inlineLines fn content;
    Some ({| Document.nameNode :=
               orElse (lastValue "name" content) (Document.nameNode vars);
             Document.imageNode :=
               orElse (lastValue "image" content) (Document.imageNode vars);
             Document.resourcesNode :=
               orElse (lastValue "resources" content) (Document.resourcesNode vars) |},
          es).
Proof.
  revert vars.
  induction content as [|x|k v rest IH] using pairs_ind; intros vars.
  - by destruct vars.
  - done.
  - cbn [forPairs inlineLines lastValue].
    rewrite out_bind by (intros; apply framed_forPairs || idtac; auto with framed).
    rewrite validateContainer_scan_out.
    destruct (inlineStep fn k v) as [es|]; simpl; [|done].
    rewrite IH. destruct (inlineLines fn rest) as [es'|]; simpl; [|done].
    do 2 f_equal.
    destruct (lastValue "name" rest), (lastValue "image" rest),
      (lastValue "resources" rest); simpl;
      destruct (yaml.Value k == "name"), (yaml.Value k == "image"),
        (yaml.Value k == "resources"); done.
Qed.

Lemma orElse_None {A} (o : option A) : orElse o None = o.
Proof. by destruct o. Qed.

Lemma out_seq {B} (m : M unit) (k : M B) fn :
  framed m → framed k →
  out (m ;; k) fn
  = es ← stderr m fn; r ← out k fn; Some (r.1, es ++ r.2).
Proof.
  intros Hm Hk. rewrite out_bind by done. rewrite stderr_out.
  destruct (out m fn) as [[[] es]|]; simpl; [|done].
  by destruct (out k fn) as [[b es']|].
Qed.

Lemma stderr_required (validate : Node → M unit) fn what field :
  stderr (match field with
          | None => Errorf 0 (what +:+ " is required")
          | Some node => validate node
          end) fn
  = requiredLines fn what validate field.
Proof. by destruct field. Qed.

Lemma stderr_optional (validate : Node → M unit) fn field :
  stderr (match field with
          | Some node => validate node
          | None => ret tt
          end) fn
  = optionalLines fn validate field.
Proof. by destruct field. Qed.

Lemma out_name fn names field :
  out (match field with
       | None => Errorf 0 "container name is required" ;; ret names
       | Some node => validateContainerName node names
       end) fn
  = nameLines fn names field.
Proof. by destruct field. Qed.

Lemma Document_validateContainer_out node names fn :
  out (Document.validateContainer node names) fn
  = inl ← inlineLines fn (yaml.Content node);
    nm ← nameLines fn names (lastValue "name" (yaml.Content node));
    im ← requiredLines fn "container image" validateImage
            (lastValue "image" (yaml.Content node));
    rs ← requiredLines fn "container resources" Document.validateResources
            (lastValue "resources" (yaml.Content node));
    Some (nm.1, inl ++ nm.2 ++ im ++ rs).
Proof.
  unfold Document.validateContainer.
  rewrite out_bind by framed_auto.
  rewrite validateContainer_scan_loop_out. simpl.
  destruct (inlineLines fn (yaml.Content node)) as [inl|]; simpl; [|done].
  rewrite !orElse_None.
  rewrite out_bind by framed_auto. rewrite out_name.
  destruct (nameLines fn names _) as [[names' nm]|]; simpl; [|done].
  rewrite out_seq by framed_auto.
  rewrite (stderr_required validateImage fn "container image").
  destruct (requiredLines fn "container image" _ _) as [im|]; simpl; [|done].
  rewrite out_seq by framed_auto.
  rewrite (stderr_required Document.validateResources fn "container resources").
  destruct (requiredLines fn "container resources" _ _) as [rs|]; simpl; [|done].
  by rewrite app_nil_r.
Qed.

Lemma collectFields_loop_out content (fields : gmap string Node) fn :
  out (forPairs (λ key value fields, ret (<[yaml.Value key := value]> fields))
         content fields) fn
  = if Nat.even (length content)
    then Some (PodFields.parseMapping_loop content fields, [])
    else None.
Proof.
  revert fields.
  induction content as [|x|k v rest IH] using pairs_ind; intros fields; [done..|].
  cbn [forPairs PodFields.parseMapping_loop length Nat.even].
  rewrite out_bind by framed_auto. rewrite out_ret, IH.
  by destruct (Nat.even (length rest)).
Qed.

(** The map [fields] of [TopLevel]: none for a key without a value, and
    otherwise each key with the value of its last pair. *)
Lemma collectFields_out content fn :
  out (TopLevel.collectFields content) fn
  = if Nat.even (length content)
    then Some (PodFields.parseMapping_loop content ∅, [])
    else None.
Proof. apply collectFields_loop_out. Qed.

Lemma collectFields_lookup content key :
  PodFields.parseMapping_loop content ∅ !! key = lastValue key content.
Proof. rewrite parseMapping_loop_lookup. by destruct (lastValue key content). Qed.

Lemma TopLevel_validateContainers_body_out node names fn :
  kindIs yaml.MappingNode node = true →
  out (TopLevel.validateContainers_body node names) fn
  = if Nat.even (length (yaml.Content node)) then
      nm ← nameLines fn names (lastValue "name" (yaml.Content node));
      im ← requiredLines fn "container image" validateImage
              (lastValue "image" (yaml.Content node));
      rs ← requiredLines fn "container resources" TopLevel.validateResources
              (lastValue "resources" (yaml.Content node));
      ps ← optionalLines fn TopLevel.validatePorts
              (lastValue "ports" (yaml.Content node));
      rp ← optionalLines fn TopLevel.validateProbe
              (lastValue "readinessProbe" (yaml.Content node));
      lp ← optionalLines fn TopLevel.validateProbe
              (lastValue "livenessProbe" (yaml.Content node));
      Some (nm.1, nm.2 ++ im ++ rs ++ ps ++ rp ++ lp)
    else None.
Proof.
  intros Hk. unfold TopLevel.validateContainers_body. rewrite Hk. simpl.
  rewrite out_bind by framed_auto. rewrite collectFields_out.
  destruct (Nat.even (length (yaml.Content node))); simpl; [|done].
  rewrite !collectFields_lookup.
  rewrite out_bind by framed_auto. rewrite out_name.
  destruct (nameLines fn names _) as [[names' nm]|]; simpl; [|done].
  rewrite out_seq by framed_auto.
  rewrite (stderr_required validateImage fn "container image").
  destruct (requiredLines fn "container image" _ _) as [im|]; simpl; [|done].
  rewrite out_seq by framed_auto.
  rewrite (stderr_required TopLevel.validateResources fn "container resources").
  destruct (requiredLines fn "container resources" _ _) as [rs|]; simpl; [|done].
  rewrite out_seq by framed_auto. rewrite stderr_optional.
  destruct (optionalLines fn TopLevel.validatePorts _) as [ps|]; simpl; [|done].
  rewrite out_seq by framed_auto. rewrite stderr_optional.
  destruct (optionalLines fn TopLevel.validateProbe
              (lastValue "readinessProbe" _)) as [rp|]; simpl; [|done].
  rewrite out_seq by framed_auto. rewrite stderr_optional.
  destruct (optionalLines fn TopLevel.validateProbe
              (lastValue "livenessProbe" _)) as [lp|]; simpl; [|done].
  by rewrite app_nil_r.
Qed.

(** C3, as the claim states it, fails for [validateContainers] of the
    second document of src/main.go: the three required fields are reported
    before the ports, and the ports before the probe that precedes them in
    the mapping.  part_000 reports the same container as the claim says. *)
Lemma validateContainers_checks_ports_last :
  stderr (TopLevel.validateContainers_body probeThenPorts ∅) "pod.yaml"
  = Some ["pod.yaml container name is required";
          "pod.yaml container image is required";
          "pod.yaml container resources is required";
          "pod.yaml:10 containerPort value out of range";
          "pod.yaml httpGet is required"]
  ∧ stderr (Document.validateContainer probeThenPorts ∅) "pod.yaml"
    = Some ["pod.yaml httpGet is required";
            "pod.yaml:10 containerPort value out of range";
            "pod.yaml container name is required";
            "pod.yaml container image is required";
            "pod.yaml container resources is required"].
Proof. done. Qed.

(** C3, amended.  For a container mapping, [validateContainer] of part_000
    reports first the lines of [ports], [readinessProbe] and [livenessProbe]
    in the order of these keys in the mapping ([inlineLines]), and after
    them the lines of the name, of the image and of the resources, in this
    order, each checked on the last value of its key or reported as
    required, wherever the three keys stand.  [validateContainers] of the
    second document of src/main.go looks all six fields up by key and
    reports name, image, resources, ports, readiness probe and liveness
    probe in this fixed order.  [None] on either side is a panic. *)
Theorem container_checks_order (node : Node) (names : gmap string bool) (fn : string) :
  yaml.Kind node = yaml.MappingNode →
  out (Document.validateContainer node names) fn
  = (inl ← inlineLines fn (yaml.Content node);
     nm ← nameLines fn names (lastValue "name" (yaml.Content node));
     im ← requiredLines fn "container image" validateImage
             (lastValue "image" (yaml.Content node));
     rs ← requiredLines fn "container resources" Document.validateResources
             (lastValue "resources" (yaml.Content node));
     Some (nm.1, inl ++ nm.2 ++ im ++ rs))
  ∧ out (TopLevel.validateContainers_body node names) fn
    = (if Nat.even (length (yaml.Content node)) then
         nm ← nameLines fn names (lastValue "name" (yaml.Content node));
         im ← requiredLines fn "container image" validateImage
                 (lastValue "image" (yaml.Content node));
         rs ← requiredLines fn "container resources" TopLevel.validateResources
                 (lastValue "resources" (yaml.Content node));
         ps ← optionalLines fn TopLevel.validatePorts
                 (lastValue "ports" (yaml.Content node));
         rp ← optionalLines fn TopLevel.validateProbe
                 (lastValue "readinessProbe" (yaml.Content node));
         lp ← optionalLines fn TopLevel.validateProbe
                 (lastValue "livenessProbe" (yaml.Content node));
         Some (nm.1, nm.2 ++ im ++ rs ++ ps ++ rp ++ lp)
       else None).
Proof.
  intros Hk. split.
  - apply Document_validateContainer_out.
  - apply TopLevel_validateContainers_body_out. by apply bool_decide_eq_true.
Qed.

Lemma container_checks_order_witness :
  out (Document.validateContainer probeThenPorts ∅) "pod.yaml"
  = Some (∅, ["pod.yaml httpGet is required";
              "pod.yaml:10 containerPort value out of range"]
             ++ ["pod.yaml container name is required"]
             ++ ["pod.yaml container image is required"]
             ++ ["pod.yaml container resources is required"]).
Proof.
  exact (eq_trans
    (proj1 (container_checks_order probeThenPorts ∅ "pod.yaml" eq_refl)) eq_refl).
Defined.

(** ** Two containers of one name *)

Lemma lastValue_elem key content n : lastValue key content = Some n → n ∈ content.
Proof.
  induction content as [|x|k v rest IH] using pairs_ind; cbn [lastValue]; [done..|].
  destruct (lastValue key rest) as [later|].
  - intros [= <-]. set_solver.
  - destruct (yaml.Value k == key); [|done]. intros [= <-]. set_solver.
Qed.

Lemma inlineStep_lines fn key value :
  wellFormed value = true →
  ∃ es, inlineStep fn key value = Some es ∧ Forall (lineWith otherMessage fn) es.
Proof.
  intros Hw. unfold inlineStep.
  destruct (yaml.Value key == "ports").
  { destruct (returns_stderr _ _ fn (Document_validatePorts_returns value Hw))
      as [es E].
    exists es. split; [done|]. eapply logs_stderr; [|done]. auto with logs. }
  destruct (_ || _).
  { destruct (returns_stderr _ _ fn (Document_validateProbe_returns value Hw))
      as [es E].
    exists es. split; [done|]. eapply logs_stderr; [|done]. auto with logs. }
  by exists [].
Qed.

Lemma inlineLines_lines fn content :
  Nat.even (length content) = true →
  (∀ x, x ∈ content → wellFormed x = true) →
  ∃ es, inlineLines fn content = Some es ∧ Forall (lineWith otherMessage fn) es.
Proof.
  induction content as [|x|k v rest IH] using pairs_ind; intros He Hw.
  - by exists [].
  - done.
  - cbn [inlineLines].
    destruct (inlineStep_lines fn k v) as (es & -> & H1); [apply Hw; set_solver|].
    destruct IH as (es' & -> & H2); [done|intros; apply Hw; set_solver|].
    exists (es ++ es'). split; [done|]. by apply Forall_app.
Qed.

Lemma lineWith_required (P : string → Prop) fn what :
  P (what +:+ " is required") →
  lineWith P fn (fn +:+ " " +:+ what +:+ " is required").
Proof. intros HP. by exists 0, (what +:+ " is required"). Qed.

Lemma imageLines_lines fn field :
  ∃ es, requiredLines fn "container image" validateImage field = Some es
        ∧ Forall (lineWith otherMessage fn) es.
Proof.
  destruct field as [n|]; simpl.
  - destruct (returns_stderr _ _ fn (validateImage_returns n)) as [es E].
    exists es. split; [done|]. eapply logs_stderr; [|done]. auto with logs.
  - eexists; split; [done|]. constructor; [|done].
    by apply (lineWith_required otherMessage fn "container image").
Qed.

Lemma resourcesLines_lines fn field :
  (∀ n, field = Some n → wellFormed n = true) →
  ∃ es, requiredLines fn "container resources" Document.validateResources field
        = Some es
        ∧ Forall (lineWith otherMessage fn) es.
Proof.
  intros Hw. destruct field as [n|]; simpl.
  - destruct (returns_stderr _ _ fn
                (Document_validateResources_returns n (Hw n eq_refl))) as [es E].
    exists es. split; [done|]. eapply logs_stderr; [|done]. auto with logs.
  - eexists; split; [done|]. constructor; [|done].
    by apply (lineWith_required otherMessage fn "container resources").
Qed.

(** The name [web] at its first and at a later occurrence. *)
Lemma validateContainerName_web n names fn :
  yaml.Kind n = yaml.ScalarNode → yaml.Value n = "web"%string →
  out (validateContainerName n names) fn
  = if default false (names !! "web"%string) then
      Some (names, [errorLine fn (yaml.Line n) (uniquenessMessage "web")])
    else Some (<["web"%string := true]> names, []).
Proof.
  intros Hk Hv. unfold validateContainerName, kindIs.
  rewrite bool_decide_eq_true_2 by done. rewrite Hv. simpl.
  by destruct (default false (names !! "web"%string)).
Qed.

(** One container of part_000 whose name is the scalar [web]: the lines
    before and after the check of the name carry other messages, and the
    check of the name adds [web] to the names or reports it. *)
Lemma Document_validateContainer_web c n names fn :
  yaml.Kind c = yaml.MappingNode → wellFormed c = true →
  lastValue "name" (yaml.Content c) = Some n →
  yaml.Kind n = yaml.ScalarNode → yaml.Value n = "web"%string →
  ∃ pre post,
    Forall (lineWith otherMessage fn) pre ∧ Forall (lineWith otherMessage fn) post
    ∧ out (Document.validateContainer c names) fn
      = if default false (names !! "web"%string) then
          Some (names,
                pre ++ errorLine fn (yaml.Line n) (uniquenessMessage "web") :: post)
        else Some (<["web"%string := true]> names, pre ++ post).
Proof.
  intros Hk Hw Hn Hs Hv. rewrite Document_validateContainer_out, Hn. simpl.
  destruct (inlineLines_lines fn (yaml.Content c)) as (inl & -> & Hinl).
  { apply wellFormed_mapping; [done|]. by apply bool_decide_eq_true. }
  { intros x. by apply wellFormed_content. }
  destruct (imageLines_lines fn (lastValue "image" (yaml.Content c)))
    as (im & Eim & Him).
  destruct (resourcesLines_lines fn (lastValue "resources" (yaml.Content c)))
    as (rs & Ers & Hrs).
  { intros r Hr%lastValue_elem. by apply (wellFormed_content c). }
  exists inl, (im ++ rs). split; [done|]. split; [by apply Forall_app|].
  simpl. rewrite validateContainerName_web by done.
  destruct (default false (names !! "web"%string)); simpl;
    rewrite Eim; simpl; rewrite Ers; done.
Qed.

(** *** [validatePod] *)

Lemma appendsOnly_id Q : appendsOnly Q (λ errors, errors).
Proof. intros errors. exists []. by rewrite app_nil_r. Qed.

Lemma appendsOnly_comp Q f g :
  appendsOnly Q f → appendsOnly Q g → appendsOnly Q (λ errors, g (f errors)).
Proof.
  intros Hf Hg errors. destruct (Hf errors) as (p & Hp & ->).
  destruct (Hg (errors ++ p)) as (q & Hq & ->).
  exists (p ++ q). split; [by apply Forall_app|by rewrite app_assoc].
Qed.

Lemma appendsOnly_fold {X} Q (f : X → list PodFields.ValidationError
                                  → list PodFields.ValidationError) xs :
  (∀ x, appendsOnly Q (f x)) →
  appendsOnly Q (λ errors, fold_left (λ e x, f x e) xs errors).
Proof.
  intros Hf. induction xs as [|x xs IH]; simpl; [apply appendsOnly_id|].
  apply (appendsOnly_comp Q (f x) _ (Hf x) IH).
Qed.

Ltac others_done :=
  first
    [ by (exists []; rewrite app_nil_r)
    | eexists; split; [|rewrite <- ?app_assoc; reflexivity];
      repeat first
        [ assumption | apply Forall_app_2 | apply Forall_nil_2
        | apply Forall_cons_2;
        [first [ unfold aboutDuplicate; simpl; discriminate
               | unfold notRequiresAPIVersion; simpl; discriminate ]|] ] ].

Ltac others := intros errors; repeat case_match; others_done.

Lemma PodFields_validateImage_others image line fp :
  appendsOthers (PodFields.validateImage image line fp).
Proof. unfold PodFields.validateImage. others. Qed.

Lemma PodFields_validatePorts_body_others node fp :
  appendsOthers (PodFields.validatePorts_body node fp).
Proof. unfold PodFields.validatePorts_body. others. Qed.

Lemma PodFields_validatePorts_others node fp :
  appendsOthers (PodFields.validatePorts node fp).
Proof.
  unfold PodFields.validatePorts.
  destruct (negb (kindIs yaml.SequenceNode node)); [apply appendsOnly_id|].
  apply (appendsOnly_fold _ (λ x, PodFields.validatePorts_body x fp)).
  intros. apply PodFields_validatePorts_body_others.
Qed.

Lemma PodFields_validateHTTPGetAction_others node probeName fp :
  probeName = "readinessProbe"%string ∨ probeName = "livenessProbe"%string →
  appendsOthers (PodFields.validateHTTPGetAction node probeName fp).
Proof.
  unfold PodFields.validateHTTPGetAction. intros [-> | ->]; others.
Qed.

Lemma PodFields_validateProbe_others node probeName fp :
  probeName = "readinessProbe"%string ∨ probeName = "livenessProbe"%string →
  appendsOthers (PodFields.validateProbe node probeName fp).
Proof.
  intros Hp. unfold PodFields.validateProbe.
  destruct (negb (kindIs yaml.MappingNode node)); [apply appendsOnly_id|].
  destruct (PodFields.parseMapping node !! "httpGet"%string).
  - by apply PodFields_validateHTTPGetAction_others.
  - destruct Hp as [-> | ->]; others.
Qed.

Lemma validateResourceSpec_others node specName fp :
  appendsOthers (PodFields.validateResourceSpec node specName fp).
Proof. unfold PodFields.validateResourceSpec. others. Qed.

Lemma PodFields_validateResources_others node fp :
  appendsOthers (PodFields.validateResources node fp).
Proof.
  unfold PodFields.validateResources. intros errors.
  destruct (negb (kindIs yaml.MappingNode node)); [others_done|].
  destruct (PodFields.parseMapping node !! "requests"%string) as [r|],
    (PodFields.parseMapping node !! "limits"%string) as [l|];
    repeat match goal with
      | |- context [PodFields.validateResourceSpec ?n ?s ?f ?e] =>
          destruct (validateResourceSpec_others n s f e) as (? & ? & ->)
      end;
    others_done.
Qed.

Ltac others_calls :=
  repeat match goal with
    | |- context [PodFields.validateImage ?a ?b ?c ?e] =>
        destruct (PodFields_validateImage_others a b c e) as (? & ? & ->)
    | |- context [PodFields.validatePorts ?n ?f ?e] =>
        destruct (PodFields_validatePorts_others n f e) as (? & ? & ->)
    | |- context [PodFields.validateProbe ?n "readinessProbe" ?f ?e] =>
        destruct (PodFields_validateProbe_others n "readinessProbe" f
                    (or_introl eq_refl) e) as (? & ? & ->)
    | |- context [PodFields.validateProbe ?n "livenessProbe" ?f ?e] =>
        destruct (PodFields_validateProbe_others n "livenessProbe" f
                    (or_intror eq_refl) e) as (? & ? & ->)
    | |- context [PodFields.validateResources ?n ?f ?e] =>
        destruct (PodFields_validateResources_others n f e) as (? & ? & ->)
    end.

(** One round of the loop of [validateContainers] of [validatePod], for a
    container whose name reads [web]. *)
Lemma PodFields_validateContainers_body_web c n fp names errors :
  yaml.Kind c = yaml.MappingNode →
  lastValue "name" (yaml.Content c) = Some n → yaml.Value n = "web"%string →
  ∃ post,
    Forall (λ e, ¬ aboutDuplicate e) post
    ∧ PodFields.validateContainers_body c fp (names, errors)
      = (<["web"%string := true]> names,
         errors
         ++ (if default false (names !! "web"%string)
             then [duplicateRecord fp (yaml.Line n) "web"] else [])
         ++ post).
Proof.
  intros Hk Hn Hv. unfold PodFields.validateContainers_body, kindIs.
  rewrite bool_decide_eq_true_2 by done. cbn [negb].
  assert (PodFields.parseMapping c !! "name"%string = Some n) as Hl
    by (by rewrite parseMapping_lookup).
  unfold PodFields.hasField, PodFields.getStringValue, PodFields.getFieldLine.
  rewrite Hl, Hv. simpl.
  change (PodFields.isValidSnakeCase "web") with true. cbn [negb].
  destruct (default false (names !! "web"%string));
    destruct (PodFields.parseMapping c !! "image"%string),
      (PodFields.parseMapping c !! "ports"%string),
      (PodFields.parseMapping c !! "readinessProbe"%string),
      (PodFields.parseMapping c !! "livenessProbe"%string),
      (PodFields.parseMapping c !! "resources"%string);
    simpl; others_calls;
    (eexists; split; [|f_equal; rewrite <- ?app_assoc; simpl; reflexivity]);
    repeat first
      [ assumption | apply Forall_app_2 | apply Forall_nil_2
      | apply Forall_cons_2; [unfold aboutDuplicate; simpl; discriminate|] ].
Qed.

Lemma filter_others (post : list PodFields.ValidationError) :
  Forall (λ e, ¬ aboutDuplicate e) post → filter aboutDuplicate post = [].
Proof.
  induction 1 as [|e post He _ IH]; [done|].
  by rewrite filter_cons_False.
Qed.

(** [validatePod]: of two containers named [web] the second alone is
    reported, at the line of its name, in the words of this validator. *)
Lemma PodFields_validateContainers_web node c1 c2 n1 n2 fp :
  yaml.Kind node = yaml.SequenceNode → yaml.Content node = [c1; c2] →
  yaml.Kind c1 = yaml.MappingNode → yaml.Kind c2 = yaml.MappingNode →
  lastValue "name" (yaml.Content c1) = Some n1 →
  lastValue "name" (yaml.Content c2) = Some n2 →
  yaml.Value n1 = "web"%string → yaml.Value n2 = "web"%string →
  filter aboutDuplicate (PodFields.validateContainers node fp [])
  = [duplicateRecord fp (yaml.Line n2) "web"].
Proof.
  intros Hk Hc Hk1 Hk2 Hn1 Hn2 Hv1 Hv2.
  unfold PodFields.validateContainers, kindIs.
  rewrite bool_decide_eq_true_2 by done. rewrite Hc. cbn [negb fold_left].
  destruct (PodFields_validateContainers_body_web c1 n1 fp ∅ [] Hk1 Hn1 Hv1)
    as (post1 & H1 & ->).
  destruct (PodFields_validateContainers_body_web c2 n2 fp
              (<["web"%string := true]> ∅) ([] ++ [] ++ post1) Hk2 Hn2 Hv2)
    as (post2 & H2 & E2).
  rewrite lookup_empty in *. cbn [default] in *. rewrite E2.
  rewrite lookup_insert_eq. cbn [default snd].
  rewrite !filter_app, !filter_others by done. simpl.
  by rewrite filter_others.
Qed.

(** C4, as the claim states it, fails for [validatePod]: the one line for
    the second [web] reads otherwise than the claim says. *)
Lemma validatePod_words_duplicate_otherwise :
  map PodFields.String_ (PodFields.validateContainers twoWebContainers "pod.yaml" [])
  = ["pod.yaml:10 containers.name must be unique, 'web' is duplicated"]
  ∧ "pod.yaml:10 container name 'web' is not unique"%string
    ∉ map PodFields.String_
        (PodFields.validateContainers twoWebContainers "pod.yaml" []).
Proof.
  split; [done|]. intros H%list_elem_of_In. simpl in H.
  destruct H as [H|[]]. discriminate H.
Qed.

(** C4, amended.  For a sequence of exactly two container mappings whose
    names both are the scalar [web], [validateContainers] of part_000
    returns, and among its lines exactly one is a line of uniqueness: it
    reads "container name 'web' is not unique" and stands at the line of
    the name of the second container; no line before it, so none for the
    first container, and no line after it is one.  [validatePod] reports the
    second container once as well, at the same line, but in the words
    "containers.name must be unique, 'web' is duplicated". *)
Theorem duplicate_container_name (node c1 c2 n1 n2 : Node) (fn : string) :
  yaml.Kind node = yaml.SequenceNode → yaml.Content node = [c1; c2] →
  yaml.Kind c1 = yaml.MappingNode → yaml.Kind c2 = yaml.MappingNode →
  lastValue "name" (yaml.Content c1) = Some n1 →
  lastValue "name" (yaml.Content c2) = Some n2 →
  yaml.Kind n1 = yaml.ScalarNode → yaml.Kind n2 = yaml.ScalarNode →
  yaml.Value n1 = "web"%string → yaml.Value n2 = "web"%string →
  wellFormed node = true →
  (∃ pre post,
     stderr (Document.validateContainers node) fn
     = Some (pre ++ errorLine fn (yaml.Line n2) "container name 'web' is not unique"
                 :: post)
     ∧ Forall (λ s, ¬ uniquenessLine fn s) pre
     ∧ Forall (λ s, ¬ uniquenessLine fn s) post)
  ∧ filter aboutDuplicate (PodFields.validateContainers node fn [])
    = [duplicateRecord fn (yaml.Line n2) "web"].
Proof.
  intros Hk Hc Hk1 Hk2 Hn1 Hn2 Hs1 Hs2 Hv1 Hv2 Hw.
  split; [|by apply (PodFields_validateContainers_web node c1 c2 n1 n2)].
  assert (wellFormed c1 = true ∧ wellFormed c2 = true) as [Hw1 Hw2].
  { split; apply (wellFormed_content node); try done; rewrite Hc; set_solver. }
  destruct (Document_validateContainer_web c1 n1 ∅ fn Hk1 Hw1 Hn1 Hs1 Hv1)
    as (pre1 & post1 & Hpre1 & Hpost1 & E1).
  destruct (Document_validateContainer_web c2 n2 (<["web"%string := true]> ∅) fn
              Hk2 Hw2 Hn2 Hs2 Hv2)
    as (pre2 & post2 & Hpre2 & Hpost2 & E2).
  rewrite lookup_empty in E1. rewrite lookup_insert_eq in E2. simpl in E1, E2.
  assert (∀ l, Forall (lineWith otherMessage fn) l
               → Forall (λ s, ¬ uniquenessLine fn s) l) as Hother.
  { intros l H. eapply Forall_impl; [done|]. apply otherMessage_not_uniqueness. }
  exists (pre1 ++ post1 ++ pre2), post2.
  split; [|split; [|by apply Hother]].
  - rewrite stderr_out. unfold Document.validateContainers, kindIs.
    rewrite !bool_decide_eq_true_2 by done. rewrite Hc. cbn [negb forRange].
    unfold kindIs. rewrite !bool_decide_eq_true_2 by done. cbn [negb].
    rewrite out_bind by framed_auto.
    rewrite out_bind by framed_auto. rewrite E1.
    rewrite out_bind by framed_auto. rewrite E2.
    simpl. rewrite !app_nil_r. by rewrite <- !app_assoc.
  - apply Hother. repeat (apply Forall_app; split); done.
Qed.

Lemma duplicate_container_name_witness :
  (∃ pre post,
     stderr (Document.validateContainers twoWebContainers) "pod.yaml"
     = Some (pre ++ "pod.yaml:10 container name 'web' is not unique"%string :: post)
     ∧ Forall (λ s, ¬ uniquenessLine "pod.yaml" s) pre
     ∧ Forall (λ s, ¬ uniquenessLine "pod.yaml" s) post)
  ∧ filter aboutDuplicate (PodFields.validateContainers twoWebContainers "pod.yaml" [])
    = [duplicateRecord "pod.yaml" 10 "web"].
Proof.
  exact (duplicate_container_name twoWebContainers
           (mapping 7 [
              scalar 7 "name"; scalar 7 "web";
              scalar 8 "image"; scalar 8 "registry.bigbrother.io/app:v1";
              scalar 9 "resources"; mapping 9 []])
           (mapping 10 [
              scalar 10 "name"; scalar 10 "web";
              scalar 11 "image"; scalar 11 "registry.bigbrother.io/app:v2";
              scalar 12 "resources"; mapping 12 []])
           (scalar 7 "web") (scalar 10 "web") "pod.yaml"
           eq_refl eq_refl eq_refl eq_refl eq_refl eq_refl eq_refl eq_refl
           eq_refl eq_refl eq_refl).
Defined.

(** ** Keys that are not recognized *)

Lemma collectFields_run content v :
  TopLevel.collectFields content v
  = if Nat.even (length content)
    then Some (PodFields.parseMapping_loop content ∅, v)
    else None.
Proof.
  unfold TopLevel.collectFields. generalize (∅ : gmap string Node).
  induction content as [|x|k val rest IH] using pairs_ind; intros fields; [done..|].
  cbn [forPairs PodFields.parseMapping_loop length Nat.even].
  unfold bind, ret. apply IH.
Qed.

Lemma lastValue_drop k pre key value post :
  Nat.even (length pre) = true → yaml.Value key ≠ k →
  lastValue k (pre ++ key :: value :: post) = lastValue k (pre ++ post).
Proof.
  intros He Hne. rewrite !lastValue_app by done. cbn [lastValue].
  destruct (lastValue k post); [done|].
  by destruct (String.eqb_spec (yaml.Value key) k).
Qed.

Lemma even_drop {X} (pre : list X) key value post :
  Nat.even (length (pre ++ key :: value :: post)) = Nat.even (length (pre ++ post)).
Proof. rewrite !length_app. simpl. by rewrite !Nat.even_add, !Nat.even_succ_succ. Qed.

(** The fields a function of [TopLevel] reads are the same with and without
    a pair it does not recognize. *)
Ltac same_fields H :=
  let kind := fresh "kind" in
  destruct H as [kind text line pre key value post He Hkey]; intros; simpl;
  unfold kindIs; simpl;
  try (destruct (bool_decide (kind = yaml.MappingNode)); simpl; [|done]);
  unfold bind; rewrite !collectFields_run, even_drop;
  destruct (Nat.even (length (pre ++ post))); [|done];
  rewrite !collectFields_lookup;
  rewrite !(lastValue_drop _ pre key value post) by (done || set_solver);
  done.

Lemma TopLevel_validateMetadata_drop n n' :
  dropsPair ["name"; "namespace"; "labels"]%string n n' →
  ∀ v, TopLevel.validateMetadata n v = TopLevel.validateMetadata n' v.
Proof. intros H. unfold TopLevel.validateMetadata. same_fields H. Qed.

Lemma TopLevel_validateSpec_drop n n' :
  dropsPair ["os"; "containers"]%string n n' →
  ∀ v, TopLevel.validateSpec n v = TopLevel.validateSpec n' v.
Proof. intros H. unfold TopLevel.validateSpec. same_fields H. Qed.

Lemma TopLevel_validateContainers_body_drop n n' :
  dropsPair ["name"; "image"; "resources"; "ports"; "readinessProbe";
             "livenessProbe"]%string n n' →
  ∀ names v, TopLevel.validateContainers_body n names v
             = TopLevel.validateContainers_body n' names v.
Proof. intros H. unfold TopLevel.validateContainers_body. same_fields H. Qed.

Lemma TopLevel_validateResources_drop n n' :
  dropsPair ["requests"; "limits"]%string n n' →
  ∀ v, TopLevel.validateResources n v = TopLevel.validateResources n' v.
Proof. intros H. unfold TopLevel.validateResources. same_fields H. Qed.

Lemma TopLevel_validateProbe_drop n n' :
  dropsPair ["httpGet"]%string n n' →
  ∀ v, TopLevel.validateProbe n v = TopLevel.validateProbe n' v.
Proof. intros H. unfold TopLevel.validateProbe. same_fields H. Qed.

Lemma TopLevel_validateHTTPGetAction_drop n n' :
  dropsPair ["path"; "port"]%string n n' →
  ∀ v, TopLevel.validateHTTPGetAction n v = TopLevel.validateHTTPGetAction n' v.
Proof. intros H. unfold TopLevel.validateHTTPGetAction. same_fields H. Qed.

Lemma validateTopLevel_drop doc doc' :
  dropsPair ["apiVersion"; "kind"; "metadata"; "spec"]%string doc doc' →
  ∀ k t l rest v,
    TopLevel.validateTopLevel (yaml.mkNode k t l (doc :: rest)) v
    = TopLevel.validateTopLevel (yaml.mkNode k t l (doc' :: rest)) v.
Proof. intros H. unfold TopLevel.validateTopLevel. same_fields H. Qed.

Lemma forRange_same_at {S} (body : Node → S → M S) x x' before after :
  (∀ s v, body x s v = body x' s v) →
  ∀ s v, forRange body (before ++ x :: after) s v
         = forRange body (before ++ x' :: after) s v.
Proof.
  intros Hx. induction before as [|y before IH]; intros s v; simpl; unfold bind.
  - by rewrite Hx.
  - destruct (body y s v) as [[s' v']|]; [apply IH|done].
Qed.

Lemma TopLevel_validatePorts_drop port port' :
  dropsPair ["containerPort"; "protocol"]%string port port' →
  ∀ k t l before after v,
    TopLevel.validatePorts (yaml.mkNode k t l (before ++ port :: after)) v
    = TopLevel.validatePorts (yaml.mkNode k t l (before ++ port' :: after)) v.
Proof.
  intros H k t l before after v. unfold TopLevel.validatePorts.
  unfold kindIs at 1 3. simpl.
  destruct (bool_decide (k = yaml.SequenceNode)); simpl; [|done].
  apply forRange_same_at. clear v. intros s. revert s. same_fields H.
Qed.

Lemma forPairs_skip {S} (body : Node → Node → S → M S) pre key value post :
  Nat.even (length pre) = true →
  (∀ s v, body key value s v = Some (s, v)) →
  ∀ s v, forPairs body (pre ++ key :: value :: post) s v
         = forPairs body (pre ++ post) s v.
Proof.
  intros He Hskip.
  induction pre as [|x|k val rest IH] using pairs_ind; intros s v.
  - simpl. unfold bind. by rewrite Hskip.
  - done.
  - simpl. unfold bind. destruct (body k val s v) as [[s' v']|]; [|done].
    by apply IH.
Qed.

(** part_000: a key of a resource set that is neither [cpu] nor [memory] is
    passed over. *)
Lemma Document_validateResourceRequirements_drop n n' :
  dropsPair ["cpu"; "memory"]%string n n' →
  ∀ prefix v, Document.validateResourceRequirements n prefix v
              = Document.validateResourceRequirements n' prefix v.
Proof.
  intros [kind text line pre key value post He Hkey] prefix v.
  unfold Document.validateResourceRequirements, kindIs. simpl.
  destruct (bool_decide (kind = yaml.MappingNode)); simpl; [|done].
  apply forPairs_skip; [done|]. intros [] v'.
  destruct (String.eqb_spec (yaml.Value key) "cpu") as [E|_]; [set_solver|].
  destruct (String.eqb_spec (yaml.Value key) "memory") as [E|_]; [set_solver|].
  done.
Qed.

Lemma TopLevel_validateCPU_returns node prefix :
  returns (TopLevel.validateCPU node prefix) (λ _, True).
Proof. unfold TopLevel.validateCPU. returns_leaf. Qed.

(** The second document of src/main.go: every key of a resource set other
    than [cpu] and [memory] has its line. *)
Lemma TopLevel_resource_loop_lines content prefix fn :
  Nat.even (length content) = true →
  ∃ es,
    out (forPairs (λ key value _,
           if yaml.Value key == "cpu" then TopLevel.validateCPU value prefix
           else if yaml.Value key == "memory" then validateMemory value prefix
           else Errorf (yaml.Line key)
                  (prefix +:+ "." +:+ yaml.Value key
                   +:+ " has unsupported resource type")) content tt) fn
    = Some (tt, es)
    ∧ ∀ (i : nat) key,
        content !! (2 * i)%nat = Some key →
        yaml.Value key ≠ "cpu"%string → yaml.Value key ≠ "memory"%string →
        unsupportedLine fn prefix key ∈ es.
Proof.
  induction content as [|x|k val rest IH] using pairs_ind; intros He.
  - exists []. split; [done|]. intros i key H. by rewrite lookup_nil in H.
  - done.
  - destruct (IH He) as (es' & E' & Hin). cbn [forPairs].
    rewrite out_bind by framed_auto.
    assert (∃ es0,
      out (if yaml.Value k == "cpu" then TopLevel.validateCPU val prefix
           else if yaml.Value k == "memory" then validateMemory val prefix
           else Errorf (yaml.Line k)
                  (prefix +:+ "." +:+ yaml.Value k
                   +:+ " has unsupported resource type")) fn = Some (tt, es0)
      ∧ (yaml.Value k ≠ "cpu"%string → yaml.Value k ≠ "memory"%string →
         unsupportedLine fn prefix k ∈ es0)) as (es0 & -> & Hk).
    { destruct (String.eqb_spec (yaml.Value k) "cpu") as [E|_].
      { destruct (returns_out _ _ fn (TopLevel_validateCPU_returns val prefix))
          as ([] & es0 & -> & _). by exists es0. }
      destruct (String.eqb_spec (yaml.Value k) "memory") as [E|_].
      { destruct (returns_out _ _ fn (validateMemory_returns val prefix))
          as ([] & es0 & -> & _). by exists es0. }
      eexists. split; [done|]. intros _ _. apply list_elem_of_singleton. done. }
    rewrite E'. exists (es0 ++ es'). split; [done|].
    intros [|i] key.
    + intros [= <-] H1 H2. apply elem_of_app. left. by apply Hk.
    + rewrite pair_lookup_key. intros H H1 H2.
      apply elem_of_app. right. by apply (Hin i).
Qed.

(** C7, as the claim states it, fails for part_000 and for [validatePod]:
    a resource set with the key [gpu] gets no line. *)
Lemma validateResourceRequirements_ignores_gpu :
  stderr (Document.validateResourceRequirements gpuRequest "requests") "pod.yaml"
  = Some []
  ∧ PodFields.validateResourceSpec gpuRequest "requests" "pod.yaml" [] = []
  ∧ stderr (TopLevel.validateResourceRequirements gpuRequest "requests") "pod.yaml"
    = Some ["pod.yaml:11 requests.gpu has unsupported resource type"].
Proof. done. Qed.

(** C7, amended.  In the second document of src/main.go
    [validateResourceRequirements] reports every key of a resource set
    other than [cpu] and [memory] as "unsupported resource type", at the
    line of the key, while every other function that reads a mapping (top
    level, metadata, spec, container, resources, port, probe, httpGet)
    does the same with and without a pair whose key it does not recognize.
    In part_000 [validateResourceRequirements] too passes such a pair
    over. *)
Theorem unsupported_resource_type (node : Node) (prefix fn : string) :
  yaml.Kind node = yaml.MappingNode →
  Nat.even (length (yaml.Content node)) = true →
  (∃ es,
     stderr (TopLevel.validateResourceRequirements node prefix) fn = Some es
     ∧ ∀ (i : nat) key,
         yaml.Content node !! (2 * i)%nat = Some key →
         yaml.Value key ≠ "cpu"%string → yaml.Value key ≠ "memory"%string →
         unsupportedLine fn prefix key ∈ es)
  ∧ (∀ n n' v,
       (dropsPair ["name"; "namespace"; "labels"]%string n n' →
        TopLevel.validateMetadata n v = TopLevel.validateMetadata n' v)
       ∧ (dropsPair ["os"; "containers"]%string n n' →
          TopLevel.validateSpec n v = TopLevel.validateSpec n' v)
       ∧ (dropsPair ["name"; "image"; "resources"; "ports"; "readinessProbe";
                     "livenessProbe"]%string n n' →
          ∀ names, TopLevel.validateContainers_body n names v
                   = TopLevel.validateContainers_body n' names v)
       ∧ (dropsPair ["requests"; "limits"]%string n n' →
          TopLevel.validateResources n v = TopLevel.validateResources n' v)
       ∧ (dropsPair ["httpGet"]%string n n' →
          TopLevel.validateProbe n v = TopLevel.validateProbe n' v)
       ∧ (dropsPair ["path"; "port"]%string n n' →
          TopLevel.validateHTTPGetAction n v = TopLevel.validateHTTPGetAction n' v)
       ∧ (dropsPair ["apiVersion"; "kind"; "metadata"; "spec"]%string n n' →
          ∀ k t l rest,
            TopLevel.validateTopLevel (yaml.mkNode k t l (n :: rest)) v
            = TopLevel.validateTopLevel (yaml.mkNode k t l (n' :: rest)) v)
       ∧ (dropsPair ["containerPort"; "protocol"]%string n n' →
          ∀ k t l before after,
            TopLevel.validatePorts (yaml.mkNode k t l (before ++ n :: after)) v
            = TopLevel.validatePorts (yaml.mkNode k t l (before ++ n' :: after)) v)
       ∧ (dropsPair ["cpu"; "memory"]%string n n' →
          Document.validateResourceRequirements n prefix v
          = Document.validateResourceRequirements n' prefix v)).
Proof.
  intros Hk He. split.
  - rewrite stderr_out. unfold TopLevel.validateResourceRequirements, kindIs.
    rewrite bool_decide_eq_true_2 by done. cbn [negb].
    destruct (TopLevel_resource_loop_lines (yaml.Content node) prefix fn He)
      as (es & -> & Hin).
    by exists es.
  - intros n n' v. repeat split; intros H; intros.
    + by apply TopLevel_validateMetadata_drop.
    + by apply TopLevel_validateSpec_drop.
    + by apply TopLevel_validateContainers_body_drop.
    + by apply TopLevel_validateResources_drop.
    + by apply TopLevel_validateProbe_drop.
    + by apply TopLevel_validateHTTPGetAction_drop.
    + by apply validateTopLevel_drop.
    + by apply TopLevel_validatePorts_drop.
    + by apply Document_validateResourceRequirements_drop.
Qed.

Lemma unsupported_resource_type_witness :
  ∃ es,
    stderr (TopLevel.validateResourceRequirements gpuRequest "requests") "pod.yaml"
    = Some es
    ∧ "pod.yaml:11 requests.gpu has unsupported resource type"%string ∈ es.
Proof.
  destruct (proj1 (unsupported_resource_type gpuRequest "requests" "pod.yaml"
                     eq_refl eq_refl)) as (es & E & Hin).
  exists es. split; [exact E|].
  apply (Hin 1%nat (scalar 11 "gpu")); [reflexivity| |];
    intros H; discriminate H.
Defined.

(** *** The second document of src/main.go reports an absent [apiVersion]
    once, before anything else *)

Lemma collectFields_logs_api content :
  logs notRequiresAPIVersion (TopLevel.collectFields content).
Proof. unfold TopLevel.collectFields. logs_api. Qed.

Lemma TopLevel_validateKind_logs_api node :
  logs notRequiresAPIVersion (TopLevel.validateKind node).
Proof. unfold TopLevel.validateKind. logs_api. Qed.

Lemma TopLevel_validateCPU_logs_api node prefix :
  prefix = "requests"%string ∨ prefix = "limits"%string →
  logs notRequiresAPIVersion (TopLevel.validateCPU node prefix).
Proof. intros [-> | ->]; unfold TopLevel.validateCPU; logs_api. Qed.

#[global] Hint Resolve collectFields_logs_api TopLevel_validateKind_logs_api
  : logs_api.

Lemma TopLevel_validateMetadata_logs_api node :
  logs notRequiresAPIVersion (TopLevel.validateMetadata node).
Proof. unfold TopLevel.validateMetadata. logs_api. Qed.

Lemma TopLevel_validateResourceRequirements_logs_api node prefix :
  prefix = "requests"%string ∨ prefix = "limits"%string →
  logs notRequiresAPIVersion (TopLevel.validateResourceRequirements node prefix).
Proof.
  intros Hp. unfold TopLevel.validateResourceRequirements.
  pose proof (λ n, validateMemory_logs_api n prefix Hp).
  pose proof (λ n, TopLevel_validateCPU_logs_api n prefix Hp).
  destruct Hp as [-> | ->]; logs_api.
Qed.

Lemma TopLevel_validateResources_logs_api node :
  logs notRequiresAPIVersion (TopLevel.validateResources node).
Proof.
  unfold TopLevel.validateResources.
  pose proof (λ n, TopLevel_validateResourceRequirements_logs_api n "requests"
                     (or_introl eq_refl)).
  pose proof (λ n, TopLevel_validateResourceRequirements_logs_api n "limits"
                     (or_intror eq_refl)).
  logs_api.
Qed.

Lemma TopLevel_validatePorts_logs_api node :
  logs notRequiresAPIVersion (TopLevel.validatePorts node).
Proof. unfold TopLevel.validatePorts. logs_api. Qed.

Lemma TopLevel_validateHTTPGetAction_logs_api node :
  logs notRequiresAPIVersion (TopLevel.validateHTTPGetAction node).
Proof. unfold TopLevel.validateHTTPGetAction. logs_api. Qed.

#[global] Hint Resolve TopLevel_validateMetadata_logs_api
  TopLevel_validateResources_logs_api TopLevel_validatePorts_logs_api
  TopLevel_validateHTTPGetAction_logs_api : logs_api.

Lemma TopLevel_validateProbe_logs_api node :
  logs notRequiresAPIVersion (TopLevel.validateProbe node).
Proof. unfold TopLevel.validateProbe. logs_api. Qed.

#[global] Hint Resolve TopLevel_validateProbe_logs_api : logs_api.

Lemma TopLevel_validateContainers_logs_api node :
  logs notRequiresAPIVersion (TopLevel.validateContainers node).
Proof.
  unfold TopLevel.validateContainers, TopLevel.validateContainers_body. logs_api.
Qed.

#[global] Hint Resolve TopLevel_validateContainers_logs_api : logs_api.

Lemma TopLevel_validateSpec_logs_api node :
  logs notRequiresAPIVersion (TopLevel.validateSpec node).
Proof. unfold TopLevel.validateSpec. logs_api. Qed.

#[global] Hint Resolve TopLevel_validateSpec_logs_api : logs_api.

(** X3.  [Validate] of the second document of src/main.go, for a root
    mapping without the key [apiVersion]: the first line it prints is
    "apiVersion is required", without a line number, and no other line is
    that one. *)
Theorem TopLevel_Validate_requires_apiVersion root doc rest fn es :
  yaml.Content root = doc :: rest → yaml.Kind doc = yaml.MappingNode →
  lastValue "apiVersion" (yaml.Content doc) = None →
  stderr (TopLevel.Validate root) fn = Some es →
  ∃ others,
    es = (fn +:+ " apiVersion is required") :: others
    ∧ fn +:+ " apiVersion is required" ∉ others.
Proof.
  intros Hc Hk Hl. unfold TopLevel.Validate.
  rewrite stderr_report by auto with framed. rewrite stderr_out.
  unfold TopLevel.validateTopLevel, kindIs.
  rewrite Hc. rewrite bool_decide_eq_true_2 by done. cbn [negb].
  rewrite out_bind by framed_auto. rewrite collectFields_out.
  destruct (Nat.even (length (yaml.Content doc))); [|done]. cbn [fmap].
  rewrite !collectFields_lookup, Hl.
  rewrite out_seq by framed_auto. rewrite stderr_out, out_Errorf. simpl.
  match goal with |- context [out ?m fn] =>
    assert (logs notRequiresAPIVersion m) as Hlogs by logs_api;
    destruct (out m fn) as [[[] others]|] eqn:E; [|done]
  end.
  simpl. intros [= <-]. exists others. split; [done|]. intros Hin.
  pose proof (logs_out _ _ _ _ _ Hlogs E) as Hall.
  rewrite Forall_forall in Hall.
  destruct (Hall _ Hin) as (line & msg & Emsg & Hmsg).
  apply (errorLine_msg_inj fn 0 line "apiVersion is required" msg) in Emsg.
  by subst msg.
Qed.

Lemma TopLevel_Validate_requires_apiVersion_witness :
  ∃ others,
    ["pod.yaml apiVersion is required"%string]
    = ("pod.yaml" +:+ " apiVersion is required") :: others
    ∧ "pod.yaml" +:+ " apiVersion is required" ∉ others.
Proof.
  exact (TopLevel_Validate_requires_apiVersion podWithoutAPIVersion _ _ "pod.yaml"
           ["pod.yaml apiVersion is required"%string]
           eq_refl eq_refl eq_refl eq_refl).
Defined.

(** *** [validatePod] reports an absent [apiVersion] once, before anything
    else *)

Lemma PodFields_validateMetadata_noapi node fp :
  appendsNoAPIVersion (PodFields.validateMetadata node fp).
Proof. unfold PodFields.validateMetadata. others. Qed.

Lemma PodFields_validateOS_noapi node fp :
  appendsNoAPIVersion (PodFields.validateOS node fp).
Proof. unfold PodFields.validateOS. others. Qed.

Lemma PodFields_validateImage_noapi image line fp :
  appendsNoAPIVersion (PodFields.validateImage image line fp).
Proof. unfold PodFields.validateImage. others. Qed.

Lemma PodFields_validatePorts_body_noapi node fp :
  appendsNoAPIVersion (PodFields.validatePorts_body node fp).
Proof. unfold PodFields.validatePorts_body. others. Qed.

Lemma PodFields_validatePorts_noapi node fp :
  appendsNoAPIVersion (PodFields.validatePorts node fp).
Proof.
  unfold PodFields.validatePorts.
  destruct (negb (kindIs yaml.SequenceNode node)); [apply appendsOnly_id|].
  apply (appendsOnly_fold _ (λ x, PodFields.validatePorts_body x fp)).
  intros. apply PodFields_validatePorts_body_noapi.
Qed.

Lemma PodFields_validateHTTPGetAction_noapi node probeName fp :
  probeName = "readinessProbe"%string ∨ probeName = "livenessProbe"%string →
  appendsNoAPIVersion (PodFields.validateHTTPGetAction node probeName fp).
Proof.
  unfold PodFields.validateHTTPGetAction. intros [-> | ->]; others.
Qed.

Lemma PodFields_validateProbe_noapi node probeName fp :
  probeName = "readinessProbe"%string ∨ probeName = "livenessProbe"%string →
  appendsNoAPIVersion (PodFields.validateProbe node probeName fp).
Proof.
  intros Hp. unfold PodFields.validateProbe.
  destruct (negb (kindIs yaml.MappingNode node)); [apply appendsOnly_id|].
  destruct (PodFields.parseMapping node !! "httpGet"%string).
  - by apply PodFields_validateHTTPGetAction_noapi.
  - destruct Hp as [-> | ->]; others.
Qed.

Lemma validateResourceSpec_noapi node specName fp :
  appendsNoAPIVersion (PodFields.validateResourceSpec node specName fp).
Proof. unfold PodFields.validateResourceSpec. others. Qed.

Ltac noapi_calls :=
  repeat match goal with
    | |- context [PodFields.validateResourceSpec ?n ?s ?f ?e] =>
        destruct (validateResourceSpec_noapi n s f e) as (? & ? & ->)
    | |- context [PodFields.validateImage ?a ?b ?c ?e] =>
        destruct (PodFields_validateImage_noapi a b c e) as (? & ? & ->)
    | |- context [PodFields.validatePorts ?n ?f ?e] =>
        destruct (PodFields_validatePorts_noapi n f e) as (? & ? & ->)
    | |- context [PodFields.validateProbe ?n "readinessProbe" ?f ?e] =>
        destruct (PodFields_validateProbe_noapi n "readinessProbe" f
                    (or_introl eq_refl) e) as (? & ? & ->)
    | |- context [PodFields.validateProbe ?n "livenessProbe" ?f ?e] =>
        destruct (PodFields_validateProbe_noapi n "livenessProbe" f
                    (or_intror eq_refl) e) as (? & ? & ->)
    | |- context [PodFields.validateOS ?n ?f ?e] =>
        destruct (PodFields_validateOS_noapi n f e) as (? & ? & ->)
    | |- context [PodFields.validateMetadata ?n ?f ?e] =>
        destruct (PodFields_validateMetadata_noapi n f e) as (? & ? & ->)
    end.

Lemma PodFields_validateResources_noapi node fp :
  appendsNoAPIVersion (PodFields.validateResources node fp).
Proof.
  unfold PodFields.validateResources. intros errors.
  destruct (negb (kindIs yaml.MappingNode node)); [others_done|].
  destruct (PodFields.parseMapping node !! "requests"%string) as [r|],
    (PodFields.parseMapping node !! "limits"%string) as [l|];
    noapi_calls; others_done.
Qed.

Lemma PodFields_validateContainers_body_noapi c fp names errors :
  ∃ names' post,
    Forall (λ e, notRequiresAPIVersion (PodFields.Message e)) post
    ∧ PodFields.validateContainers_body c fp (names, errors)
      = (names', errors ++ post).
Proof.
  unfold PodFields.validateContainers_body.
  destruct (negb (kindIs yaml.MappingNode c)).
  { exists names, []. by rewrite app_nil_r. }
  destruct (negb (PodFields.hasField (PodFields.parseMapping c) "name")),
    (negb (PodFields.isValidSnakeCase
             (PodFields.getStringValue (PodFields.parseMapping c) "name"))),
    (default false
       (names !! PodFields.getStringValue (PodFields.parseMapping c) "name")),
    (negb (PodFields.hasField (PodFields.parseMapping c) "image")),
    (PodFields.parseMapping c !! "ports"%string),
    (PodFields.parseMapping c !! "readinessProbe"%string),
    (PodFields.parseMapping c !! "livenessProbe"%string),
    (PodFields.parseMapping c !! "resources"%string);
    simpl; noapi_calls;
    repeat match goal with
      | |- context [PodFields.validateResources ?n ?f ?e] =>
          destruct (PodFields_validateResources_noapi n f e) as (? & ? & ->)
      end;
    (eexists _, _; split; [|f_equal; rewrite <- ?app_assoc; simpl; reflexivity]);
    repeat first
      [ assumption | apply Forall_app_2 | apply Forall_nil_2
      | apply Forall_cons_2;
        [unfold notRequiresAPIVersion; simpl; discriminate|] ].
Qed.

Lemma PodFields_validateContainers_loop_noapi fp cs names errors :
  ∃ post,
    Forall (λ e, notRequiresAPIVersion (PodFields.Message e)) post
    ∧ snd (fold_left (λ st c, PodFields.validateContainers_body c fp st) cs
             (names, errors))
      = errors ++ post.
Proof.
  revert names errors. induction cs as [|c cs IH]; intros names errors;
    cbn [fold_left].
  - exists []. by rewrite app_nil_r.
  - destruct (PodFields_validateContainers_body_noapi c fp names errors)
      as (names' & post & Hpost & ->).
    destruct (IH names' (errors ++ post)) as (post' & Hpost' & ->).
    exists (post ++ post'). split; [by apply Forall_app|by rewrite app_assoc].
Qed.

Lemma PodFields_validateContainers_noapi node fp :
  appendsNoAPIVersion (PodFields.validateContainers node fp).
Proof.
  unfold PodFields.validateContainers. intros errors.
  destruct (negb (kindIs yaml.SequenceNode node)); [others_done|].
  apply PodFields_validateContainers_loop_noapi.
Qed.

Lemma PodFields_validateSpec_noapi node fp :
  appendsNoAPIVersion (PodFields.validateSpec node fp).
Proof.
  unfold PodFields.validateSpec. intros errors.
  destruct (negb (kindIs yaml.MappingNode node)); [others_done|].
  destruct (PodFields.parseMapping node !! "os"%string),
    (PodFields.parseMapping node !! "containers"%string);
    noapi_calls;
    repeat match goal with
      | |- context [PodFields.validateContainers ?n ?f ?e] =>
          destruct (PodFields_validateContainers_noapi n f e) as (? & ? & ->)
      end;
    others_done.
Qed.

(** X4.  [validatePod], for a root mapping without the key [apiVersion]:
    the first record it appends is "apiVersion is required" with line 0, and
    no other record has that message. *)
Theorem validatePod_requires_apiVersion root doc rest fp :
  yaml.Kind root = yaml.DocumentNode → yaml.Content root = doc :: rest →
  yaml.Kind doc = yaml.MappingNode →
  lastValue "apiVersion" (yaml.Content doc) = None →
  ∃ others,
    PodFields.validatePod root fp []
    = {| PodFields.File := fp; PodFields.Line := 0;
         PodFields.Message := "apiVersion is required" |} :: others
    ∧ Forall (λ e, PodFields.Message e ≠ "apiVersion is required"%string) others.
Proof.
  intros Hr Hc Hk Hl. unfold PodFields.validatePod, kindIs.
  rewrite Hc, !bool_decide_eq_true_2 by done. cbn [negb].
  assert (PodFields.parseMapping doc !! "apiVersion"%string = None) as Hn
    by (by rewrite parseMapping_lookup).
  cbv zeta. unfold PodFields.hasField. rewrite Hn.
  rewrite (bool_decide_eq_false_2 (is_Some None)) by (by intros [? ?]).
  cbn [negb].
  destruct (negb (bool_decide (is_Some (PodFields.parseMapping doc !! "kind"%string)))),
    (negb (PodFields.getStringValue (PodFields.parseMapping doc) "kind" == "Pod")),
    (PodFields.parseMapping doc !! "metadata"%string),
    (PodFields.parseMapping doc !! "spec"%string);
    simpl; noapi_calls;
    repeat match goal with
      | |- context [PodFields.validateSpec ?n ?f ?e] =>
          destruct (PodFields_validateSpec_noapi n f e) as (? & ? & ->)
      end;
    (eexists; split; [rewrite <- ?app_assoc; simpl; reflexivity|]);
    repeat first
      [ assumption | apply Forall_app_2 | apply Forall_nil_2
      | apply Forall_cons_2;
        [unfold notRequiresAPIVersion; simpl; discriminate|] ].
Qed.

Lemma validatePod_requires_apiVersion_witness :
  ∃ others,
    PodFields.validatePod podWithoutAPIVersion "pod.yaml" []
    = {| PodFields.File := "pod.yaml"; PodFields.Line := 0;
         PodFields.Message := "apiVersion is required" |} :: others
    ∧ Forall (λ e, PodFields.Message e ≠ "apiVersion is required"%string) others.
Proof.
  exact (validatePod_requires_apiVersion podWithoutAPIVersion _ _ "pod.yaml"
           eq_refl eq_refl eq_refl eq_refl).
Defined.

(** ** part_000 returns for every tree of the parser that has a document *)

Lemma validateLabels_returns node :
  wellFormed node = true → returns (validateLabels node) (λ _, True).
Proof.
  intros Hw. unfold validateLabels.
  destruct (kindIs yaml.MappingNode node) eqn:Hk; simpl; [|by apply returns_Errorf].
  apply (returns_forPairs (λ _, True)); [by apply wellFormed_mapping| |done].
  intros key value [] _ _ _.
  apply (returns_bind _ _ (λ _, True)); [|intros _ _]; returns_leaf.
Qed.

Lemma validateOS_returns node : returns (validateOS node) (λ _, True).
Proof. unfold validateOS. returns_leaf. Qed.

Lemma validateContainerName_returns node names :
  returns (validateContainerName node names) (λ _, True).
Proof.
  unfold validateContainerName.
  repeat match goal with
    | |- returns (if ?b then _ else _) _ => destruct b
    | |- returns (bind (Errorf _ _) _) _ =>
        apply (returns_bind _ _ (λ _, True)); [by apply returns_Errorf|intros _ _]
    | |- returns (ret _) _ => by apply returns_ret
    end.
Qed.

Lemma Document_validateAPIVersion_returns node :
  returns (Document.validateAPIVersion node) (λ _, True).
Proof. unfold Document.validateAPIVersion. returns_leaf. Qed.

Lemma Document_validateKind_returns node :
  returns (Document.validateKind node) (λ _, True).
Proof. unfold Document.validateKind. returns_leaf. Qed.

Lemma validateName_returns node : returns (Document.validateName node) (λ _, True).
Proof. unfold Document.validateName. returns_leaf. Qed.

Lemma Document_validateMetadata_returns node :
  wellFormed node = true → returns (Document.validateMetadata node) (λ _, True).
Proof.
  intros Hw. unfold Document.validateMetadata.
  destruct (kindIs yaml.MappingNode node) eqn:Hk; simpl; [|by apply returns_Errorf].
  apply (returns_bind _ _ (λ _, True)).
  - apply (returns_forPairs (λ _, True)); [by apply wellFormed_mapping| |done].
    intros key value s _ Hv _. apply (wellFormed_content _ _ Hw) in Hv.
    destruct (_ == _); [by apply returns_ret|].
    destruct (_ == _).
    { apply (returns_bind _ _ (λ _, True)); [returns_leaf|intros _ _].
      by apply returns_ret. }
    destruct (_ == _); [|by apply returns_ret].
    apply (returns_bind _ _ (λ _, True)); [by apply validateLabels_returns|].
    intros _ _. by apply returns_ret.
  - intros [n|] _; [apply validateName_returns|by apply returns_Errorf].
Qed.

Lemma validateContainer_returns node names :
  wellFormed node = true → kindIs yaml.MappingNode node = true →
  returns (Document.validateContainer node names) (λ _, True).
Proof.
  intros Hw Hk. unfold Document.validateContainer.
  apply (returns_bind _ _ (λ vars, wellFormedVar (Document.resourcesNode vars))).
  - apply (returns_forPairs (λ vars, wellFormedVar (Document.resourcesNode vars)));
      [by apply wellFormed_mapping| |done].
    intros key value vars _ Hv Hvars. apply (wellFormed_content _ _ Hw) in Hv.
    unfold Document.validateContainer_scan.
    repeat match goal with
      | |- returns (if ?b then _ else _) _ => destruct b
      | |- returns (ret _) _ => apply returns_ret; simpl; try done
      end.
    + by intros n [= <-].
    + apply (returns_bind _ _ (λ _, True)); [by apply Document_validatePorts_returns|].
      intros _ _. by apply returns_ret.
    + apply (returns_bind _ _ (λ _, True)); [by apply Document_validateProbe_returns|].
      intros _ _. by apply returns_ret.
    + apply (returns_bind _ _ (λ _, True)); [by apply Document_validateProbe_returns|].
      intros _ _. by apply returns_ret.
  - intros vars Hvars.
    apply (returns_bind _ _ (λ _, True)).
    { destruct (Document.nameNode vars); [apply validateContainerName_returns|].
      apply (returns_bind _ _ (λ _, True)); [by apply returns_Errorf|].
      intros _ _. by apply returns_ret. }
    intros names' _. apply (returns_bind _ _ (λ _, True)).
    { destruct (Document.imageNode vars);
        [apply validateImage_returns|by apply returns_Errorf]. }
    intros _ _. apply (returns_bind _ _ (λ _, True)).
    { destruct (Document.resourcesNode vars) as [r|] eqn:Er;
        [|by apply returns_Errorf].
      apply Document_validateResources_returns. by apply Hvars. }
    intros _ _. by apply returns_ret.
Qed.

Lemma Document_validateContainers_returns node :
  wellFormed node = true → returns (Document.validateContainers node) (λ _, True).
Proof.
  intros Hw. unfold Document.validateContainers.
  destruct (kindIs yaml.SequenceNode node); simpl; [|by apply returns_Errorf].
  apply (returns_bind _ _ (λ _, True)); [|intros; by apply returns_ret].
  apply (returns_forRange (λ _, True)); [|done].
  intros c names Hc _. apply (wellFormed_content _ _ Hw) in Hc.
  destruct (kindIs yaml.MappingNode c) eqn:Hk; simpl.
  - by apply validateContainer_returns.
  - apply (returns_bind _ _ (λ _, True)); [by apply returns_Errorf|].
    intros _ _. by apply returns_ret.
Qed.

Lemma Document_validateSpec_returns node :
  wellFormed node = true → returns (Document.validateSpec node) (λ _, True).
Proof.
  intros Hw. unfold Document.validateSpec.
  destruct (kindIs yaml.MappingNode node) eqn:Hk; simpl; [|by apply returns_Errorf].
  apply (returns_forPairs (λ _, True)); [by apply wellFormed_mapping| |done].
  intros key value [] _ Hv _. apply (wellFormed_content _ _ Hw) in Hv.
  destruct (_ == _); [apply validateOS_returns|].
  destruct (_ == _); [by apply Document_validateContainers_returns|].
  by apply returns_ret.
Qed.

Lemma validateDocument_returns node :
  wellFormed node = true → returns (Document.validateDocument node) (λ _, True).
Proof.
  intros Hw. unfold Document.validateDocument.
  destruct (kindIs yaml.MappingNode node) eqn:Hk; simpl; [|by apply returns_Errorf].
  apply (returns_forPairs (λ _, True)); [by apply wellFormed_mapping| |done].
  intros key value [] _ Hv _. apply (wellFormed_content _ _ Hw) in Hv.
  destruct (_ == _); [apply Document_validateAPIVersion_returns|].
  destruct (_ == _); [apply Document_validateKind_returns|].
  destruct (_ == _); [by apply Document_validateMetadata_returns|].
  destruct (_ == _); [by apply Document_validateSpec_returns|].
  by apply returns_ret.
Qed.

(** X1.  For a tree as the parser builds it (every mapping with a value for
    each key) that holds a document, [Validate] of part_000 returns: the
    tree without a document is the only one it panics on. *)
Theorem Document_Validate_returns (root : Node) (fn : string) :
  wellFormed root = true → yaml.Content root ≠ [] →
  is_Some (stderr (Document.Validate root) fn).
Proof.
  intros Hw Hc. apply (returns_stderr _ (λ _, True)).
  unfold Document.Validate.
  destruct (yaml.Content root) as [|doc rest] eqn:E; [done|]. simpl.
  apply (returns_bind _ _ (λ _, True)); [by apply returns_ret|]. intros _ _.
  apply (returns_bind _ _ (λ d, d = doc)); [by apply returns_ret|].
  intros d ->. apply (returns_bind _ _ (λ _, True)).
  - apply validateDocument_returns. apply (wellFormed_content root); [done|].
    rewrite E. set_solver.
  - intros _ _ v. by eexists _, _.
Qed.

Lemma Document_Validate_returns_witness :
  is_Some (stderr (Document.Validate podWithoutAPIVersion) "pod.yaml").
Proof.
  apply (Document_Validate_returns podWithoutAPIVersion "pod.yaml" eq_refl).
  intros H. discriminate H.
Defined.

(** A manifest with [apiVersion: v1], [kind: Pod], a name and one
    container that meets every rule gets no line from any of the three
    validators, and [Validate] returns no error. *)
Theorem valid_manifest_accepted (fn : string) :
  out (Document.Validate (podWithContainer "web")) fn = Some (false, [])
  ∧ out (TopLevel.Validate (podWithContainer "web")) fn = Some (false, [])
  ∧ PodFields.run (podWithContainer "web") fn = [].
Proof. done. Qed.

(** ** The formats of an image and of an amount of memory *)

Lemma Lang_lit p s : Lang (lit p) s ↔ s = bytes p.
Proof.
  revert s. induction p as [|c p IH]; intros s; simpl.
  - split; [apply Lang_Eps_inv|intros ->; constructor].
  - split.
    + intros H. apply Lang_Cat_inv in H as (s1 & s2 & -> & H1 & H2).
      apply Lang_Class_inv in H1 as (d & -> & Hd). apply chr_true in Hd as ->.
      apply IH in H2 as ->. done.
    + intros ->. apply (Lang_Cat _ _ [c] (bytes p)).
      * constructor. by apply chr_true.
      * by apply IH.
Qed.

Lemma Lang_chr a s : Lang (Class (chr a)) s ↔ s = [a].
Proof.
  split.
  - intros H. apply Lang_Class_inv in H as (d & -> & Hd). by apply chr_true in Hd as ->.
  - intros ->. constructor. by apply chr_true.
Qed.

Lemma imageRegex_isImage (s : string) :
  MatchString imageRegex s = true ↔ isImage (bytes s).
Proof.
  unfold MatchString, imageRegex, isImage. rewrite matches_Lang. split.
  - intros H.
    apply Lang_Cat_inv in H as (pre & s1 & -> & Hpre & H).
    apply Lang_Cat_inv in H as (f & s2 & -> & Hf & H).
    apply Lang_Cat_inv in H as (rest & s3 & -> & Hrest & H).
    apply Lang_Cat_inv in H as (colon & tag & -> & Hcolon & Htag).
    apply Lang_lit in Hpre as ->. apply Lang_Class_inv in Hf as (first & -> & Hfirst).
    apply Lang_Plus_Class in Hrest as [? ?]. apply Lang_chr in Hcolon as ->.
    apply Lang_Plus_Class in Htag as [? ?].
    by exists first, rest, tag.
  - intros (first & rest & tag & -> & Hfirst & ? & ? & ? & ?).
    apply Lang_Cat; [by apply Lang_lit|].
    apply (Lang_Cat _ _ [first]); [by constructor|].
    apply Lang_Cat; [by apply Lang_Plus_Class|].
    apply (Lang_Cat _ _ [":"%char]); [by apply Lang_chr|].
    by apply Lang_Plus_Class.
Qed.

Lemma memoryRegex_isMemory (s : string) :
  MatchString memoryRegex s = true ↔ isMemory (bytes s).
Proof.
  unfold MatchString, memoryRegex, isMemory. rewrite matches_Lang. split.
  - intros H.
    apply Lang_Cat_inv in H as (digits & unit & -> & Hd & Hu).
    apply Lang_Plus_Class in Hd as [? ?].
    apply Lang_Alt_inv in Hu as [Hu|Hu]; [|apply Lang_Alt_inv in Hu as [Hu|Hu]];
      apply Lang_lit in Hu as ->.
    + exists digits, "Gi"%string. repeat split; try done. set_solver.
    + exists digits, "Mi"%string. repeat split; try done. set_solver.
    + exists digits, "Ki"%string. repeat split; try done. set_solver.
  - intros (digits & unit & -> & ? & ? & Hu).
    apply Lang_Cat; [by apply Lang_Plus_Class|].
    apply elem_of_cons in Hu as [->|Hu]; [by apply Lang_Alt_l, Lang_lit|].
    apply elem_of_cons in Hu as [->|Hu]; [by apply Lang_Alt_r, Lang_Alt_l, Lang_lit|].
    apply elem_of_cons in Hu as [->|Hu]; [by apply Lang_Alt_r, Lang_Alt_r, Lang_lit|].
    by apply elem_of_nil in Hu.
Qed.

(** X18.  The image of a container, for the two [Validator]s: a scalar is
    accepted exactly when it reads [registry.bigbrother.io/], a repository
    of at least two bytes out of letters, digits, [_], [.] and [-] that
    starts with a letter or a digit, a colon, and a tag of at least one
    such byte; any other scalar gets the one line "image has invalid
    format" at its own line. *)
Theorem image_format (node : Node) (fn : string) :
  yaml.Kind node = yaml.ScalarNode →
  (MatchString imageRegex (yaml.Value node) = true
   ↔ isImage (bytes (yaml.Value node)))
  ∧ (isImage (bytes (yaml.Value node)) → stderr (validateImage node) fn = Some [])
  ∧ (¬ isImage (bytes (yaml.Value node)) →
     stderr (validateImage node) fn
     = Some [errorLine fn (yaml.Line node)
               ("image has invalid format '" +:+ yaml.Value node +:+ "'")]).
Proof.
  intros Hk. split; [apply imageRegex_isImage|].
  unfold stderr, validateImage, kindIs. rewrite bool_decide_eq_true_2 by done.
  simpl. split; intros H.
  - apply imageRegex_isImage in H. by rewrite H.
  - destruct (MatchString imageRegex (yaml.Value node)) eqn:E; [|done].
    by apply imageRegex_isImage in E.
Qed.

Lemma image_format_witness :
  stderr (validateImage (scalar 8 "registry.bigbrother.io/app:v1")) "pod.yaml" = Some []
  ∧ stderr (validateImage (scalar 8 "registry.bigbrother.io/a:v1")) "pod.yaml"
    = Some ["pod.yaml:8 image has invalid format 'registry.bigbrother.io/a:v1'"].
Proof.
  split.
  - apply (proj1 (proj2 (image_format (scalar 8 "registry.bigbrother.io/app:v1")
                           "pod.yaml" eq_refl))).
    exists "a"%char, (bytes "pp"), (bytes "v1").
    repeat split; try done; repeat constructor.
  - apply (proj2 (proj2 (image_format (scalar 8 "registry.bigbrother.io/a:v1")
                           "pod.yaml" eq_refl))).
    intros (first & rest & tag & E & _ & Hne & Hrest & _).
    injection E as <- E. destruct rest as [|c rest]; [done|].
    injection E as <- E. apply Forall_cons in Hrest as [Hc _]. done.
Defined.

Lemma bytes_append (a b : string) : bytes (a +:+ b) = bytes a ++ bytes b.
Proof. induction a as [|c a IH]; simpl; [done|by rewrite IH]. Qed.

Lemma bytes_inj (a b : string) : bytes a = bytes b → a = b.
Proof.
  intros E. rewrite <- (string_of_list_ascii_of_string a), E.
  apply string_of_list_ascii_of_string.
Qed.

Lemma prefix_append (p x : string) : String.prefix p (p +:+ x) = true.
Proof.
  induction p as [|c p IH]; simpl; [by destruct x|].
  destruct (ascii_dec c c); [done|congruence].
Qed.

Lemma prefix_inv (p s : string) :
  String.prefix p s = true → ∃ rest, s = p +:+ rest.
Proof.
  revert s. induction p as [|c p IH]; intros s; simpl; [by exists s|].
  destruct s as [|d s]; [done|]. simpl.
  destruct (ascii_dec c d) as [->|]; [|done].
  intros (rest & ->)%IH. by exists rest.
Qed.

Lemma dropBytes_append (p x : string) : dropBytes (String.length p) (p +:+ x) = x.
Proof. induction p as [|c p IH]; simpl; [done|apply IH]. Qed.

Lemma ContainsChar_elem (s : string) (c : ascii) :
  ContainsChar s c = true ↔ c ∈ bytes s.
Proof.
  induction s as [|d s IH]; simpl.
  - split; [done|by intros ?%elem_of_nil].
  - rewrite orb_true_iff, IH, Ascii.eqb_eq, elem_of_cons. split; intros [?|?]; auto.
Qed.

Lemma append_one_ne {X} (l : list X) x : l ++ [x] ≠ l.
Proof. intros E. apply (f_equal length) in E. rewrite length_app in E. simpl in E. lia. Qed.

Lemma PodFields_validateImage_accepts image line fp errors :
  PodFields.validateImage image line fp errors = errors
  ↔ ∃ rest, image = "registry.bigbrother.io/" +:+ rest ∧ ":"%char ∈ bytes rest.
Proof.
  unfold PodFields.validateImage, HasPrefix. split.
  - destruct (String.prefix "registry.bigbrother.io/" image) eqn:Ep; cbn [negb].
    + apply prefix_inv in Ep as (rest & ->). rewrite dropBytes_append.
      destruct (ContainsChar rest ":") eqn:Ec; cbn [negb].
      * intros _. exists rest. split; [done|]. by apply ContainsChar_elem.
      * by intros ?%append_one_ne.
    + by intros ?%append_one_ne.
  - intros (rest & -> & Hc). rewrite prefix_append, dropBytes_append. cbn [negb].
    apply ContainsChar_elem in Hc. by rewrite Hc.
Qed.

(** X19.  [validateImage] of [validatePod] asks less of an image than the
    pattern of the two [Validator]s: it accepts exactly the strings that
    start with [registry.bigbrother.io/] and have a colon somewhere after
    it.  So it accepts every image the pattern accepts, and besides, for
    one, every string that has the colon right after the registry, which
    the pattern never accepts. *)
Theorem validatePod_image_format (image : string) (line : Z) (fp : string)
    (errors : list PodFields.ValidationError) :
  (PodFields.validateImage image line fp errors = errors
   ↔ ∃ rest, image = "registry.bigbrother.io/" +:+ rest ∧ ":"%char ∈ bytes rest)
  ∧ (MatchString imageRegex image = true →
     PodFields.validateImage image line fp errors = errors)
  ∧ (∀ tag,
       PodFields.validateImage ("registry.bigbrother.io/:" +:+ tag) line fp errors
       = errors
       ∧ MatchString imageRegex ("registry.bigbrother.io/:" +:+ tag) = false).
Proof.
  split; [apply PodFields_validateImage_accepts|]. split.
  - intros (first & rest & tag & E & _)%imageRegex_isImage.
    apply PodFields_validateImage_accepts.
    exists (string_of_list_ascii (first :: rest ++ ":"%char :: tag)). split.
    + apply bytes_inj. by rewrite bytes_append, list_ascii_of_string_of_list_ascii.
    + rewrite list_ascii_of_string_of_list_ascii. set_solver.
  - intros tag. split.
    + apply PodFields_validateImage_accepts. exists (":" +:+ tag). split; [done|].
      simpl. set_solver.
    + destruct (MatchString imageRegex _) eqn:E; [|done].
      apply imageRegex_isImage in E as (first & rest & t & E & Hf & _).
      simpl in E. injection E as <- _. done.
Qed.

(** X20.  An amount of memory, for all three validators: a scalar is
    accepted exactly when it is one decimal digit or more followed by
    [Gi], [Mi] or [Ki]; the two [Validator]s give any other scalar the one
    line "memory has invalid format" under the name of the resource set,
    and [isValidMemoryFormat] of [validatePod] decides the same format. *)
Theorem memory_format (node : Node) (prefix fn : string) :
  yaml.Kind node = yaml.ScalarNode →
  (isMemory (bytes (yaml.Value node)) →
     stderr (validateMemory node prefix) fn = Some [])
  ∧ (¬ isMemory (bytes (yaml.Value node)) →
     stderr (validateMemory node prefix) fn
     = Some [errorLine fn (yaml.Line node)
               (prefix +:+ ".memory has invalid format '" +:+ yaml.Value node +:+ "'")])
  ∧ (∀ s, PodFields.isValidMemoryFormat s = true ↔ isMemory (bytes s)).
Proof.
  intros Hk.
  unfold stderr, validateMemory, kindIs. rewrite bool_decide_eq_true_2 by done.
  simpl. split; [|split].
  - intros H. apply memoryRegex_isMemory in H. by rewrite H.
  - intros H. destruct (MatchString memoryRegex (yaml.Value node)) eqn:E; [|done].
    by apply memoryRegex_isMemory in E.
  - intros s. apply memoryRegex_isMemory.
Qed.

Lemma memory_format_witness :
  stderr (validateMemory (scalar 12 "512Mi") "limits") "pod.yaml" = Some []
  ∧ stderr (validateMemory (scalar 12 "512MB") "limits") "pod.yaml"
    = Some ["pod.yaml:12 limits.memory has invalid format '512MB'"].
Proof.
  split.
  - apply (proj1 (memory_format (scalar 12 "512Mi") "limits" "pod.yaml" eq_refl)).
    exists (bytes "512"), "Mi"%string.
    repeat split; try done; [repeat constructor|set_solver].
  - apply (proj1 (proj2 (memory_format (scalar 12 "512MB") "limits" "pod.yaml" eq_refl))).
    intros (digits & unit & E & _ & Hd & Hu).
    assert (∀ c, digit c = true → c ≠ "M"%char) as Hm by (by intros c Hc ->).
    repeat (apply elem_of_cons in Hu as [->|Hu]); [| | |by apply elem_of_nil in Hu];
      simpl in E;
      repeat (destruct digits as [|? digits]; [discriminate E|];
              injection E as <- E; try apply Forall_cons in Hd as [_ Hd]);
      try (destruct digits; discriminate E).
Defined.

(** ** [validateTopLevel] returns for every tree of the parser *)

Lemma collectFields_returns node :
  wellFormed node = true → kindIs yaml.MappingNode node = true →
  returns (TopLevel.collectFields (yaml.Content node)) wellFormedFields.
Proof.
  intros Hw Hk v. rewrite collectFields_run, (wellFormed_mapping _ Hw Hk).
  eexists _, _. split; [done|]. intros key n. rewrite collectFields_lookup.
  intros H%lastValue_elem. by apply (wellFormed_content node).
Qed.

Ltac returns_seq := apply (returns_bind _ _ (λ _, True)); [|intros _ _].

Ltac returns_fields Hw Hk fields Hf :=
  apply (returns_bind _ _ wellFormedFields);
  [by apply collectFields_returns|intros fields Hf].

Lemma TopLevel_validateAPIVersion_returns node :
  returns (TopLevel.validateAPIVersion node) (λ _, True).
Proof. unfold TopLevel.validateAPIVersion. returns_leaf. Qed.

Lemma TopLevel_validateKind_returns node :
  returns (TopLevel.validateKind node) (λ _, True).
Proof. unfold TopLevel.validateKind. returns_leaf. Qed.

Lemma TopLevel_validateMetadata_returns node :
  wellFormed node = true → returns (TopLevel.validateMetadata node) (λ _, True).
Proof.
  intros Hw. unfold TopLevel.validateMetadata.
  destruct (kindIs yaml.MappingNode node) eqn:Hk; simpl; [|by apply returns_Errorf].
  returns_fields Hw Hk fields Hf.
  returns_seq; [returns_leaf|]. returns_seq; [returns_leaf|].
  destruct (fields !! "labels"%string) as [n|] eqn:E; [|by apply returns_ret].
  apply validateLabels_returns. by apply (Hf _ _ E).
Qed.

Lemma TopLevel_validateResourceRequirements_returns node prefix :
  wellFormed node = true →
  returns (TopLevel.validateResourceRequirements node prefix) (λ _, True).
Proof.
  intros Hw. unfold TopLevel.validateResourceRequirements.
  destruct (kindIs yaml.MappingNode node) eqn:Hk; simpl; [|by apply returns_Errorf].
  apply (returns_forPairs (λ _, True)); [by apply wellFormed_mapping| |done].
  intros key value [] _ _ _.
  destruct (_ == _); [apply TopLevel_validateCPU_returns|].
  destruct (_ == _); [apply validateMemory_returns|by apply returns_Errorf].
Qed.

Lemma TopLevel_validateResources_returns node :
  wellFormed node = true → returns (TopLevel.validateResources node) (λ _, True).
Proof.
  intros Hw. unfold TopLevel.validateResources.
  destruct (kindIs yaml.MappingNode node) eqn:Hk; simpl; [|by apply returns_Errorf].
  returns_fields Hw Hk fields Hf.
  returns_seq.
  - destruct (fields !! "requests"%string) as [n|] eqn:E; [|by apply returns_ret].
    apply TopLevel_validateResourceRequirements_returns. by apply (Hf _ _ E).
  - destruct (fields !! "limits"%string) as [n|] eqn:E; [|by apply returns_ret].
    apply TopLevel_validateResourceRequirements_returns. by apply (Hf _ _ E).
Qed.

Lemma TopLevel_validatePorts_returns node :
  wellFormed node = true → returns (TopLevel.validatePorts node) (λ _, True).
Proof.
  intros Hw. unfold TopLevel.validatePorts.
  destruct (kindIs yaml.SequenceNode node); simpl; [|by apply returns_Errorf].
  apply (returns_forRange (λ _, True)); [|done].
  intros portNode [] Hp _. apply (wellFormed_content _ _ Hw) in Hp.
  destruct (kindIs yaml.MappingNode portNode) eqn:Hk; simpl;
    [|by apply returns_Errorf].
  returns_fields Hp Hk fields Hf.
  returns_seq.
  - destruct (fields !! "containerPort"%string);
      [apply validateContainerPort_returns|by apply returns_Errorf].
  - destruct (fields !! "protocol"%string);
      [apply validateProtocol_returns|by apply returns_ret].
Qed.

Lemma TopLevel_validateHTTPGetAction_returns node :
  wellFormed node = true → returns (TopLevel.validateHTTPGetAction node) (λ _, True).
Proof.
  intros Hw. unfold TopLevel.validateHTTPGetAction.
  destruct (kindIs yaml.MappingNode node) eqn:Hk; simpl; [|by apply returns_Errorf].
  returns_fields Hw Hk fields Hf.
  returns_seq; [returns_leaf|].
  destruct (fields !! "port"%string);
    [apply validateProbePort_returns|by apply returns_Errorf].
Qed.

Lemma TopLevel_validateProbe_returns node :
  wellFormed node = true → returns (TopLevel.validateProbe node) (λ _, True).
Proof.
  intros Hw. unfold TopLevel.validateProbe.
  destruct (kindIs yaml.MappingNode node) eqn:Hk; simpl; [|by apply returns_Errorf].
  returns_fields Hw Hk fields Hf.
  destruct (fields !! "httpGet"%string) as [n|] eqn:E; [|by apply returns_Errorf].
  apply TopLevel_validateHTTPGetAction_returns. by apply (Hf _ _ E).
Qed.

Lemma TopLevel_validateContainers_body_returns node names :
  wellFormed node = true →
  returns (TopLevel.validateContainers_body node names) (λ _, True).
Proof.
  intros Hw. unfold TopLevel.validateContainers_body.
  destruct (kindIs yaml.MappingNode node) eqn:Hk; simpl.
  2: { returns_seq; [by apply returns_Errorf|by apply returns_ret]. }
  returns_fields Hw Hk fields Hf.
  apply (returns_bind _ _ (λ _, True)).
  { destruct (fields !! "name"%string); [apply validateContainerName_returns|].
    returns_seq; [by apply returns_Errorf|by apply returns_ret]. }
  intros names' _. returns_seq.
  { destruct (fields !! "image"%string);
      [apply validateImage_returns|by apply returns_Errorf]. }
  returns_seq.
  { destruct (fields !! "resources"%string) as [n|] eqn:E;
      [|by apply returns_Errorf].
    apply TopLevel_validateResources_returns. by apply (Hf _ _ E). }
  returns_seq.
  { destruct (fields !! "ports"%string) as [n|] eqn:E; [|by apply returns_ret].
    apply TopLevel_validatePorts_returns. by apply (Hf _ _ E). }
  returns_seq.
  { destruct (fields !! "readinessProbe"%string) as [n|] eqn:E;
      [|by apply returns_ret].
    apply TopLevel_validateProbe_returns. by apply (Hf _ _ E). }
  returns_seq.
  { destruct (fields !! "livenessProbe"%string) as [n|] eqn:E;
      [|by apply returns_ret].
    apply TopLevel_validateProbe_returns. by apply (Hf _ _ E). }
  by apply returns_ret.
Qed.

Lemma TopLevel_validateContainers_returns node :
  wellFormed node = true → returns (TopLevel.validateContainers node) (λ _, True).
Proof.
  intros Hw. unfold TopLevel.validateContainers.
  destruct (kindIs yaml.SequenceNode node); simpl; [|by apply returns_Errorf].
  returns_seq; [|by apply returns_ret].
  apply (returns_forRange (λ _, True)); [|done].
  intros c names Hc _. apply TopLevel_validateContainers_body_returns.
  by apply (wellFormed_content _ _ Hw).
Qed.

Lemma TopLevel_validateSpec_returns node :
  wellFormed node = true → returns (TopLevel.validateSpec node) (λ _, True).
Proof.
  intros Hw. unfold TopLevel.validateSpec.
  destruct (kindIs yaml.MappingNode node) eqn:Hk; simpl; [|by apply returns_Errorf].
  returns_fields Hw Hk fields Hf.
  returns_seq.
  - destruct (fields !! "os"%string); [apply validateOS_returns|by apply returns_ret].
  - destruct (fields !! "containers"%string) as [n|] eqn:E;
      [|by apply returns_Errorf].
    apply TopLevel_validateContainers_returns. by apply (Hf _ _ E).
Qed.

Lemma validateTopLevel_returns root :
  wellFormed root = true → returns (TopLevel.validateTopLevel root) (λ _, True).
Proof.
  intros Hw. unfold TopLevel.validateTopLevel.
  destruct (yaml.Content root) as [|doc rest] eqn:Ec; [by apply returns_Errorf|].
  assert (wellFormed doc = true) as Hd.
  { apply (wellFormed_content root); [done|]. rewrite Ec. set_solver. }
  destruct (kindIs yaml.MappingNode doc) eqn:Hk; simpl; [|by apply returns_Errorf].
  returns_fields Hd Hk fields Hf.
  returns_seq.
  { destruct (fields !! "apiVersion"%string);
      [apply TopLevel_validateAPIVersion_returns|by apply returns_Errorf]. }
  returns_seq.
  { destruct (fields !! "kind"%string);
      [apply TopLevel_validateKind_returns|by apply returns_Errorf]. }
  returns_seq.
  { destruct (fields !! "metadata"%string) as [n|] eqn:E;
      [|by apply returns_Errorf].
    apply TopLevel_validateMetadata_returns. by apply (Hf _ _ E). }
  destruct (fields !! "spec"%string) as [n|] eqn:E; [|by apply returns_Errorf].
  apply TopLevel_validateSpec_returns. by apply (Hf _ _ E).
Qed.

(** X6.  [Validate] of the second document of src/main.go returns for
    every tree as the parser builds it (every mapping with a value for each
    key), the tree without a document included: no index it reads is out
    of range. *)
Theorem TopLevel_Validate_returns (root : Node) (fn : string) :
  wellFormed root = true → is_Some (stderr (TopLevel.Validate root) fn).
Proof.
  intros Hw. apply (returns_stderr _ (λ _, True)). unfold TopLevel.Validate.
  returns_seq; [by apply validateTopLevel_returns|].
  intros v. by eexists _, _.
Qed.

Lemma TopLevel_Validate_returns_witness :
  is_Some (stderr (TopLevel.Validate (yaml.mkNode yaml.ZeroKind "" 0 [])) "pod.yaml").
Proof.
  exact (TopLevel_Validate_returns (yaml.mkNode yaml.ZeroKind "" 0 []) "pod.yaml"
           eq_refl).
Defined.

(** ** The result of [Validate] *)



(** ** The names of the containers seen so far *)

(** X14.  [validateContainerName] and the map of names: a call prints one
    line or none.  When it prints none it has added the name to the map,
    and from then on every scalar of the same text is reported as not
    unique, with that one line, and leaves the map as it is.  When it
    prints a line the map is unchanged: a name that is rejected, for its
    kind, its format or as a duplicate, is never added. *)
Theorem validateContainerName_registry (node : Node) (names names' : gmap string bool)
    (fn : string) (es : list string) :
  out (validateContainerName node names) fn = Some (names', es) →
  ((es = [] ∧ names' = <[yaml.Value node := true]> names)
   ∨ (∃ msg, es = [errorLine fn (yaml.Line node) msg] ∧ names' = names))
  ∧ (es = [] →
     ∀ again seen,
       yaml.Kind again = yaml.ScalarNode → yaml.Value again = yaml.Value node →
       registered seen (yaml.Value node) = true →
       out (validateContainerName again seen) fn
       = Some (seen, [errorLine fn (yaml.Line again)
                        (uniquenessMessage (yaml.Value node))])).
Proof.
  unfold validateContainerName, registered.
  destruct (kindIs yaml.ScalarNode node) eqn:Hk; cbn [negb].
  2: { intros [= <- <-]. split; [right; by eexists|done]. }
  destruct (yaml.Value node == "") eqn:He.
  { intros [= <- <-]. split; [right; by eexists|done]. }
  destruct (MatchString snakeCaseRegex (yaml.Value node)) eqn:Hm; cbn [negb].
  2: { intros [= <- <-]. split; [right; by eexists|done]. }
  destruct (default false (names !! yaml.Value node)) eqn:Hd.
  { intros [= <- <-]. split; [right; by eexists|done]. }
  intros [= <- <-]. split; [by left|]. intros _ again seen Ha Hv Hs.
  unfold kindIs. rewrite bool_decide_eq_true_2 by done.
  rewrite Hv, He, Hm, Hs. done.
Qed.

Lemma validateContainerName_registry_witness :
  out (validateContainerName (scalar 12 "web") (<["web"%string := true]> ∅)) "pod.yaml"
  = Some (<["web"%string := true]> ∅, ["pod.yaml:12 container name 'web' is not unique"]).
Proof.
  assert (out (validateContainerName (scalar 7 "web") ∅) "pod.yaml"
          = Some (<["web"%string := true]> ∅, [])) as H by (vm_compute; reflexivity).
  apply (proj2 (validateContainerName_registry (scalar 7 "web") ∅
                  (<["web"%string := true]> ∅) "pod.yaml" [] H) eq_refl
           (scalar 12 "web")); vm_compute; reflexivity.
Defined.

(** ** Containers with names of their own *)

Lemma collectFields_logs P content : logs P (TopLevel.collectFields content).
Proof. unfold TopLevel.collectFields. repeat logs_step. Qed.

#[global] Hint Resolve collectFields_logs : logs.

Lemma TopLevel_validateCPU_logs node prefix :
  prefix = "requests"%string ∨ prefix = "limits"%string →
  logs otherMessage (TopLevel.validateCPU node prefix).
Proof. intros [-> | ->]; unfold TopLevel.validateCPU; logs_auto. Qed.

Lemma TopLevel_validateResourceRequirements_logs node prefix :
  prefix = "requests"%string ∨ prefix = "limits"%string →
  logs otherMessage (TopLevel.validateResourceRequirements node prefix).
Proof.
  intros Hp. unfold TopLevel.validateResourceRequirements.
  pose proof (λ n, validateMemory_logs n prefix Hp).
  pose proof (λ n, TopLevel_validateCPU_logs n prefix Hp).
  destruct Hp as [-> | ->]; logs_auto.
Qed.

Lemma TopLevel_validateResources_logs node :
  logs otherMessage (TopLevel.validateResources node).
Proof.
  unfold TopLevel.validateResources.
  pose proof (λ n, TopLevel_validateResourceRequirements_logs n "requests"
                     (or_introl eq_refl)).
  pose proof (λ n, TopLevel_validateResourceRequirements_logs n "limits"
                     (or_intror eq_refl)).
  logs_auto.
Qed.

Lemma TopLevel_validatePorts_logs node : logs otherMessage (TopLevel.validatePorts node).
Proof. unfold TopLevel.validatePorts. logs_auto. Qed.

Lemma TopLevel_validateHTTPGetAction_logs node :
  logs otherMessage (TopLevel.validateHTTPGetAction node).
Proof. unfold TopLevel.validateHTTPGetAction. logs_auto. Qed.

#[global] Hint Resolve TopLevel_validateHTTPGetAction_logs : logs.

Lemma TopLevel_validateProbe_logs node : logs otherMessage (TopLevel.validateProbe node).
Proof. unfold TopLevel.validateProbe. logs_auto. Qed.

Lemma inlineStep_other fn key value es :
  inlineStep fn key value = Some es → Forall (lineWith otherMessage fn) es.
Proof.
  unfold inlineStep. destruct (yaml.Value key == "ports").
  { apply logs_stderr. auto with logs. }
  destruct (_ || _).
  { apply logs_stderr. auto with logs. }
  by intros [= <-].
Qed.

Lemma inlineLines_other fn content es :
  inlineLines fn content = Some es → Forall (lineWith otherMessage fn) es.
Proof.
  revert es. induction content as [|x|k v rest IH] using pairs_ind; intros es.
  - by intros [= <-].
  - done.
  - cbn [inlineLines].
    destruct (inlineStep fn k v) as [es1|] eqn:E1; [|done].
    destruct (inlineLines fn rest) as [es2|]; [|done]. simpl. intros [= <-].
    apply Forall_app. split; [by eapply inlineStep_other|by apply IH].
Qed.

Lemma requiredLines_other fn what validate field es :
  (∀ n, logs otherMessage (validate n)) → otherMessage (what +:+ " is required") →
  requiredLines fn what validate field = Some es →
  Forall (lineWith otherMessage fn) es.
Proof.
  intros Hv Hw. destruct field as [n|]; simpl.
  - by apply logs_stderr.
  - intros [= <-]. constructor; [|done]. by apply lineWith_required.
Qed.

Lemma optionalLines_other fn validate field es :
  (∀ n, logs otherMessage (validate n)) →
  optionalLines fn validate field = Some es →
  Forall (lineWith otherMessage fn) es.
Proof.
  intros Hv. destruct field as [n|]; simpl; [by apply logs_stderr|by intros [= <-]].
Qed.

(** The check of a name that is not among the names: its lines are other
    than the one of uniqueness, and it adds no name but this one. *)
Lemma nameLines_fresh fn names field names' es :
  nameLines fn names field = Some (names', es) →
  (∀ n, field = Some n → registered names (yaml.Value n) = false) →
  Forall (lineWith otherMessage fn) es
  ∧ ∀ k, registered names' k = true →
         registered names k = true ∨ yaml.Value <$> field = Some k.
Proof.
  destruct field as [n|]; simpl.
  2: { intros [= <- <-] _. split; [|auto]. constructor; [|done].
       by apply (lineWith_required otherMessage fn "container name"). }
  intros Ho Hf. specialize (Hf n eq_refl). revert Ho.
  unfold validateContainerName, registered in *. rewrite Hf.
  repeat case_match; intros [= <- <-];
    try (split; [|auto]; constructor; [|done]; eexists _, _; by split).
  split; [done|]. intros k.
  destruct (decide (k = yaml.Value n)) as [->|Hne]; [auto|].
  rewrite lookup_insert_ne by done. auto.
Qed.

Lemma Document_validateContainer_fresh c names fn names' es :
  out (Document.validateContainer c names) fn = Some (names', es) →
  (∀ n, containerName c = Some n → registered names n = false) →
  Forall (lineWith otherMessage fn) es
  ∧ ∀ k, registered names' k = true →
         registered names k = true ∨ containerName c = Some k.
Proof.
  rewrite Document_validateContainer_out. unfold containerName.
  destruct (inlineLines fn (yaml.Content c)) as [inl|] eqn:Ei; [|done]. simpl.
  destruct (nameLines fn names _) as [[names1 nm]|] eqn:En; [|done]. simpl.
  destruct (requiredLines fn "container image" _ _) as [im|] eqn:Em; [|done]. simpl.
  destruct (requiredLines fn "container resources" _ _) as [rs|] eqn:Er; [|done].
  simpl. intros [= <- <-] Hf.
  apply nameLines_fresh in En as [Hnm Hk].
  2: { intros n Hn. apply Hf. by rewrite Hn. }
  split; [|done]. repeat (apply Forall_app; split); try done.
  - by eapply inlineLines_other.
  - eapply requiredLines_other; [| |done]; [auto with logs|done].
  - eapply requiredLines_other; [| |done]; [auto with logs|done].
Qed.

Lemma TopLevel_validateContainers_body_fresh c names fn names' es :
  out (TopLevel.validateContainers_body c names) fn = Some (names', es) →
  (∀ n, containerName c = Some n → registered names n = false) →
  Forall (lineWith otherMessage fn) es
  ∧ ∀ k, registered names' k = true →
         registered names k = true ∨ containerName c = Some k.
Proof.
  destruct (kindIs yaml.MappingNode c) eqn:Hk.
  2: { unfold TopLevel.validateContainers_body. rewrite Hk.
       intros [= <- <-] _. split; [|auto]. constructor; [|done].
       eexists _, _. by split. }
  rewrite TopLevel_validateContainers_body_out by done. unfold containerName.
  destruct (Nat.even _); [|done].
  destruct (nameLines fn names _) as [[names1 nm]|] eqn:En; [|done]. simpl.
  destruct (requiredLines fn "container image" _ _) as [im|] eqn:Em; [|done]. simpl.
  destruct (requiredLines fn "container resources" _ _) as [rs|] eqn:Er; [|done].
  simpl.
  destruct (optionalLines fn TopLevel.validatePorts _) as [ps|] eqn:Ep; [|done].
  simpl.
  destruct (optionalLines fn TopLevel.validateProbe (lastValue "readinessProbe" _))
    as [rp|] eqn:Erp; [|done]. simpl.
  destruct (optionalLines fn TopLevel.validateProbe (lastValue "livenessProbe" _))
    as [lp|] eqn:Elp; [|done]. simpl.
  intros [= <- <-] Hf.
  apply nameLines_fresh in En as [Hnm Hn].
  2: { intros n Hn. apply Hf. by rewrite Hn. }
  split; [|done]. repeat (apply Forall_app; split); try done.
  - eapply requiredLines_other; [| |done]; [auto with logs|done].
  - eapply requiredLines_other; [| |done]; [apply TopLevel_validateResources_logs|done].
  - eapply optionalLines_other; [|done]. apply TopLevel_validatePorts_logs.
  - eapply optionalLines_other; [|done]. apply TopLevel_validateProbe_logs.
  - eapply optionalLines_other; [|done]. apply TopLevel_validateProbe_logs.
Qed.

Lemma containers_loop_fresh (body : Node → gmap string bool → M (gmap string bool)) fn :
  (∀ c names, framed (body c names)) →
  (∀ c names names' es,
     out (body c names) fn = Some (names', es) →
     (∀ n, containerName c = Some n → registered names n = false) →
     Forall (lineWith otherMessage fn) es
     ∧ ∀ k, registered names' k = true →
            registered names k = true ∨ containerName c = Some k) →
  ∀ content names names' es,
    NoDup (containerNames content) →
    (∀ k, registered names k = true → k ∉ containerNames content) →
    out (forRange body content names) fn = Some (names', es) →
    Forall (lineWith otherMessage fn) es.
Proof.
  intros Hframed Hbody. induction content as [|c rest IH]; intros names names' es.
  - by intros _ _ [= <- <-].
  - intros Hnd Hreg. cbn [forRange].
    rewrite out_bind by (first [apply Hframed | intros; by apply framed_forRange]).
    destruct (out (body c names) fn) as [[names1 es1]|] eqn:E1; [|done].
    destruct (out (forRange body rest names1) fn) as [[names2 es2]|] eqn:E2; [|done].
    intros [= <- <-].
    unfold containerNames in Hnd, Hreg. cbn [omap list_omap] in Hnd, Hreg.
    fold (containerNames rest) in Hnd, Hreg.
    destruct (Hbody _ _ _ _ E1) as [H1 Hk].
    { intros n Hn. rewrite Hn in Hreg.
      destruct (registered names n) eqn:Er; [|done].
      destruct (Hreg n Er). apply elem_of_cons. by left. }
    apply Forall_app. split; [done|].
    apply (IH names1 names2); [by destruct (containerName c); [inversion Hnd|]| |done].
    intros k [Hr|Hc]%Hk.
    + apply Hreg in Hr. destruct (containerName c); [|done].
      intros H. apply Hr, elem_of_cons. by right.
    + rewrite Hc in Hnd. by inversion Hnd.
Qed.

(** X15.  Containers that all declare different names get no line "is not
    unique" from either [Validator], however many they are and whatever
    else is wrong with them: that line is printed only when the name of a
    container, the last value of its key [name], is also the name of
    another one. *)
Theorem distinct_names_pass (node : Node) (fn : string) (es : list string) :
  NoDup (containerNames (yaml.Content node)) →
  stderr (Document.validateContainers node) fn = Some es
  ∨ stderr (TopLevel.validateContainers node) fn = Some es →
  ∀ s, s ∈ es → ¬ uniquenessLine fn s.
Proof.
  intros Hnd Hes s Hs. apply otherMessage_not_uniqueness. revert s Hs.
  apply Forall_forall. rewrite !stderr_out in Hes.
  unfold Document.validateContainers, TopLevel.validateContainers in Hes.
  destruct (kindIs yaml.SequenceNode node); cbn [negb] in Hes.
  2: { assert (es = [errorLine fn (yaml.Line node) "containers must be sequence"])
         as -> by (by destruct Hes as [[= <-]|[= <-]]).
       constructor; [|done]. eexists _, _. by split. }
  destruct Hes as [Hes|Hes].
  - rewrite out_bind in Hes by framed_auto.
    match type of Hes with context [out ?m fn] =>
      destruct (out m fn) as [[names' es']|] eqn:E; [|done] end.
    simpl in Hes. injection Hes as <-. rewrite app_nil_r.
    eapply containers_loop_fresh; [| |exact Hnd| |exact E].
    + intros c names. cbv beta. framed_auto.
    + intros c names names1 es1. cbv beta.
      destruct (kindIs yaml.MappingNode c); cbn [negb];
        [apply Document_validateContainer_fresh|].
      intros [= <- <-] _. split; [|auto]. constructor; [|done].
      eexists _, _. by split.
    + intros k. unfold registered. by rewrite lookup_empty.
  - rewrite out_bind in Hes by framed_auto.
    match type of Hes with context [out ?m fn] =>
      destruct (out m fn) as [[names' es']|] eqn:E; [|done] end.
    simpl in Hes. injection Hes as <-. rewrite app_nil_r.
    eapply containers_loop_fresh; [| |exact Hnd| |exact E].
    + intros c names. auto with framed.
    + intros c names names1 es1. apply TopLevel_validateContainers_body_fresh.
    + intros k. unfold registered. by rewrite lookup_empty.
Qed.

Lemma distinct_names_pass_witness :
  Forall (λ s, ¬ uniquenessLine "pod.yaml" s)
    ["pod.yaml container image is required";
     "pod.yaml container resources is required";
     "pod.yaml container image is required";
     "pod.yaml container resources is required"]%string.
Proof.
  apply Forall_forall. apply (distinct_names_pass webAndDb "pod.yaml").
  - apply (bool_decide_unpack _). vm_compute. reflexivity.
  - left. vm_compute. reflexivity.
Defined.

(** ** The probes, in the two [Validator]s *)

Lemma framed_ext {A} (m m' : M A) :
  framed m → framed m' → (∀ fn, out m fn = out m' fn) → ∀ v, m v = m' v.
Proof. intros Hm Hm' E v. by rewrite (Hm v), (Hm' v), E. Qed.

(** A scan that keeps the value of the key [key] ends with the last one. *)
Lemma scanFor_out key content (s : option Node) fn :
  out (forPairs (λ k v (s : option Node),
                   if yaml.Value k == key then ret (Some v) else ret s) content s) fn
  = if Nat.even (length content)
    then Some (orElse (lastValue key content) s, [])
    else None.
Proof.
  revert s. induction content as [|x|k v rest IH] using pairs_ind; intros s; [done..|].
  cbn [forPairs lastValue length Nat.even].
  rewrite out_bind by framed_auto.
  destruct (yaml.Value k == key); rewrite out_ret, IH;
    destruct (Nat.even (length rest)); try done;
    by destruct (lastValue key rest).
Qed.

Lemma scanForPathAndPort_out content (pathNode portNode : option Node) fn :
  out (forPairs (λ key value '(pathNode, portNode),
                   if yaml.Value key == "path" then ret (Some value, portNode)
                   else if yaml.Value key == "port" then ret (pathNode, Some value)
                   else ret (pathNode, portNode))
         content (pathNode, portNode)) fn
  = if Nat.even (length content)
    then Some ((orElse (lastValue "path" content) pathNode,
                orElse (lastValue "port" content) portNode), [])
    else None.
Proof.
  revert pathNode portNode.
  induction content as [|x|k v rest IH] using pairs_ind; intros pathNode portNode;
    [done..|].
  cbn [forPairs lastValue length Nat.even].
  rewrite out_bind by framed_auto.
  destruct (String.eqb_spec (yaml.Value k) "path") as [E|_].
  { rewrite out_ret, IH, E. destruct (Nat.even (length rest)); [|done].
    by destruct (lastValue "path" rest), (lastValue "port" rest). }
  destruct (yaml.Value k == "port"); rewrite out_ret, IH;
    destruct (Nat.even (length rest)); try done;
    by destruct (lastValue "path" rest), (lastValue "port" rest).
Qed.

Lemma validateHTTPGetAction_out_agree node fn :
  out (Document.validateHTTPGetAction node) fn
  = out (TopLevel.validateHTTPGetAction node) fn.
Proof.
  unfold Document.validateHTTPGetAction, TopLevel.validateHTTPGetAction.
  destruct (kindIs yaml.MappingNode node); cbn [negb]; [|done].
  rewrite !out_bind by framed_auto.
  rewrite scanForPathAndPort_out, collectFields_out.
  destruct (Nat.even (length (yaml.Content node))); [|done].
  by rewrite !collectFields_lookup, !orElse_None.
Qed.

Lemma validateProbe_out_agree node fn :
  out (Document.validateProbe node) fn = out (TopLevel.validateProbe node) fn.
Proof.
  unfold Document.validateProbe, TopLevel.validateProbe.
  destruct (kindIs yaml.MappingNode node); cbn [negb]; [|done].
  rewrite !out_bind by framed_auto.
  rewrite scanFor_out, collectFields_out.
  destruct (Nat.even (length (yaml.Content node))); [|done].
  rewrite !collectFields_lookup, !orElse_None.
  destruct (lastValue "httpGet" (yaml.Content node)); [|done].
  by rewrite validateHTTPGetAction_out_agree.
Qed.

(** X24.  The two [Validator]s check a probe alike.  On every node and
    whatever the collector holds, [validateProbe] and
    [validateHTTPGetAction] of part_000 do what those of the second
    document of src/main.go do: they append the same lines in the same
    order, or panic alike.  The scan of part_000, which keeps the last
    [httpGet], [path] and [port] it meets, amounts to the lookup in the
    map [fields]. *)
Theorem probes_agree (node : Node) (v : Validator) :
  Document.validateProbe node v = TopLevel.validateProbe node v
  ∧ Document.validateHTTPGetAction node v = TopLevel.validateHTTPGetAction node v.
Proof.
  split; apply framed_ext; auto with framed; intros fn.
  - apply validateProbe_out_agree.
  - apply validateHTTPGetAction_out_agree.
Qed.

(** ** The map of fields, and a key without a value *)

(** X25.  The map [fields] that every function of the second document of
    src/main.go starts with is the map [parseMapping] builds for
    [validatePod]: each key text with the last of its values.  Filling it
    prints nothing.  The two part ways on a mapping that ends with a key
    without a value: the loop of the second document reads past the end
    and panics, [parseMapping] leaves the key out. *)
Theorem fields_of_a_mapping (value : string) (line : Z) (content : list Node)
    (key : Node) (v : Validator) :
  Nat.even (length content) = true →
  TopLevel.collectFields content v
  = Some (PodFields.parseMapping (yaml.mkNode yaml.MappingNode value line content), v)
  ∧ (∀ k, PodFields.parseMapping (yaml.mkNode yaml.MappingNode value line content) !! k
          = lastValue k content)
  ∧ TopLevel.collectFields (content ++ [key]) v = None
  ∧ PodFields.parseMapping (yaml.mkNode yaml.MappingNode value line (content ++ [key]))
    = PodFields.parseMapping (yaml.mkNode yaml.MappingNode value line content).
Proof.
  intros He. rewrite !collectFields_run, He.
  replace (Nat.even (length (content ++ [key]))) with false.
  2: { rewrite length_app. cbn [length].
       by rewrite Nat.add_1_r, Nat.even_succ, <- Nat.negb_even, He. }
  repeat split.
  - intros k. by apply parseMapping_lookup.
  - apply map_eq. intros k. rewrite !parseMapping_lookup by done. simpl.
    rewrite lastValue_app by done. done.
Qed.

Lemma fields_of_a_mapping_witness :
  TopLevel.collectFields [scalar 1 "kind"; scalar 1 "Pod"; scalar 2 "spec"]
    (NewValidator "pod.yaml") = None
  ∧ PodFields.parseMapping
      (mapping 1 [scalar 1 "kind"; scalar 1 "Pod"; scalar 2 "spec"])
    = PodFields.parseMapping (mapping 1 [scalar 1 "kind"; scalar 1 "Pod"]).
Proof.
  apply (fields_of_a_mapping "" 1 [scalar 1 "kind"; scalar 1 "Pod"]
           (scalar 2 "spec") (NewValidator "pod.yaml")).
  reflexivity.
Defined.

(** ** The number of CPUs *)

(** X21.  A [cpu] that [strconv.Atoi] reads as an integer is accepted by
    the two [Validator]s whatever the integer, zero and the negative ones
    included: they test that it is an integer and nothing more.
    [validateResourceSpec] of [validatePod] reports every [cpu] that is
    zero or less as out of range, at the line of the value. *)
Theorem cpu_range (node spec : Node) (prefix specName fn : string) (cpu : Z)
    (errors : list PodFields.ValidationError) :
  yaml.Kind node = yaml.ScalarNode → Atoi (yaml.Value node) = (cpu, None) →
  yaml.Kind spec = yaml.MappingNode →
  lastValue "cpu" (yaml.Content spec) = Some node →
  lastValue "memory" (yaml.Content spec) = None →
  stderr (Document.validateCPU node) fn = Some []
  ∧ stderr (TopLevel.validateCPU node prefix) fn = Some []
  ∧ (0 < cpu → PodFields.validateResourceSpec spec specName fn errors = errors)
  ∧ (cpu ≤ 0 →
     PodFields.validateResourceSpec spec specName fn errors
     = errors ++ [{| PodFields.File := fn; PodFields.Line := yaml.Line node;
                     PodFields.Message := "containers.resources." +:+ specName
                                          +:+ ".cpu value out of range" |}]).
Proof.
  intros Hk Ha Hs Hc Hm.
  unfold stderr, Document.validateCPU, TopLevel.validateCPU, kindIs.
  rewrite bool_decide_eq_true_2 by done. rewrite Ha. simpl.
  split; [done|]. split; [done|].
  unfold PodFields.validateResourceSpec, PodFields.hasField, PodFields.getIntValue,
    PodFields.getFieldLine, kindIs.
  rewrite !parseMapping_lookup by done. rewrite Hc, Hm, Ha.
  rewrite bool_decide_eq_true_2 by done.
  rewrite (bool_decide_eq_true_2 (is_Some (Some node))) by done.
  rewrite (bool_decide_eq_false_2 (is_Some None)) by (by intros [? ?]).
  simpl. split; intros Hcpu.
  - by rewrite (proj2 (Z.leb_gt cpu 0)) by lia.
  - by rewrite (proj2 (Z.leb_le cpu 0)) by lia.
Qed.

Lemma cpu_range_witness :
  stderr (Document.validateCPU (scalar 11 "0")) "pod.yaml" = Some []
  ∧ stderr (TopLevel.validateCPU (scalar 11 "0") "requests") "pod.yaml" = Some []
  ∧ PodFields.validateResourceSpec
      (mapping 11 [scalar 11 "cpu"; scalar 11 "0"]) "requests" "pod.yaml" []
    = [{| PodFields.File := "pod.yaml"; PodFields.Line := 11;
          PodFields.Message := "containers.resources.requests.cpu value out of range" |}].
Proof.
  pose proof (cpu_range (scalar 11 "0") (mapping 11 [scalar 11 "cpu"; scalar 11 "0"])
                "requests" "requests" "pod.yaml" 0 []
                eq_refl eq_refl eq_refl eq_refl eq_refl) as (H1 & H2 & _ & H3).
  split; [exact H1|]. split; [exact H2|]. apply H3. lia.
Defined.

(** ** Labels *)

(** X23.  For a mapping of labels, [validateLabels] prints one line for
    each key and each value that is not a scalar, and so none exactly when
    all of them are scalars. *)
Theorem labels_lines (node : Node) (fn : string) :
  yaml.Kind node = yaml.MappingNode →
  Nat.even (length (yaml.Content node)) = true →
  ∃ es, stderr (validateLabels node) fn = Some es
        ∧ length es = length (notScalars (yaml.Content node))
        ∧ (es = [] ↔ Forall (λ n, yaml.Kind n = yaml.ScalarNode) (yaml.Content node)).
Proof.
  intros Hk He.
  enough (∃ es, stderr (validateLabels node) fn = Some es
                ∧ length es = length (notScalars (yaml.Content node)))
    as (es & Hes & Hl).
  { exists es. split; [done|]. split; [done|].
    rewrite <- length_zero_iff_nil, Hl, length_zero_iff_nil.
    unfold notScalars. generalize (yaml.Content node). intros l.
    induction l as [|n l IH]; [done|]. rewrite filter_cons, Forall_cons.
    destruct (decide (yaml.Kind n ≠ yaml.ScalarNode)) as [Hn|Hn].
    - split; [done|]. by intros [? _].
    - apply dec_stable in Hn. rewrite IH. tauto. }
  rewrite stderr_out. unfold validateLabels, kindIs.
  rewrite bool_decide_eq_true_2 by done. cbn [negb].
  match goal with |- context [forPairs ?b] => set (body := b) end.
  assert (∀ k v s, framed (body k v s)) as Hframed
    by (intros; subst body; cbv beta; framed_auto).
  assert (∀ k v, ∃ es, out (body k v tt) fn = Some (tt, es)
                       ∧ length es = length (notScalars [k; v])) as Hstep.
  { intros k v. subst body. cbv beta.
    unfold notScalars. rewrite !filter_cons, filter_nil.
    destruct (decide (yaml.Kind k ≠ yaml.ScalarNode)) as [Ek|Ek],
      (decide (yaml.Kind v ≠ yaml.ScalarNode)) as [Ev|Ev];
      try apply dec_stable in Ek; try apply dec_stable in Ev;
      rewrite ?(bool_decide_eq_false_2 _ Ek), ?(bool_decide_eq_false_2 _ Ev),
        ?(bool_decide_eq_true_2 _ Ek), ?(bool_decide_eq_true_2 _ Ev);
      by eexists. }
  clearbody body. revert He. generalize (yaml.Content node). intros content.
  induction content as [|x|k v rest IH] using pairs_ind; intros He.
  - by exists [].
  - done.
  - cbn [forPairs].
    rewrite out_bind by (first [apply Hframed | intros; by apply framed_forPairs]).
    destruct (Hstep k v) as (es1 & -> & Hl1).
    destruct (IH He) as (es & Hes & Hl).
    destruct (out (forPairs body rest tt) fn) as [[[] es2]|]; [|done].
    simpl in Hes. injection Hes as ->. exists (es1 ++ es). split; [done|].
    change (k :: v :: rest) with ([k; v] ++ rest). unfold notScalars in *.
    by rewrite filter_app, !length_app, Hl1, Hl.
Qed.

Lemma labels_lines_witness :
  ∃ es, stderr (validateLabels
                  (mapping 5 [scalar 5 "app"; scalar 5 "web";
                              scalar 6 "tier"; sequence 6 []])) "pod.yaml" = Some es
        ∧ length es = 1%nat
        ∧ (es = [] ↔ Forall (λ n, yaml.Kind n = yaml.ScalarNode)
                       [scalar 5 "app"; scalar 5 "web"; scalar 6 "tier"; sequence 6 []]).
Proof.
  exact (labels_lines (mapping 5 [scalar 5 "app"; scalar 5 "web";
                                  scalar 6 "tier"; sequence 6 []]) "pod.yaml"
           eq_refl eq_refl).
Defined.

(** ** A line can be read back *)

Lemma itoa_inj a b : itoa a = itoa b → a = b.
Proof.
  unfold itoa. intros E. apply DecimalZ.to_int_inj.
  assert (∀ z, NilZero.int_of_string (NilZero.string_of_int (Z.to_int z))
               = Some (Z.to_int z)) as H.
  { intros z. apply NilZero.isi; destruct z; simpl; try discriminate;
      intros [= H]; by apply DecimalPos.Unsigned.to_uint_nonnil in H. }
  pose proof (H a) as Ha. rewrite E, H in Ha. by injection Ha.
Qed.

(** X26.  The line [Errorf] appends, and the one [String] renders for a
    [ValidationError], can be read back: two lines of one file that are
    equal carry the same message and, when a line number is printed, the
    same line number.  The line numbers that are not printed, zero and
    below, are the only ones a line does not tell apart. *)
Theorem errorLine_inj (fn : string) (line line' : Z) (msg msg' : string) :
  errorLine fn line msg = errorLine fn line' msg' →
  msg = msg'
  ∧ (line = line' ∨ (line ≤ 0 ∧ line' ≤ 0))
  ∧ PodFields.String_ {| PodFields.File := fn; PodFields.Line := line;
                         PodFields.Message := msg |}
    = errorLine fn line msg.
Proof.
  intros E. split; [by apply errorLine_msg_inj in E|]. split; [|done].
  unfold errorLine in E.
  destruct (Z.ltb_spec 0 line), (Z.ltb_spec 0 line');
    apply append_inj_l in E; simpl in E.
  - left. injection E as E.
    apply noSpace_split in E as [E _]; [|apply itoa_noSpace..].
    by apply itoa_inj.
  - discriminate E.
  - discriminate E.
  - right. lia.
Qed.

Lemma errorLine_inj_witness :
  "name is required"%string = "name is required"%string
  ∧ (0 = -1 ∨ (0 ≤ 0 ∧ -1 ≤ 0))
  ∧ PodFields.String_ {| PodFields.File := "pod.yaml"; PodFields.Line := 0;
                         PodFields.Message := "name is required" |}
    = errorLine "pod.yaml" 0 "name is required".
Proof.
  exact (errorLine_inj "pod.yaml" 0 (-1) "name is required" "name is required" eq_refl).
Defined.

(** ** The messages of part_000 *)

Ltac listed := apply (bool_decide_unpack _); vm_compute; exact I.

Ltac catalogue :=
  solve
    [ apply message_fixed; listed
    | refine (message_unsupported "apiVersion" _ _); listed
    | refine (message_unsupported "kind" _ _); listed
    | refine (message_unsupported "os" _ _); listed
    | refine (message_unsupported "protocol" _ _); listed
    | refine (message_format "container name" _ _); listed
    | refine (message_format "image" _ _); listed
    | refine (message_format "requests.memory" _ _); listed
    | refine (message_format "limits.memory" _ _); listed
    | apply message_unique ].

Ltac logs_catalogue :=
  intros;
  repeat first [logs_step | solve [auto with catalogue] | catalogue].

Create HintDb catalogue.

Lemma validateLabels_messages node : logs DocumentMessage (validateLabels node).
Proof. unfold validateLabels. logs_catalogue. Qed.

Lemma validateOS_messages node : logs DocumentMessage (validateOS node).
Proof. unfold validateOS. logs_catalogue. Qed.

Lemma validateContainerName_messages node names :
  logs DocumentMessage (validateContainerName node names).
Proof. unfold validateContainerName. logs_catalogue. Qed.

Lemma validateImage_messages node : logs DocumentMessage (validateImage node).
Proof. unfold validateImage. logs_catalogue. Qed.

Lemma validateMemory_messages node prefix :
  prefix = "requests"%string ∨ prefix = "limits"%string →
  logs DocumentMessage (validateMemory node prefix).
Proof. intros [-> | ->]; unfold validateMemory; logs_catalogue. Qed.

Lemma validateContainerPort_messages node :
  logs DocumentMessage (validateContainerPort node).
Proof. unfold validateContainerPort. logs_catalogue. Qed.

Lemma validateProtocol_messages node : logs DocumentMessage (validateProtocol node).
Proof. unfold validateProtocol. logs_catalogue. Qed.

Lemma validateProbePort_messages node : logs DocumentMessage (validateProbePort node).
Proof. unfold validateProbePort. logs_catalogue. Qed.

Lemma validateAPIVersion_messages node :
  logs DocumentMessage (Document.validateAPIVersion node).
Proof. unfold Document.validateAPIVersion. logs_catalogue. Qed.

Lemma validateKind_messages node : logs DocumentMessage (Document.validateKind node).
Proof. unfold Document.validateKind. logs_catalogue. Qed.

Lemma validateName_messages node : logs DocumentMessage (Document.validateName node).
Proof. unfold Document.validateName. logs_catalogue. Qed.

Lemma validateCPU_messages node : logs DocumentMessage (Document.validateCPU node).
Proof. unfold Document.validateCPU. logs_catalogue. Qed.

Lemma validatePath_messages node : logs DocumentMessage (Document.validatePath node).
Proof. unfold Document.validatePath. logs_catalogue. Qed.

#[global] Hint Resolve validateLabels_messages validateOS_messages
  validateContainerName_messages validateImage_messages
  validateContainerPort_messages validateProtocol_messages
  validateProbePort_messages validateAPIVersion_messages validateKind_messages
  validateName_messages validateCPU_messages validatePath_messages : catalogue.

Lemma validateMetadata_messages node :
  logs DocumentMessage (Document.validateMetadata node).
Proof. unfold Document.validateMetadata. logs_catalogue. Qed.

Lemma validateResourceRequirements_messages node prefix :
  prefix = "requests"%string ∨ prefix = "limits"%string →
  logs DocumentMessage (Document.validateResourceRequirements node prefix).
Proof.
  intros Hp. unfold Document.validateResourceRequirements.
  pose proof (λ n, validateMemory_messages n prefix Hp).
  destruct Hp as [-> | ->]; logs_catalogue.
Qed.

Lemma validateResources_messages node :
  logs DocumentMessage (Document.validateResources node).
Proof.
  unfold Document.validateResources.
  pose proof (λ n, validateResourceRequirements_messages n "requests"
                     (or_introl eq_refl)).
  pose proof (λ n, validateResourceRequirements_messages n "limits"
                     (or_intror eq_refl)).
  logs_catalogue.
Qed.

Lemma validatePorts_messages node : logs DocumentMessage (Document.validatePorts node).
Proof. unfold Document.validatePorts. logs_catalogue. Qed.

Lemma validateHTTPGetAction_messages node :
  logs DocumentMessage (Document.validateHTTPGetAction node).
Proof. unfold Document.validateHTTPGetAction. logs_catalogue. Qed.

#[global] Hint Resolve validateMetadata_messages validateResources_messages
  validatePorts_messages validateHTTPGetAction_messages : catalogue.

Lemma validateProbe_messages node : logs DocumentMessage (Document.validateProbe node).
Proof. unfold Document.validateProbe. logs_catalogue. Qed.

#[global] Hint Resolve validateProbe_messages : catalogue.

Lemma validateContainer_messages node names :
  logs DocumentMessage (Document.validateContainer node names).
Proof.
  unfold Document.validateContainer, Document.validateContainer_scan. logs_catalogue.
Qed.

#[global] Hint Resolve validateContainer_messages : catalogue.

Lemma validateContainers_messages node :
  logs DocumentMessage (Document.validateContainers node).
Proof. unfold Document.validateContainers. logs_catalogue. Qed.

#[global] Hint Resolve validateContainers_messages : catalogue.

Lemma validateSpec_messages node : logs DocumentMessage (Document.validateSpec node).
Proof. unfold Document.validateSpec. logs_catalogue. Qed.

#[global] Hint Resolve validateSpec_messages : catalogue.

Lemma validateDocument_messages node :
  logs DocumentMessage (Document.validateDocument node).
Proof. unfold Document.validateDocument. logs_catalogue. Qed.

Lemma Validate_messages root : logs DocumentMessage (Document.Validate root).
Proof.
  unfold Document.Validate. pose proof validateDocument_messages.
  pose proof (logs_report DocumentMessage). logs_catalogue.
Qed.

(** X12.  Every line [Validate] of part_000 prints is the name of the
    file, a line number when it is positive, and one of the messages of
    [DocumentMessage]: a message of the fixed list, or one of the three
    that quote a value, "has unsupported value", "has invalid format" and
    "is not unique". *)
Theorem Document_Validate_messages (root : Node) (fn : string) (es : list string) :
  stderr (Document.Validate root) fn = Some es →
  Forall (lineWith DocumentMessage fn) es.
Proof. apply logs_stderr, Validate_messages. Qed.

Lemma Document_Validate_messages_witness :
  Forall (lineWith DocumentMessage "pod.yaml")
    ["pod.yaml:3 root must be mapping"%string].
Proof.
  exact (Document_Validate_messages (document (sequence 3 [])) "pod.yaml" _ eq_refl).
Defined.

Lemma requiredField_not_message what :
  what ∈ requiredFields → ¬ DocumentMessage (what +:+ " is required").
Proof.
  intros Hw Hm. inversion Hm as [msg Hin|w v Hin E|w v Hin E|name E]; subst.
  - revert Hin. unfold requiredFields in Hw.
    repeat (apply elem_of_cons in Hw as [->|Hw]); [..|by apply elem_of_nil in Hw];
      apply (bool_decide_unpack _); vm_compute; exact I.
  - unfold requiredFields in Hw.
    repeat (apply elem_of_cons in Hw as [->|Hw]); [..|by apply elem_of_nil in Hw];
      repeat (apply elem_of_cons in Hin as [->|Hin]);
      try (by apply elem_of_nil in Hin); simpl in E; discriminate E.
  - unfold requiredFields in Hw.
    repeat (apply elem_of_cons in Hw as [->|Hw]); [..|by apply elem_of_nil in Hw];
      repeat (apply elem_of_cons in Hin as [->|Hin]);
      try (by apply elem_of_nil in Hin); simpl in E; discriminate E.
  - unfold requiredFields in Hw.
    repeat (apply elem_of_cons in Hw as [->|Hw]); [..|by apply elem_of_nil in Hw];
      simpl in E; discriminate E.
Qed.

(** X13.  [Validate] of part_000 never reports that [apiVersion], [kind],
    [metadata], [spec] or [spec.containers] is required, with or without
    a line number, whatever the manifest lacks. *)
Theorem Document_Validate_never_requires (root : Node) (fn what : string) (line : Z)
    (es : list string) :
  stderr (Document.Validate root) fn = Some es →
  what ∈ requiredFields →
  errorLine fn line (what +:+ " is required") ∉ es.
Proof.
  intros Hes Hw Hin.
  pose proof (logs_stderr _ _ _ _ (Validate_messages root) Hes) as Hall.
  rewrite Forall_forall in Hall.
  destruct (Hall _ Hin) as (line' & msg & E & Hmsg).
  apply errorLine_msg_inj in E. subst msg.
  by apply (requiredField_not_message what).
Qed.

Lemma Document_Validate_never_requires_witness :
  errorLine "pod.yaml" 0 ("spec" +:+ " is required") ∉ ([] : list string).
Proof.
  apply (Document_Validate_never_requires (document (mapping 1 [])) "pod.yaml"
           "spec" 0 [] eq_refl).
  apply (bool_decide_unpack _). vm_compute. exact I.
Defined.

(** ** The required fields, in the two validators of src/main.go *)

Lemma out_stderr_unit (m : M unit) fn : out m fn = (λ es, (tt, es)) <$> stderr m fn.
Proof. unfold out, stderr. by destruct (m (NewValidator fn)) as [[[] v]|]. Qed.

Lemma validateTopLevel_out root doc rest fn :
  yaml.Content root = doc :: rest → yaml.Kind doc = yaml.MappingNode →
  stderr (TopLevel.validateTopLevel root) fn
  = if Nat.even (length (yaml.Content doc)) then
      a ← requiredLines fn "apiVersion" TopLevel.validateAPIVersion
             (lastValue "apiVersion" (yaml.Content doc));
      k ← requiredLines fn "kind" TopLevel.validateKind
             (lastValue "kind" (yaml.Content doc));
      m ← requiredLines fn "metadata" TopLevel.validateMetadata
             (lastValue "metadata" (yaml.Content doc));
      s ← requiredLines fn "spec" TopLevel.validateSpec
             (lastValue "spec" (yaml.Content doc));
      Some (a ++ k ++ m ++ s)
    else None.
Proof.
  intros Hc Hk. rewrite stderr_out. unfold TopLevel.validateTopLevel, kindIs.
  rewrite Hc. rewrite bool_decide_eq_true_2 by done. cbn [negb].
  rewrite out_bind by framed_auto. rewrite collectFields_out.
  destruct (Nat.even (length (yaml.Content doc))); [|done].
  rewrite !collectFields_lookup.
  rewrite out_seq by framed_auto.
  rewrite (stderr_required TopLevel.validateAPIVersion fn "apiVersion").
  destruct (requiredLines fn "apiVersion" _ _) as [a|]; simpl; [|done].
  rewrite out_seq by framed_auto.
  rewrite (stderr_required TopLevel.validateKind fn "kind").
  destruct (requiredLines fn "kind" _ _) as [k|]; simpl; [|done].
  rewrite out_seq by framed_auto.
  rewrite (stderr_required TopLevel.validateMetadata fn "metadata").
  destruct (requiredLines fn "metadata" _ _) as [m|]; simpl; [|done].
  rewrite out_stderr_unit.
  rewrite (stderr_required TopLevel.validateSpec fn "spec").
  by destruct (requiredLines fn "spec" _ _) as [s|].
Qed.

(** X8.  [validateTopLevel], for a root that is a mapping: its lines are
    those of [apiVersion], of [kind], of [metadata] and of [spec], in this
    order wherever the keys stand in the manifest, each field checked on
    the last value of its key or reported as required when there is none.
    [None] on either side is a panic. *)
Theorem validateTopLevel_order (root doc : Node) (rest : list Node) (fn : string) :
  yaml.Content root = doc :: rest → yaml.Kind doc = yaml.MappingNode →
  Nat.even (length (yaml.Content doc)) = true →
  stderr (TopLevel.Validate root) fn
  = (a ← requiredLines fn "apiVersion" TopLevel.validateAPIVersion
            (lastValue "apiVersion" (yaml.Content doc));
     k ← requiredLines fn "kind" TopLevel.validateKind
            (lastValue "kind" (yaml.Content doc));
     m ← requiredLines fn "metadata" TopLevel.validateMetadata
            (lastValue "metadata" (yaml.Content doc));
     s ← requiredLines fn "spec" TopLevel.validateSpec
            (lastValue "spec" (yaml.Content doc));
     Some (a ++ k ++ m ++ s)).
Proof.
  intros Hc Hk He. unfold TopLevel.Validate.
  rewrite stderr_report by auto with framed.
  by rewrite (validateTopLevel_out root doc rest fn Hc Hk), He.
Qed.

Lemma validateTopLevel_order_witness :
  stderr (TopLevel.Validate
            (document (mapping 1 [scalar 1 "spec"; scalar 1 "x";
                                  scalar 2 "kind"; scalar 2 "Job"]))) "pod.yaml"
  = Some ["pod.yaml apiVersion is required";
          "pod.yaml:2 kind has unsupported value 'Job'";
          "pod.yaml metadata is required";
          "pod.yaml:1 spec must be mapping"].
Proof.
  exact (validateTopLevel_order
           (document (mapping 1 [scalar 1 "spec"; scalar 1 "x";
                                 scalar 2 "kind"; scalar 2 "Job"]))
           _ _ "pod.yaml" eq_refl eq_refl eq_refl).
Defined.

Lemma extends_elem (f : list PodFields.ValidationError → list PodFields.ValidationError)
    (errors : list PodFields.ValidationError) (r : PodFields.ValidationError) :
  (∀ pre e, f (pre ++ e) = pre ++ f e) → r ∈ errors → r ∈ f errors.
Proof.
  intros Hf Hr. rewrite <- (app_nil_r errors), Hf. apply elem_of_app. by left.
Qed.

(** X9.  The two validators of src/main.go report every required field
    of the root that is not there: for a root mapping without the key
    [what], one of [apiVersion], [kind], [metadata] and [spec],
    [validateTopLevel] prints "[what] is required" without a line number
    and [validatePod] appends that message with line 0. *)
Theorem main_requires_fields (root doc : Node) (rest : list Node) (fn what : string)
    (es : list string) (errors : list PodFields.ValidationError) :
  yaml.Content root = doc :: rest → yaml.Kind doc = yaml.MappingNode →
  what ∈ ["apiVersion"; "kind"; "metadata"; "spec"]%string →
  lastValue what (yaml.Content doc) = None →
  (stderr (TopLevel.Validate root) fn = Some es →
   fn +:+ " " +:+ what +:+ " is required" ∈ es)
  ∧ (yaml.Kind root = yaml.DocumentNode →
     requiredRecord fn what ∈ PodFields.validatePod root fn errors).
Proof.
  intros Hc Hk Hw Hl. split.
  - unfold TopLevel.Validate. rewrite stderr_report by auto with framed.
    rewrite (validateTopLevel_out root doc rest fn Hc Hk).
    destruct (Nat.even _); [|done].
    destruct (requiredLines fn "apiVersion" _ _) as [a|] eqn:Ea; [|done].
    destruct (requiredLines fn "kind" _ _) as [k|] eqn:Ek; [|done].
    destruct (requiredLines fn "metadata" _ _) as [m|] eqn:Em; [|done].
    destruct (requiredLines fn "spec" _ _) as [s|] eqn:Es; [|done].
    simpl. intros [= <-].
    repeat (apply elem_of_cons in Hw as [->|Hw]); [..|by apply elem_of_nil in Hw].
    + rewrite Hl in Ea. injection Ea as <-. set_solver.
    + rewrite Hl in Ek. injection Ek as <-. set_solver.
    + rewrite Hl in Em. injection Em as <-. set_solver.
    + rewrite Hl in Es. injection Es as <-. set_solver.
  - intros Hr. unfold PodFields.validatePod, kindIs.
    rewrite Hc, !bool_decide_eq_true_2 by done. cbn [negb].
    assert (PodFields.parseMapping doc !! what = None) as Hn
      by (by rewrite parseMapping_lookup).
    cbv zeta. unfold PodFields.hasField.
    pose proof PodFields_validateMetadata_app as Hmeta.
    pose proof PodFields_validateSpec_app as Hspec.
    repeat (apply elem_of_cons in Hw as [->|Hw]); [..|by apply elem_of_nil in Hw];
      rewrite Hn; rewrite ?(bool_decide_eq_false_2 (is_Some None)) by (by intros [? ?]);
      cbn [negb];
      repeat case_match;
      repeat first
        [ apply (extends_elem (PodFields.validateSpec _ _)); [apply Hspec|]
        | apply (extends_elem (PodFields.validateMetadata _ _)); [apply Hmeta|]
        | apply elem_of_app; right; apply elem_of_cons; left; reflexivity
        | apply elem_of_app; left ].
Qed.

Lemma main_requires_fields_witness :
  "pod.yaml" +:+ " " +:+ "apiVersion" +:+ " is required"
    ∈ ["pod.yaml apiVersion is required"%string]
  ∧ requiredRecord "pod.yaml" "apiVersion"
      ∈ PodFields.validatePod podWithoutAPIVersion "pod.yaml" [].
Proof.
  assert (("apiVersion" : string) ∈ ["apiVersion"; "kind"; "metadata"; "spec"]%string)
    as Hw by (apply (bool_decide_unpack _); vm_compute; exact I).
  destruct (main_requires_fields podWithoutAPIVersion _ _ "pod.yaml" "apiVersion"
              ["pod.yaml apiVersion is required"%string] []
              eq_refl eq_refl Hw eq_refl) as [H1 H2].
  split; [exact (H1 eq_refl)|exact (H2 eq_refl)].
Defined.

(** ** The port of a container, in [validatePod] *)

Lemma Atoi_error text n e : Atoi text = (n, Some e) → n ≤ 0 ∨ 65535 < n.
Proof.
  unfold Atoi.
  repeat case_match; intros [= <- ?];
    first [done | left; by vm_compute | right; by vm_compute].
Qed.

(** X22.  [validatePod] has one verdict on the [containerPort] of a port:
    it accepts the text when [strconv.Atoi] reads it as an integer from 1
    to 65535, and reports everything else as "value out of range" at the
    line of the value, a text that is no number at all included, since
    [getIntValue] drops the error of the conversion. *)
Theorem validatePod_port_range (port node : Node) (fp : string)
    (errors : list PodFields.ValidationError) :
  yaml.Kind port = yaml.MappingNode →
  lastValue "containerPort" (yaml.Content port) = Some node →
  lastValue "protocol" (yaml.Content port) = None →
  (isPort (yaml.Value node) → PodFields.validatePorts_body port fp errors = errors)
  ∧ (¬ isPort (yaml.Value node) →
     PodFields.validatePorts_body port fp errors
     = errors ++ [{| PodFields.File := fp; PodFields.Line := yaml.Line node;
                     PodFields.Message :=
                       "containers.ports.containerPort value out of range" |}]).
Proof.
  intros Hk Hc Hp.
  unfold PodFields.validatePorts_body, PodFields.hasField, PodFields.getIntValue,
    PodFields.getFieldLine, kindIs.
  rewrite !parseMapping_lookup by done. rewrite Hc, Hp.
  rewrite bool_decide_eq_true_2 by done.
  rewrite (bool_decide_eq_true_2 (is_Some (Some node))) by done.
  rewrite (bool_decide_eq_false_2 (is_Some None)) by (by intros [? ?]).
  cbn [negb]. unfold isPort.
  destruct (Atoi (yaml.Value node)) as [n [e|]] eqn:Ea; simpl.
  - apply Atoi_error in Ea as Hn. split.
    + by intros (p & [=] & _).
    + intros _.
      replace ((n <=? 0) || (65535 <? n)) with true; [done|].
      symmetry. apply orb_true_iff. rewrite Z.leb_le, Z.ltb_lt. lia.
  - split.
    + intros (p & [= <-] & Hr).
      replace ((n <=? 0) || (65535 <? n)) with false; [done|].
      symmetry. apply orb_false_iff. rewrite Z.leb_gt, Z.ltb_ge. lia.
    + intros Hn.
      replace ((n <=? 0) || (65535 <? n)) with true; [done|].
      symmetry. apply orb_true_iff. rewrite Z.leb_le, Z.ltb_lt.
      destruct (decide (1 ≤ n ≤ 65535)) as [Hr|Hr]; [|lia].
      destruct Hn. by exists n.
Qed.

Lemma validatePod_port_range_witness :
  PodFields.validatePorts_body
    (mapping 10 [scalar 10 "containerPort"; scalar 10 "http"]) "pod.yaml" []
  = [{| PodFields.File := "pod.yaml"; PodFields.Line := 10;
        PodFields.Message := "containers.ports.containerPort value out of range" |}].
Proof.
  apply (proj2 (validatePod_port_range
                  (mapping 10 [scalar 10 "containerPort"; scalar 10 "http"])
                  (scalar 10 "http") "pod.yaml" [] eq_refl eq_refl eq_refl)).
  intros (p & E & _). discriminate E.
Defined.

(** ** The names of the containers, in [validatePod] *)

(** One round of the loop of [validateContainers] of [validatePod], for a
    container that has a name. *)
Lemma PodFields_validateContainers_body_name c n fp names errors :
  yaml.Kind c = yaml.MappingNode →
  lastValue "name" (yaml.Content c) = Some n →
  ∃ pre post,
    Forall (λ e, ¬ aboutDuplicate e) pre ∧ Forall (λ e, ¬ aboutDuplicate e) post
    ∧ PodFields.validateContainers_body c fp (names, errors)
      = (<[yaml.Value n := true]> names,
         errors ++ pre
         ++ (if registered names (yaml.Value n)
             then [duplicateRecord fp (yaml.Line n) (yaml.Value n)] else [])
         ++ post).
Proof.
  intros Hk Hn. unfold PodFields.validateContainers_body, kindIs, registered.
  rewrite bool_decide_eq_true_2 by done. cbn [negb].
  assert (PodFields.parseMapping c !! "name"%string = Some n) as Hl
    by (by rewrite parseMapping_lookup).
  unfold PodFields.hasField, PodFields.getStringValue, PodFields.getFieldLine.
  rewrite Hl. rewrite (bool_decide_eq_true_2 (is_Some (Some n))) by done.
  cbn [negb].
  exists (if PodFields.isValidSnakeCase (yaml.Value n) then []
          else [{| PodFields.File := fp; PodFields.Line := yaml.Line n;
                   PodFields.Message := "containers.name has invalid format '"
                                        +:+ yaml.Value n +:+ "'" |}]).
  destruct (PodFields.isValidSnakeCase (yaml.Value n));
    destruct (default false (names !! yaml.Value n));
    destruct (PodFields.parseMapping c !! "image"%string),
      (PodFields.parseMapping c !! "ports"%string),
      (PodFields.parseMapping c !! "readinessProbe"%string),
      (PodFields.parseMapping c !! "livenessProbe"%string),
      (PodFields.parseMapping c !! "resources"%string);
    simpl; others_calls;
    (eexists; split; [|split; [|f_equal; rewrite <- ?app_assoc; simpl; reflexivity]]);
    repeat first
      [ assumption | apply Forall_app_2 | apply Forall_nil_2
      | apply Forall_cons_2; [unfold aboutDuplicate; simpl; discriminate|] ].
Qed.

(** X16.  [validatePod] adds the name of every container to its map, be
    the name well formed or not, and reports a name that is in the map
    already as duplicated, at the line of the name, again well formed or
    not: among the records one round of the loop appends, the one about a
    duplicate is there exactly when the name has been seen.  (The two
    [Validator]s never add a name they reject.) *)
Theorem validatePod_registers_every_name (c n : Node) (fp : string)
    (names : gmap string bool) (errors : list PodFields.ValidationError) :
  yaml.Kind c = yaml.MappingNode →
  lastValue "name" (yaml.Content c) = Some n →
  ∃ appended,
    PodFields.validateContainers_body c fp (names, errors)
    = (<[yaml.Value n := true]> names, errors ++ appended)
    ∧ filter aboutDuplicate appended
      = if registered names (yaml.Value n)
        then [duplicateRecord fp (yaml.Line n) (yaml.Value n)] else [].
Proof.
  intros Hk Hn.
  destruct (PodFields_validateContainers_body_name c n fp names errors Hk Hn)
    as (pre & post & Hpre & Hpost & ->).
  eexists. split; [done|].
  rewrite !filter_app, (filter_others pre), (filter_others post) by done.
  destruct (registered names (yaml.Value n)); [|done].
  rewrite (filter_cons_True aboutDuplicate)
    by (unfold aboutDuplicate, duplicateRecord; simpl; by destruct (yaml.Value n)).
  by rewrite filter_nil, app_nil_r.
Qed.

Lemma validatePod_registers_every_name_witness :
  ∃ appended,
    PodFields.validateContainers_body
      (mapping 7 [scalar 7 "name"; scalar 7 "Web"]) "pod.yaml"
      (<["Web"%string := true]> ∅, [])
    = (<["Web"%string := true]> (<["Web"%string := true]> ∅), [] ++ appended)
    ∧ filter aboutDuplicate appended
      = if registered (<["Web"%string := true]> ∅) "Web"
        then [duplicateRecord "pod.yaml" 7 "Web"] else [].
Proof.
  exact (validatePod_registers_every_name
           (mapping 7 [scalar 7 "name"; scalar 7 "Web"]) (scalar 7 "Web") "pod.yaml"
           (<["Web"%string := true]> ∅) [] eq_refl eq_refl).
Defined.

Lemma PodFields_validateContainers_body_fresh c fp names errors :
  (∀ n, containerName c = Some n → registered names n = false) →
  ∃ names' post,
    PodFields.validateContainers_body c fp (names, errors) = (names', errors ++ post)
    ∧ Forall (λ e, ¬ aboutDuplicate e) post
    ∧ ∀ k, registered names' k = true →
           registered names k = true ∨ containerName c = Some k.
Proof.
  intros Hf. unfold containerName in *.
  destruct (decide (yaml.Kind c = yaml.MappingNode)) as [Hk|Hk].
  - destruct (lastValue "name" (yaml.Content c)) as [n|] eqn:Hn.
    + destruct (PodFields_validateContainers_body_name c n fp names errors Hk Hn)
        as (pre & post & Hpre & Hpost & ->).
      rewrite (Hf _ eq_refl). eexists _, _. split; [done|]. split.
      * by repeat (apply Forall_app; split).
      * intros k. unfold registered.
        destruct (decide (k = yaml.Value n)) as [->|Hne]; [auto|].
        rewrite lookup_insert_ne by done. auto.
    + unfold PodFields.validateContainers_body, kindIs.
      rewrite bool_decide_eq_true_2 by done. cbn [negb].
      assert (PodFields.parseMapping c !! "name"%string = None) as Hl
        by (by rewrite parseMapping_lookup).
      unfold PodFields.hasField. rewrite Hl.
      rewrite (bool_decide_eq_false_2 (is_Some None)) by (by intros [? ?]).
      cbn [negb].
      destruct (negb (bool_decide (is_Some (PodFields.parseMapping c !! "image"%string)))),
        (PodFields.parseMapping c !! "ports"%string),
        (PodFields.parseMapping c !! "readinessProbe"%string),
        (PodFields.parseMapping c !! "livenessProbe"%string),
        (PodFields.parseMapping c !! "resources"%string);
        simpl; others_calls;
        (eexists _, _; split; [f_equal; rewrite <- ?app_assoc; simpl; reflexivity|]);
        (split; [|auto]);
        repeat first
          [ assumption | apply Forall_app_2 | apply Forall_nil_2
          | apply Forall_cons_2; [unfold aboutDuplicate; simpl; discriminate|] ].
  - unfold PodFields.validateContainers_body, kindIs.
    rewrite bool_decide_eq_false_2 by done. cbn [negb].
    exists names, []. rewrite app_nil_r. auto.
Qed.

Lemma PodFields_containers_loop_fresh fp content :
  ∀ names errors,
    NoDup (containerNames content) →
    (∀ k, registered names k = true → k ∉ containerNames content) →
    ∃ post,
      snd (fold_left (λ st c, PodFields.validateContainers_body c fp st)
             content (names, errors)) = errors ++ post
      ∧ Forall (λ e, ¬ aboutDuplicate e) post.
Proof.
  induction content as [|c rest IH]; intros names errors Hnd Hreg.
  - exists []. by rewrite app_nil_r.
  - cbn [fold_left].
    unfold containerNames in Hnd, Hreg. cbn [omap list_omap] in Hnd, Hreg.
    fold (containerNames rest) in Hnd, Hreg.
    destruct (PodFields_validateContainers_body_fresh c fp names errors)
      as (names1 & post1 & -> & H1 & Hk).
    { intros n Hn. rewrite Hn in Hreg.
      destruct (registered names n) eqn:Er; [|done].
      destruct (Hreg n Er). apply elem_of_cons. by left. }
    destruct (IH names1 (errors ++ post1)) as (post2 & -> & H2).
    + by destruct (containerName c); [inversion Hnd|].
    + intros k [Hr|Hc]%Hk.
      * apply Hreg in Hr. destruct (containerName c); [|done].
        intros H. apply Hr, elem_of_cons. by right.
      * rewrite Hc in Hnd. by inversion Hnd.
    + exists (post1 ++ post2). split; [by rewrite app_assoc|by apply Forall_app].
Qed.

(** X17.  In [validatePod] too, containers that all declare different
    names get no record "must be unique", however many they are and
    whatever else is wrong with them. *)
Theorem distinct_names_pass_validatePod (node : Node) (fp : string) :
  NoDup (containerNames (yaml.Content node)) →
  Forall (λ e, ¬ aboutDuplicate e) (PodFields.validateContainers node fp []).
Proof.
  intros Hnd. unfold PodFields.validateContainers.
  destruct (negb (kindIs yaml.SequenceNode node)).
  { constructor; [|done]. unfold aboutDuplicate. simpl. discriminate. }
  destruct (PodFields_containers_loop_fresh fp (yaml.Content node) ∅ [] Hnd)
    as (post & -> & Hpost); [|done].
  intros k. unfold registered. by rewrite lookup_empty.
Qed.

Lemma distinct_names_pass_validatePod_witness :
  Forall (λ e, ¬ aboutDuplicate e) (PodFields.validateContainers webAndDb "pod.yaml" []).
Proof.
  apply (distinct_names_pass_validatePod webAndDb "pod.yaml").
  apply (bool_decide_unpack _). vm_compute. reflexivity.
Defined.

(** ** The required fields of [metadata] and of [spec] *)

Lemma metadata_scan_name content (s s' : option Node) fn es :
  out (forPairs (λ key value (nameNode : option Node),
         if yaml.Value key == "name" then ret (Some value)
         else if yaml.Value key == "namespace" then
           when (negb (kindIs yaml.ScalarNode value))
             (Errorf (yaml.Line value) "namespace must be string") ;;
           ret nameNode
         else if yaml.Value key == "labels" then
           validateLabels value ;; ret nameNode
         else ret nameNode) content s) fn = Some (s', es) →
  s' = orElse (lastValue "name" content) s.
Proof.
  revert s es. induction content as [|x|k v rest IH] using pairs_ind; intros s es.
  - by intros [= <- _].
  - done.
  - cbn [forPairs lastValue]. rewrite out_bind by framed_auto.
    match goal with |- context [out (forPairs ?b rest _) fn] => set (body := b) in * end.
    destruct (yaml.Value k == "name").
    { rewrite out_ret. destruct (out (forPairs body rest (Some v)) fn)
        as [[s1 es1]|] eqn:E; [|done].
      intros [= <- _]. apply IH in E as ->. by destruct (lastValue "name" rest). }
    match goal with |- context [out ?m fn] =>
      destruct (out m fn) as [[s0 es0]|] eqn:E0; [|done];
      assert (s0 = s) as ->
    end.
    { revert E0. destruct (yaml.Value k == "namespace").
      { rewrite out_unit by framed_auto.
        by destruct (stderr _ fn); intros [= <- _]. }
      destruct (yaml.Value k == "labels").
      { rewrite out_unit by framed_auto.
        by destruct (stderr _ fn); intros [= <- _]. }
      by intros [= <- _]. }
    destruct (out (forPairs body rest s) fn) as [[s1 es1]|] eqn:E; [|done].
    intros [= <- _]. apply IH in E as ->. by destruct (lastValue "name" rest).
Qed.

(** X10.  All three validators report a [metadata] mapping that has no
    key [name]: each [Validator] prints "metadata.name is required" without
    a line number among its lines for the mapping, and [validateMetadata]
    of [validatePod] appends that message, with line 0, and nothing else. *)
Theorem metadata_name_required (node : Node) (fn : string) (es : list string)
    (errors : list PodFields.ValidationError) :
  yaml.Kind node = yaml.MappingNode →
  lastValue "name" (yaml.Content node) = None →
  (stderr (Document.validateMetadata node) fn = Some es →
   fn +:+ " metadata.name is required" ∈ es)
  ∧ (stderr (TopLevel.validateMetadata node) fn = Some es →
     fn +:+ " metadata.name is required" ∈ es)
  ∧ PodFields.validateMetadata node fn errors
    = errors ++ [requiredRecord fn "metadata.name"].
Proof.
  intros Hk Hn. split; [|split].
  - rewrite stderr_out. unfold Document.validateMetadata, kindIs.
    rewrite bool_decide_eq_true_2 by done. cbn [negb].
    rewrite out_bind by framed_auto.
    match goal with |- context [out ?m fn] =>
      destruct (out m fn) as [[s' es']|] eqn:E; [|done] end.
    apply metadata_scan_name in E. rewrite Hn in E. subst s'. simpl.
    intros [= <-]. set_solver.
  - rewrite stderr_out. unfold TopLevel.validateMetadata, kindIs.
    rewrite bool_decide_eq_true_2 by done. cbn [negb].
    rewrite out_bind by framed_auto. rewrite collectFields_out.
    destruct (Nat.even _); [|done]. rewrite !collectFields_lookup, Hn.
    rewrite out_seq by framed_auto. rewrite stderr_out, out_Errorf. simpl.
    match goal with |- context [out ?m fn] =>
      destruct (out m fn) as [[[] others]|]; [|done] end.
    simpl. intros [= <-]. set_solver.
  - unfold PodFields.validateMetadata, PodFields.hasField, kindIs.
    rewrite bool_decide_eq_true_2 by done.
    rewrite parseMapping_lookup, Hn by done.
    by rewrite (bool_decide_eq_false_2 (is_Some None)) by (by intros [? ?]).
Qed.

Lemma metadata_name_required_witness :
  "pod.yaml" +:+ " metadata.name is required"
    ∈ ["pod.yaml:4 namespace must be string"; "pod.yaml metadata.name is required"]%string
  ∧ PodFields.validateMetadata
      (mapping 3 [scalar 4 "namespace"; sequence 4 []]) "pod.yaml" []
    = [] ++ [requiredRecord "pod.yaml" "metadata.name"].
Proof.
  destruct (metadata_name_required
              (mapping 3 [scalar 4 "namespace"; sequence 4 []]) "pod.yaml"
              ["pod.yaml:4 namespace must be string";
               "pod.yaml metadata.name is required"]%string []
              eq_refl eq_refl) as (H1 & _ & H3).
  split; [exact (H1 eq_refl)|exact H3].
Defined.

(** X11.  A [spec] mapping that has no key [containers]: the two
    validators of src/main.go report "spec.containers is required",
    [validateSpec] of part_000 never does. *)
Theorem spec_containers_required (node : Node) (fn : string) (es : list string)
    (errors : list PodFields.ValidationError) :
  yaml.Kind node = yaml.MappingNode →
  lastValue "containers" (yaml.Content node) = None →
  (stderr (TopLevel.validateSpec node) fn = Some es →
   fn +:+ " spec.containers is required" ∈ es)
  ∧ requiredRecord fn "spec.containers" ∈ PodFields.validateSpec node fn errors
  ∧ (stderr (Document.validateSpec node) fn = Some es →
     fn +:+ " spec.containers is required" ∉ es).
Proof.
  intros Hk Hn. split; [|split].
  - rewrite stderr_out. unfold TopLevel.validateSpec, kindIs.
    rewrite bool_decide_eq_true_2 by done. cbn [negb].
    rewrite out_bind by framed_auto. rewrite collectFields_out.
    destruct (Nat.even _); [|done]. rewrite !collectFields_lookup, Hn.
    rewrite out_seq by framed_auto.
    destruct (stderr _ fn) as [os|]; [|done]. simpl.
    intros [= <-]. set_solver.
  - unfold PodFields.validateSpec, kindIs.
    rewrite bool_decide_eq_true_2 by done.
    rewrite !parseMapping_lookup, Hn by done. cbn [negb].
    apply elem_of_app. right. apply elem_of_cons. by left.
  - intros Hes Hin.
    pose proof (logs_stderr _ _ _ _ (validateSpec_messages node) Hes) as Hall.
    rewrite Forall_forall in Hall.
    destruct (Hall _ Hin) as (line & msg & E & Hmsg).
    apply (errorLine_msg_inj fn 0 line "spec.containers is required" msg) in E.
    subst msg. apply (requiredField_not_message "spec.containers"); [|done].
    apply (bool_decide_unpack _). vm_compute. exact I.
Qed.

Lemma spec_containers_required_witness :
  "pod.yaml" +:+ " spec.containers is required"
    ∈ ["pod.yaml spec.containers is required"%string]
  ∧ requiredRecord "pod.yaml" "spec.containers"
      ∈ PodFields.validateSpec (mapping 5 []) "pod.yaml" [].
Proof.
  destruct (spec_containers_required (mapping 5 []) "pod.yaml"
              ["pod.yaml spec.containers is required"%string] []
              eq_refl eq_refl) as (H1 & H2 & _).
  split; [exact (H1 eq_refl)|exact H2].
Defined.

Set Warnings "-clear-no-such-hyp".

(** ** The manifests [validateTopLevel] accepts *)

Lemma stderr_Errorf line msg fn :
  stderr (Errorf line msg) fn = Some [errorLine fn line msg].
Proof. done. Qed.

Lemma stderr_seq_nil (m k : M unit) fn :
  framed m → framed k →
  stderr (m ;; k) fn = Some [] ↔ stderr m fn = Some [] ∧ stderr k fn = Some [].
Proof.
  intros Hm Hk. rewrite (stderr_out (m ;; k)), out_seq by done.
  rewrite (stderr_out k). destruct (stderr m fn) as [es|]; simpl; [|naive_solver].
  destruct (out k fn) as [[[] es']|]; simpl; [|naive_solver]. split.
  - by intros [= [-> ->]%app_eq_nil].
  - by intros [[= ->] [= ->]].
Qed.

Lemma stderr_bind_nil (m : M unit) (k : unit → M unit) fn :
  framed m → (∀ u, framed (k u)) →
  stderr (bind m k) fn = Some [] ↔ stderr m fn = Some [] ∧ stderr (k tt) fn = Some [].
Proof.
  intros Hm Hk. rewrite (stderr_out (bind m k)), out_bind by done.
  rewrite (stderr_out (k tt)), (stderr_out m).
  destruct (out m fn) as [[[] es]|]; simpl; [|naive_solver].
  destruct (out (k tt) fn) as [[[] es']|]; simpl; [|naive_solver]. split.
  - by intros [= [-> ->]%app_eq_nil].
  - by intros [[= ->] [= ->]].
Qed.

Lemma stderr_collect (k : gmap string Node → M unit) node fn :
  (∀ fields, framed (k fields)) →
  wellFormed node = true → kindIs yaml.MappingNode node = true →
  stderr (fields <- TopLevel.collectFields (yaml.Content node) ;; k fields) fn
  = stderr (k (PodFields.parseMapping_loop (yaml.Content node) ∅)) fn.
Proof.
  intros Hk Hw Hm. rewrite !stderr_out, out_bind by auto with framed.
  rewrite collectFields_out, (wellFormed_mapping _ Hw Hm).
  by destruct (out _ fn) as [[[] es]|].
Qed.

Lemma required_silent (validate : Node → M unit) (P : Node → Prop) line msg value fn :
  (∀ n, value = Some n → stderr (validate n) fn = Some [] ↔ P n) →
  stderr (match value with
          | None => Errorf line msg
          | Some n => validate n
          end) fn = Some []
  ↔ required P value.
Proof.
  intros Hv. unfold required. destruct value as [n|].
  - rewrite (Hv n eq_refl). naive_solver.
  - rewrite stderr_Errorf. naive_solver.
Qed.

Lemma optional_silent (validate : Node → M unit) (P : Node → Prop) value fn :
  (∀ n, value = Some n → stderr (validate n) fn = Some [] ↔ P n) →
  stderr (match value with
          | Some n => validate n
          | None => ret tt
          end) fn = Some []
  ↔ optional P value.
Proof.
  intros Hv. unfold optional. destruct value as [n|].
  - rewrite (Hv n eq_refl). naive_solver.
  - naive_solver.
Qed.

Lemma field_wellFormed key node n :
  wellFormed node = true → field key node = Some n → wellFormed n = true.
Proof. intros Hw Hn%lastValue_elem. by apply (wellFormed_content node). Qed.

Ltac by_kind k node :=
  unfold kindIs;
  destruct (decide (yaml.Kind node = k)) as [?|?];
  [rewrite bool_decide_eq_true_2 by done
  |rewrite bool_decide_eq_false_2 by done; cbn [negb]; rewrite ?stderr_Errorf;
   unfold isScalar, isMapping, isSequence; naive_solver];
  cbn [negb].

Lemma validateOS_silent node fn :
  stderr (validateOS node) fn = Some [] ↔ oneOf ["linux"; "windows"]%string node.
Proof.
  unfold validateOS, oneOf. by_kind yaml.ScalarNode node.
  destruct (String.eqb_spec (yaml.Value node) "linux"),
    (String.eqb_spec (yaml.Value node) "windows"); simpl;
    rewrite ?stderr_Errorf; set_solver.
Qed.

Lemma validateProtocol_silent node fn :
  stderr (validateProtocol node) fn = Some [] ↔ oneOf ["TCP"; "UDP"]%string node.
Proof.
  unfold validateProtocol, oneOf. by_kind yaml.ScalarNode node.
  destruct (String.eqb_spec (yaml.Value node) "TCP"),
    (String.eqb_spec (yaml.Value node) "UDP"); simpl;
    rewrite ?stderr_Errorf; set_solver.
Qed.

Lemma port_silent (what : string) text line fn :
  stderr (match Atoi text with
          | (_, Some _) => Errorf line (what +:+ " must be integer")
          | (port, None) =>
              when ((port <=? 0) || (65536 <=? port))
                (Errorf line (what +:+ " value out of range"))
          end) fn = Some []
  ↔ isPort text.
Proof.
  unfold isPort. destruct (Atoi text) as [port [err|]].
  - rewrite stderr_Errorf. naive_solver.
  - destruct ((port <=? 0) || (65536 <=? port)) eqn:E; simpl.
    + rewrite stderr_Errorf. apply orb_true_iff in E. rewrite !Z.leb_le in E.
      split; [done|]. intros (p & [= <-] & ?). lia.
    + apply orb_false_iff in E. rewrite !Z.leb_gt in E.
      split; [|done]. intros _. exists port. split; [done|lia].
Qed.

Lemma validateContainerPort_silent node fn :
  stderr (validateContainerPort node) fn = Some [] ↔ portScalar node.
Proof.
  unfold validateContainerPort, portScalar. by_kind yaml.ScalarNode node.
  rewrite (port_silent "containerPort"). unfold isScalar. naive_solver.
Qed.

Lemma validateProbePort_silent node fn :
  stderr (validateProbePort node) fn = Some [] ↔ portScalar node.
Proof.
  unfold validateProbePort, portScalar. by_kind yaml.ScalarNode node.
  rewrite (port_silent "port"). unfold isScalar. naive_solver.
Qed.

Lemma validateImage_silent node fn :
  stderr (validateImage node) fn = Some []
  ↔ isScalar node ∧ isImage (bytes (yaml.Value node)).
Proof.
  unfold validateImage. by_kind yaml.ScalarNode node.
  rewrite <- imageRegex_isImage.
  destruct (MatchString imageRegex (yaml.Value node)); simpl;
    rewrite ?stderr_Errorf; unfold isScalar; naive_solver.
Qed.

Lemma validateMemory_silent node prefix fn :
  stderr (validateMemory node prefix) fn = Some []
  ↔ isScalar node ∧ isMemory (bytes (yaml.Value node)).
Proof.
  unfold validateMemory. by_kind yaml.ScalarNode node.
  rewrite <- memoryRegex_isMemory.
  destruct (MatchString memoryRegex (yaml.Value node)); simpl;
    rewrite ?stderr_Errorf; unfold isScalar; naive_solver.
Qed.

Lemma validateCPU_silent node prefix fn :
  stderr (TopLevel.validateCPU node prefix) fn = Some []
  ↔ isScalar node ∧ isInteger (yaml.Value node).
Proof.
  unfold TopLevel.validateCPU, isInteger. by_kind yaml.ScalarNode node.
  destruct (Atoi (yaml.Value node)) as [z [err|]];
    rewrite ?stderr_Errorf; unfold isScalar; naive_solver.
Qed.

Lemma forPairs_silent (body : Node → Node → M unit) (P : Node → Node → Prop) content fn :
  (∀ key value, framed (body key value)) →
  (∀ key value, stderr (body key value) fn = Some [] ↔ P key value) →
  stderr (forPairs (λ key value _, body key value) content tt) fn = Some []
  ↔ allPairs P content.
Proof.
  intros Hf Hb. induction content as [|x|k v rest IH] using pairs_ind.
  - done.
  - by split.
  - cbn [forPairs allPairs]. rewrite <- IH, <- Hb.
    apply stderr_bind_nil; [done|]. intros u. by apply framed_forPairs.
Qed.

Lemma forRange_silent (body : Node → M unit) (P : Node → Prop) content fn :
  (∀ x, framed (body x)) →
  (∀ x, x ∈ content → stderr (body x) fn = Some [] ↔ P x) →
  stderr (forRange (λ x _, body x) content tt) fn = Some [] ↔ Forall P content.
Proof.
  intros Hf. induction content as [|x rest IH]; intros Hb.
  - done.
  - cbn [forRange]. rewrite Forall_cons, <- IH, <- Hb by set_solver.
    apply stderr_bind_nil; [done|]. intros u. by apply framed_forRange.
Qed.

Lemma validateLabels_silent node fn :
  wellFormed node = true →
  stderr (validateLabels node) fn = Some [] ↔ validLabels node.
Proof.
  intros Hw. unfold validateLabels, validLabels. by_kind yaml.MappingNode node.
  rewrite (forPairs_silent
             (λ key value,
                when (negb (kindIs yaml.ScalarNode key))
                  (Errorf (yaml.Line key) "label key must be string") ;;
                when (negb (kindIs yaml.ScalarNode value))
                  (Errorf (yaml.Line value) "label value must be string"))
             (λ key value, isScalar key ∧ isScalar value)).
  - assert (Nat.even (length (yaml.Content node)) = true) as He.
    { apply wellFormed_mapping; [done|]. by apply bool_decide_eq_true. }
    revert He. unfold isMapping. generalize (yaml.Content node). intros content.
    induction content as [|x|k v rest IH] using pairs_ind; intros He.
    + naive_solver.
    + done.
    + cbn [allPairs]. rewrite !Forall_cons. specialize (IH He). naive_solver.
  - framed_auto.
  - intros key value. rewrite stderr_seq_nil by framed_auto.
    unfold isScalar, kindIs.
    destruct (decide (yaml.Kind key = yaml.ScalarNode)),
      (decide (yaml.Kind value = yaml.ScalarNode));
      rewrite ?bool_decide_eq_true_2, ?bool_decide_eq_false_2 by done;
      simpl; rewrite ?stderr_Errorf; naive_solver.
Qed.

Ltac fields_of node :=
  rewrite stderr_collect by (first [done | by apply bool_decide_eq_true | framed_auto]);
  rewrite ?collectFields_lookup;
  fold (field "name" node) (field "namespace" node) (field "labels" node)
    (field "requests" node) (field "limits" node) (field "containerPort" node)
    (field "protocol" node) (field "path" node) (field "port" node)
    (field "httpGet" node) (field "os" node) (field "containers" node).

Lemma TopLevel_validateMetadata_silent node fn :
  wellFormed node = true →
  stderr (TopLevel.validateMetadata node) fn = Some [] ↔ validMetadata node.
Proof.
  intros Hw. unfold TopLevel.validateMetadata, validMetadata.
  by_kind yaml.MappingNode node. fields_of node.
  rewrite !stderr_seq_nil by framed_auto.
  rewrite (required_silent _ (λ n, isScalar n ∧ yaml.Value n ≠ ""%string)).
  2: { intros n _. by_kind yaml.ScalarNode n.
       destruct (String.eqb_spec (yaml.Value n) ""); simpl;
         rewrite ?stderr_Errorf; unfold isScalar; naive_solver. }
  rewrite (optional_silent
             (λ n, when (negb (kindIs yaml.ScalarNode n))
                     (Errorf (yaml.Line n) "namespace must be string")) isScalar).
  2: { intros n _. by_kind yaml.ScalarNode n. unfold isScalar. naive_solver. }
  rewrite (optional_silent validateLabels validLabels).
  2: { intros n Hn. apply validateLabels_silent. by eapply field_wellFormed. }
  unfold isMapping. naive_solver.
Qed.

Lemma TopLevel_validateResourceRequirements_silent node prefix fn :
  stderr (TopLevel.validateResourceRequirements node prefix) fn = Some []
  ↔ validRequirements node.
Proof.
  unfold TopLevel.validateResourceRequirements, validRequirements.
  by_kind yaml.MappingNode node.
  rewrite (forPairs_silent
             (λ key value,
                if yaml.Value key == "cpu" then TopLevel.validateCPU value prefix
                else if yaml.Value key == "memory" then validateMemory value prefix
                else Errorf (yaml.Line key)
                       (prefix +:+ "." +:+ yaml.Value key
                        +:+ " has unsupported resource type"))
             validQuantity).
  - unfold isMapping. naive_solver.
  - framed_auto.
  - intros key value. unfold validQuantity.
    destruct (String.eqb_spec (yaml.Value key) "cpu") as [E|Hc].
    { rewrite validateCPU_silent, E. naive_solver. }
    destruct (String.eqb_spec (yaml.Value key) "memory") as [E|Hm].
    { rewrite validateMemory_silent, E. naive_solver. }
    rewrite stderr_Errorf. naive_solver.
Qed.

Lemma TopLevel_validateResources_silent node fn :
  wellFormed node = true →
  stderr (TopLevel.validateResources node) fn = Some [] ↔ validResources node.
Proof.
  intros Hw. unfold TopLevel.validateResources, validResources.
  by_kind yaml.MappingNode node. fields_of node.
  rewrite !stderr_seq_nil by framed_auto.
  rewrite !(optional_silent (λ n, TopLevel.validateResourceRequirements n _)
              validRequirements)
    by (intros; apply TopLevel_validateResourceRequirements_silent).
  unfold isMapping. naive_solver.
Qed.

Lemma TopLevel_validatePorts_silent node fn :
  wellFormed node = true →
  stderr (TopLevel.validatePorts node) fn = Some [] ↔ validPorts node.
Proof.
  intros Hw. unfold TopLevel.validatePorts, validPorts.
  by_kind yaml.SequenceNode node.
  rewrite (forRange_silent
             (λ portNode,
                if negb (kindIs yaml.MappingNode portNode) then
                  Errorf (yaml.Line portNode) "port must be mapping"
                else
                  fields <- TopLevel.collectFields (yaml.Content portNode) ;;
                  match fields !! "containerPort" with
                  | None => Errorf 0 "containerPort is required"
                  | Some portNode => validateContainerPort portNode
                  end ;;
                  match fields !! "protocol" with
                  | Some protocolNode => validateProtocol protocolNode
                  | None => ret tt
                  end)
             validPort).
  - unfold isSequence. naive_solver.
  - framed_auto.
  - intros port Hp. apply (wellFormed_content _ _ Hw) in Hp.
    unfold validPort. by_kind yaml.MappingNode port. fields_of port.
    rewrite !stderr_seq_nil by framed_auto.
    rewrite (required_silent validateContainerPort portScalar)
      by (intros; apply validateContainerPort_silent).
    rewrite (optional_silent validateProtocol (oneOf ["TCP"; "UDP"]%string))
      by (intros; apply validateProtocol_silent).
    unfold isMapping. naive_solver.
Qed.

Lemma notAbsolute_HasPrefix s : notAbsolute s = negb (HasPrefix s "/").
Proof.
  unfold notAbsolute, HasPrefix. destruct s as [|c s]; [done|].
  cbn [String.prefix].
  destruct (ascii_dec "/" c) as [E|Hne]; [subst c; by destruct s|].
  destruct (Ascii.eqb_spec c "/"); [congruence|done].
Qed.

Lemma TopLevel_validateHTTPGetAction_silent node fn :
  wellFormed node = true →
  stderr (TopLevel.validateHTTPGetAction node) fn = Some [] ↔ validHTTPGet node.
Proof.
  intros Hw. unfold TopLevel.validateHTTPGetAction, validHTTPGet.
  by_kind yaml.MappingNode node. fields_of node.
  rewrite !stderr_seq_nil by framed_auto.
  rewrite (required_silent _ (λ n, isScalar n ∧ HasPrefix (yaml.Value n) "/" = true)).
  2: { intros n _. by_kind yaml.ScalarNode n. rewrite notAbsolute_HasPrefix.
       destruct (HasPrefix (yaml.Value n) "/"); simpl;
         rewrite ?stderr_Errorf; unfold isScalar; naive_solver. }
  rewrite (required_silent validateProbePort portScalar)
    by (intros; apply validateProbePort_silent).
  unfold isMapping. naive_solver.
Qed.

Lemma TopLevel_validateProbe_silent node fn :
  wellFormed node = true →
  stderr (TopLevel.validateProbe node) fn = Some [] ↔ validProbe node.
Proof.
  intros Hw. unfold TopLevel.validateProbe, validProbe.
  by_kind yaml.MappingNode node. fields_of node.
  rewrite (required_silent TopLevel.validateHTTPGetAction validHTTPGet).
  2: { intros n Hn. apply TopLevel_validateHTTPGetAction_silent.
       by eapply field_wellFormed. }
  unfold isMapping. naive_solver.
Qed.

Lemma requiredLines_silent (validate : Node → M unit) (P : Node → Prop) what value fn :
  (∀ n, value = Some n → stderr (validate n) fn = Some [] ↔ P n) →
  requiredLines fn what validate value = Some [] ↔ required P value.
Proof.
  intros Hv. unfold required, requiredLines. destruct value as [n|].
  - rewrite (Hv n eq_refl). naive_solver.
  - naive_solver.
Qed.

Lemma optionalLines_silent (validate : Node → M unit) (P : Node → Prop) value fn :
  (∀ n, value = Some n → stderr (validate n) fn = Some [] ↔ P n) →
  optionalLines fn validate value = Some [] ↔ optional P value.
Proof.
  intros Hv. unfold optional, optionalLines. destruct value as [n|].
  - rewrite (Hv n eq_refl). naive_solver.
  - naive_solver.
Qed.

Lemma out_Errorf_ret {A} line msg (a : A) fn :
  out (Errorf line msg ;; ret a) fn = Some (a, [errorLine fn line msg]).
Proof. done. Qed.

Lemma nameLines_silent fn names value names' :
  nameLines fn names value = Some (names', [])
  ↔ ∃ n, value = Some n
         ∧ (isScalar n ∧ isIdentifier (bytes (yaml.Value n)))
         ∧ registered names (yaml.Value n) = false
         ∧ names' = <[yaml.Value n := true]> names.
Proof.
  unfold nameLines. destruct value as [n|]; [|naive_solver].
  transitivity ((isScalar n ∧ MatchString snakeCaseRegex (yaml.Value n) = true)
                ∧ registered names (yaml.Value n) = false
                ∧ names' = <[yaml.Value n := true]> names).
  2: { rewrite snakeCaseRegex_isIdentifier. naive_solver. }
  unfold validateContainerName, registered, isScalar, kindIs.
  destruct (decide (yaml.Kind n = yaml.ScalarNode));
    [rewrite bool_decide_eq_true_2 by done
    |rewrite bool_decide_eq_false_2 by done; cbn [negb]; rewrite out_Errorf_ret;
     naive_solver].
  cbn [negb].
  destruct (String.eqb_spec (yaml.Value n) "") as [E|_].
  { rewrite E, out_Errorf_ret. naive_solver. }
  destruct (MatchString snakeCaseRegex (yaml.Value n)); cbn [negb];
    [|rewrite out_Errorf_ret; naive_solver].
  destruct (default false (names !! yaml.Value n));
    rewrite ?out_Errorf_ret, ?out_ret; naive_solver.
Qed.

Lemma registered_insert names n m :
  registered (<[n := true]> names) m = false ↔ m ≠ n ∧ registered names m = false.
Proof.
  unfold registered. destruct (decide (m = n)) as [->|Hne].
  - rewrite lookup_insert_eq. naive_solver.
  - rewrite lookup_insert_ne by done. naive_solver.
Qed.

Lemma TopLevel_container_silent c names names' fn :
  wellFormed c = true →
  out (TopLevel.validateContainers_body c names) fn = Some (names', [])
  ↔ validContainer c
    ∧ ∃ n, containerName c = Some n ∧ registered names n = false
           ∧ names' = <[n := true]> names.
Proof.
  intros Hw. unfold validContainer, isMapping.
  destruct (decide (yaml.Kind c = yaml.MappingNode)) as [Hk|Hk].
  2: { unfold TopLevel.validateContainers_body, kindIs.
       rewrite bool_decide_eq_false_2 by done. naive_solver. }
  rewrite TopLevel_validateContainers_body_out by (by apply bool_decide_eq_true).
  rewrite wellFormed_mapping by (done || by apply bool_decide_eq_true).
  fold (field "name" c) (field "image" c) (field "resources" c) (field "ports" c)
    (field "readinessProbe" c) (field "livenessProbe" c).
  rewrite <- (requiredLines_silent validateImage
                (λ n, isScalar n ∧ isImage (bytes (yaml.Value n)))
                "container image" (field "image" c) fn)
    by (intros; apply validateImage_silent).
  rewrite <- (requiredLines_silent TopLevel.validateResources validResources
                "container resources" (field "resources" c) fn)
    by (intros n Hn; apply TopLevel_validateResources_silent;
        by eapply field_wellFormed).
  rewrite <- (optionalLines_silent TopLevel.validatePorts validPorts
                (field "ports" c) fn)
    by (intros n Hn; apply TopLevel_validatePorts_silent;
        by eapply field_wellFormed).
  rewrite <- (optionalLines_silent TopLevel.validateProbe validProbe
                (field "readinessProbe" c) fn)
    by (intros n Hn; apply TopLevel_validateProbe_silent;
        by eapply field_wellFormed).
  rewrite <- (optionalLines_silent TopLevel.validateProbe validProbe
                (field "livenessProbe" c) fn)
    by (intros n Hn; apply TopLevel_validateProbe_silent;
        by eapply field_wellFormed).
  transitivity
    (nameLines fn names (field "name" c) = Some (names', [])
     ∧ requiredLines fn "container image" validateImage (field "image" c) = Some []
     ∧ requiredLines fn "container resources" TopLevel.validateResources
         (field "resources" c) = Some []
     ∧ optionalLines fn TopLevel.validatePorts (field "ports" c) = Some []
     ∧ optionalLines fn TopLevel.validateProbe (field "readinessProbe" c) = Some []
     ∧ optionalLines fn TopLevel.validateProbe (field "livenessProbe" c) = Some []).
  - destruct (nameLines fn names (field "name" c)) as [[names1 nm]|]; simpl;
      [|naive_solver].
    destruct (requiredLines fn "container image" _ _) as [im|]; simpl;
      [|naive_solver].
    destruct (requiredLines fn "container resources" _ _) as [rs|]; simpl;
      [|naive_solver].
    destruct (optionalLines fn TopLevel.validatePorts _) as [ps|]; simpl;
      [|naive_solver].
    destruct (optionalLines fn TopLevel.validateProbe (field "readinessProbe" c))
      as [rp|]; simpl; [|naive_solver].
    destruct (optionalLines fn TopLevel.validateProbe (field "livenessProbe" c))
      as [lp|]; simpl; [|naive_solver].
    split.
    + intros [= -> E]. repeat apply app_eq_nil in E as [-> E]. by subst.
    + by intros ([= -> ->] & [= ->] & [= ->] & [= ->] & [= ->] & [= ->]).
  - rewrite nameLines_silent. unfold containerName, required.
    fold (field "name" c). split.
    + intros ((n & Hn & Hv & Hr & ->) & ?). rewrite Hn. naive_solver.
    + intros ((_ & (n & Hn & Hv) & ?) & s & Hs & Hr & ->).
      rewrite Hn in Hs. injection Hs as <-. naive_solver.
Qed.

Lemma TopLevel_containers_silent content fn :
  Forall (λ c, wellFormed c = true) content →
  ∀ names,
    (∃ names', out (forRange TopLevel.validateContainers_body content names) fn
               = Some (names', []))
    ↔ Forall validContainer content
      ∧ NoDup (containerNames content)
      ∧ ∀ n, n ∈ containerNames content → registered names n = false.
Proof.
  induction 1 as [|c rest Hw _ IH]; intros names.
  - split; [|by exists names]. intros _. split; [done|]. split; [constructor|].
    by intros n ?%elem_of_nil.
  - cbn [forRange]. rewrite Forall_cons.
    transitivity (∃ names1,
      out (TopLevel.validateContainers_body c names) fn = Some (names1, [])
      ∧ ∃ names', out (forRange TopLevel.validateContainers_body rest names1) fn
                  = Some (names', [])).
    { rewrite out_bind by (intros; first [apply framed_forRange; intros|idtac];
                           auto with framed).
      destruct (out (TopLevel.validateContainers_body c names) fn)
        as [[names1 es1]|]; [|naive_solver].
      destruct (out (forRange _ rest names1) fn) as [[names2 es2]|] eqn:E2.
      - split.
        + intros (names' & [= -> [-> ->]%app_eq_nil]). exists names1.
          split; [done|]. exists names'. done.
        + intros (n1 & [= <- ->] & names' & E). rewrite E2 in E.
          injection E as -> ->. by exists names'.
      - split; [by intros [? ?]|].
        intros (n1 & [= <- ->] & names' & E). by rewrite E2 in E. }
    setoid_rewrite (TopLevel_container_silent c names _ fn Hw).
    unfold containerNames. cbn [omap list_omap]. fold (containerNames rest).
    split.
    + intros (names1 & (Hc & n & Hn & Hr & ->) & Hrest).
      apply IH in Hrest as (Hvalid & Hnd & Hfresh). rewrite Hn.
      split; [done|]. split.
      * constructor; [|done]. intros Hin. apply Hfresh in Hin.
        apply registered_insert in Hin as [? _]. done.
      * intros m [->|Hm]%elem_of_cons; [done|].
        apply Hfresh in Hm. by apply registered_insert in Hm as [_ ?].
    + intros ([Hc Hvalid] & Hnd & Hfresh).
      assert (∃ x, containerName c = Some x) as [x Hn].
      { destruct Hc as (_ & (n & Hn & _) & _). exists (yaml.Value n).
        unfold containerName. fold (field "name" c). by rewrite Hn. }
      rewrite Hn in Hnd, Hfresh. apply NoDup_cons in Hnd as [Hnotin Hnd].
      exists (<[x := true]> names). split.
      * split; [done|]. exists x. split; [done|]. split; [|done].
        apply Hfresh, elem_of_cons. by left.
      * apply IH. split; [done|]. split; [done|]. intros m Hm.
        apply registered_insert. split; [by intros ->|].
        apply Hfresh, elem_of_cons. by right.
Qed.

Lemma TopLevel_validateContainers_silent node fn :
  wellFormed node = true →
  stderr (TopLevel.validateContainers node) fn = Some [] ↔ validContainers node.
Proof.
  intros Hw. unfold TopLevel.validateContainers, validContainers.
  by_kind yaml.SequenceNode node.
  transitivity (∃ names', out (forRange TopLevel.validateContainers_body
                                 (yaml.Content node) ∅) fn = Some (names', [])).
  { rewrite stderr_out, out_bind by framed_auto.
    destruct (out (forRange _ _ ∅) fn) as [[names' es]|]; simpl; [|naive_solver].
    rewrite app_nil_r. naive_solver. }
  rewrite TopLevel_containers_silent.
  2: { apply Forall_forall. intros c Hc. by apply (wellFormed_content node). }
  unfold isSequence. split.
  - naive_solver.
  - intros (_ & ? & ?). split; [done|]. split; [done|].
    intros n _. unfold registered. by rewrite lookup_empty.
Qed.

Lemma TopLevel_validateSpec_silent node fn :
  wellFormed node = true →
  stderr (TopLevel.validateSpec node) fn = Some [] ↔ validSpec node.
Proof.
  intros Hw. unfold TopLevel.validateSpec, validSpec.
  by_kind yaml.MappingNode node. fields_of node.
  rewrite !stderr_seq_nil by framed_auto.
  rewrite (optional_silent validateOS (oneOf ["linux"; "windows"]%string))
    by (intros; apply validateOS_silent).
  rewrite (required_silent TopLevel.validateContainers validContainers).
  2: { intros n Hn. apply TopLevel_validateContainers_silent.
       by eapply field_wellFormed. }
  unfold isMapping. naive_solver.
Qed.

Lemma validateTopLevel_silent (root : Node) (fn : string) :
  wellFormed root = true →
  stderr (TopLevel.validateTopLevel root) fn = Some [] ↔ validManifest root.
Proof.
  intros Hw.
  unfold TopLevel.validateTopLevel, validManifest.
  destruct (yaml.Content root) as [|doc rest] eqn:Ec.
  { rewrite stderr_Errorf. naive_solver. }
  assert (wellFormed doc = true) as Hd.
  { apply (wellFormed_content root); [done|]. rewrite Ec. set_solver. }
  transitivity (isMapping doc
    ∧ required (λ n, yaml.Value n = "v1"%string) (field "apiVersion" doc)
    ∧ required (λ n, yaml.Value n = "Pod"%string) (field "kind" doc)
    ∧ required validMetadata (field "metadata" doc)
    ∧ required validSpec (field "spec" doc)); [|naive_solver].
  by_kind yaml.MappingNode doc.
  rewrite stderr_collect by (first [done | by apply bool_decide_eq_true | framed_auto]).
  rewrite !collectFields_lookup.
  fold (field "apiVersion" doc) (field "kind" doc) (field "metadata" doc)
    (field "spec" doc).
  rewrite !stderr_seq_nil by framed_auto.
  rewrite (required_silent TopLevel.validateAPIVersion
             (λ n, yaml.Value n = "v1"%string)).
  2: { intros n _. unfold TopLevel.validateAPIVersion.
       destruct (String.eqb_spec (yaml.Value n) "v1"); simpl;
         rewrite ?stderr_Errorf; naive_solver. }
  rewrite (required_silent TopLevel.validateKind
             (λ n, yaml.Value n = "Pod"%string)).
  2: { intros n _. unfold TopLevel.validateKind.
       destruct (String.eqb_spec (yaml.Value n) "Pod"); simpl;
         rewrite ?stderr_Errorf; naive_solver. }
  rewrite (required_silent TopLevel.validateMetadata validMetadata).
  2: { intros n Hn. apply TopLevel_validateMetadata_silent.
       by eapply field_wellFormed. }
  rewrite (required_silent TopLevel.validateSpec validSpec).
  2: { intros n Hn. apply TopLevel_validateSpec_silent.
       by eapply field_wellFormed. }
  unfold isMapping. naive_solver.
Qed.

(** X5.  [Validate] of the second document of src/main.go prints nothing
    exactly for the valid manifests: for a tree as the parser builds it,
    there is no line if and only if the tree holds a document whose root
    is a mapping with [apiVersion: v1], [kind: Pod], a [metadata] with a
    name and a [spec] whose containers are all valid and named
    differently ([validManifest]); [Validate] then returns no error, and
    for every other tree it returns one. *)
Theorem TopLevel_accepts_valid_manifests (root : Node) (fn : string) :
  wellFormed root = true →
  (stderr (TopLevel.Validate root) fn = Some [] ↔ validManifest root)
  ∧ (out (TopLevel.Validate root) fn = Some (false, []) ↔ validManifest root).
Proof.
  intros Hw.
  pose proof (validateTopLevel_silent root fn Hw) as Hvalid.
  split.
  - unfold TopLevel.Validate. by rewrite stderr_report by auto with framed.
  - rewrite <- Hvalid. unfold out, TopLevel.Validate.
    rewrite framed_report_after by auto with framed. rewrite stderr_out. simpl.
    destruct (out (TopLevel.validateTopLevel root) fn) as [[[] es]|]; simpl;
      [|naive_solver].
    split; [by intros [= _ ->]|by intros [= ->]].
Qed.

Lemma TopLevel_accepts_valid_manifests_witness :
  validManifest (podWithContainer "web")
  ∧ ¬ validManifest podWithoutAPIVersion.
Proof.
  split.
  - apply (proj1 (TopLevel_accepts_valid_manifests (podWithContainer "web")
                    "pod.yaml" eq_refl)).
    reflexivity.
  - intros H.
    apply (proj1 (TopLevel_accepts_valid_manifests podWithoutAPIVersion
                    "pod.yaml" eq_refl)) in H.
    discriminate H.
Defined.

(** ** part_000 accepts the valid manifests that have no duplicate key *)

Lemma plain_content node x : plain node → x ∈ yaml.Content node → plain x.
Proof.
  intros [Hw Hd] Hx. split; [by apply (wellFormed_content node)|].
  destruct node as [kind value line content]. simpl in *.
  apply andb_true_iff in Hd as [_ H]. rewrite forallb_forall in H.
  apply H. by apply list_elem_of_In.
Qed.

Lemma plain_field key node n : plain node → field key node = Some n → plain n.
Proof. intros Hp Hn%lastValue_elem. by apply (plain_content node). Qed.

Lemma plain_keys node :
  plain node → yaml.Kind node = yaml.MappingNode →
  Nat.even (length (yaml.Content node)) = true ∧ NoDup (keys (yaml.Content node)).
Proof.
  intros [Hw Hd] Hk. split.
  - apply wellFormed_mapping; [done|]. by apply bool_decide_eq_true.
  - destruct node as [kind value line content]. simpl in *.
    apply andb_true_iff in Hd as [H _].
    destruct (decide (kind = yaml.MappingNode)); [|done].
    by apply bool_decide_eq_true in H.
Qed.

Lemma lastValue_keys key content :
  key ∉ keys content → lastValue key content = None.
Proof.
  induction content as [|x|k v rest IH] using pairs_ind; [done..|].
  cbn [keys lastValue]. intros Hn.
  rewrite IH by (intros H; apply Hn, elem_of_cons; by right).
  destruct (String.eqb_spec (yaml.Value k) key) as [E|_]; [|done].
  destruct Hn. apply elem_of_cons. by left.
Qed.

(** Without duplicate keys, every pair of a mapping is a field of it. *)
Lemma allPairs_fields (Q : Node → Node → Prop) content :
  Nat.even (length content) = true → NoDup (keys content) →
  (∀ k v, lastValue (yaml.Value k) content = Some v → Q k v) →
  allPairs Q content.
Proof.
  induction content as [|x|k v rest IH] using pairs_ind; [done..|].
  cbn [keys allPairs lastValue]. intros He [Hk Hnd]%NoDup_cons HQ. split.
  - apply HQ. rewrite (lastValue_keys _ _ Hk). by rewrite String.eqb_refl.
  - apply IH; [done..|]. intros k' v' Hl. apply HQ. by rewrite Hl.
Qed.

Lemma allPairs_impl (P Q : Node → Node → Prop) content :
  (∀ k v, P k v → Q k v) → allPairs P content → allPairs Q content.
Proof.
  intros HPQ. induction content as [|x|k v rest IH] using pairs_ind; [done..|].
  cbn [allPairs]. naive_solver.
Qed.

(** A loop whose every round prints nothing prints nothing. *)
Lemma forPairs_quiet {S} (body : Node → Node → S → M S) (Q : Node → Node → Prop)
    content fn :
  (∀ k v s, framed (body k v s)) →
  (∀ k v s, Q k v → ∃ s', out (body k v s) fn = Some (s', [])) →
  allPairs Q content →
  ∀ s, ∃ s', out (forPairs body content s) fn = Some (s', []).
Proof.
  intros Hf Hb. induction content as [|x|k v rest IH] using pairs_ind.
  - intros _ s. by exists s.
  - done.
  - cbn [allPairs forPairs]. intros [Hq Hrest] s.
    rewrite out_bind by (first [apply Hf | intros; by apply framed_forPairs]).
    destruct (Hb k v s Hq) as (s1 & ->).
    destruct (IH Hrest s1) as (s2 & ->). by exists s2.
Qed.

Lemma forRange_quiet {S} (body : Node → S → M S) (Q : Node → Prop) content fn :
  (∀ x s, framed (body x s)) →
  (∀ x s, x ∈ content → Q x → ∃ s', out (body x s) fn = Some (s', [])) →
  Forall Q content →
  ∀ s, ∃ s', out (forRange body content s) fn = Some (s', []).
Proof.
  intros Hf. induction content as [|x rest IH]; intros Hb HQ s.
  - by exists s.
  - apply Forall_cons in HQ as [Hq Hrest]. cbn [forRange].
    rewrite out_bind by (first [apply Hf | intros; by apply framed_forRange]).
    destruct (Hb x s) as (s1 & ->); [set_solver|done|].
    destruct (IH (λ y s0 Hy, Hb y s0 (list_elem_of_further _ _ _ Hy)) Hrest s1)
      as (s2 & ->).
    by exists s2.
Qed.

Lemma out_quiet (m : M unit) fn : stderr m fn = Some [] → out m fn = Some (tt, []).
Proof. rewrite out_stderr_unit. by intros ->. Qed.

Lemma quiet_out {S} (m : M S) fn :
  (∃ s', out m fn = Some (s', [])) → stderr (m ;; ret tt) fn = Some [].
Proof.
  intros (s' & E). unfold stderr, bind, ret, out in *.
  destruct (m (NewValidator fn)) as [[a v]|]; [|done].
  injection E as _ E. by rewrite E.
Qed.

Lemma quiet_unit (m : M unit) fn :
  (∃ s', out m fn = Some (s', [])) → stderr m fn = Some [].
Proof. intros ([] & E). rewrite stderr_out. by rewrite E. Qed.

Lemma Document_validateResourceRequirements_quiet node prefix fn :
  validRequirements node →
  stderr (Document.validateResourceRequirements node prefix) fn = Some [].
Proof.
  intros [Hk Hq]. unfold Document.validateResourceRequirements, kindIs.
  rewrite bool_decide_eq_true_2 by done. cbn [negb]. apply quiet_unit.
  eapply (forPairs_quiet _ validQuantity); [framed_auto| |done].
  intros k v [] [(-> & Hs & z & Hz)|(Hm & Hs & Hmem)]; cbv beta.
  - rewrite String.eqb_refl. apply (ex_intro _ tt), out_quiet.
    unfold stderr, Document.validateCPU, kindIs.
    rewrite bool_decide_eq_true_2 by done. by rewrite Hz.
  - rewrite Hm. simpl. apply (ex_intro _ tt), out_quiet.
    by apply validateMemory_silent.
Qed.

Lemma Document_validateResources_quiet node fn :
  plain node → validResources node →
  stderr (Document.validateResources node) fn = Some [].
Proof.
  intros Hp (Hk & Hreq & Hlim). unfold Document.validateResources, kindIs.
  rewrite bool_decide_eq_true_2 by done. cbn [negb]. apply quiet_unit.
  destruct (plain_keys node Hp Hk) as [He Hnd].
  eapply (forPairs_quiet _
            (λ k v, (yaml.Value k = "requests"%string → validRequirements v)
                    ∧ (yaml.Value k = "limits"%string → validRequirements v)));
    [framed_auto| |].
  - intros k v [] [H1 H2]. cbv beta.
    destruct (String.eqb_spec (yaml.Value k) "requests") as [E|_].
    { apply (ex_intro _ tt), out_quiet.
      by apply Document_validateResourceRequirements_quiet, H1. }
    destruct (String.eqb_spec (yaml.Value k) "limits") as [E|_].
    { apply (ex_intro _ tt), out_quiet.
      by apply Document_validateResourceRequirements_quiet, H2. }
    by exists tt.
  - apply allPairs_fields; [done..|]. intros k v Hl.
    split; intros E; rewrite E in Hl; [by apply Hreq|by apply Hlim].
Qed.

Lemma ports_scan_var content (s s' : option Node) fn es :
  out (forPairs (λ key value (containerPortNode : option Node),
         if yaml.Value key == "containerPort" then ret (Some value)
         else if yaml.Value key == "protocol" then
           validateProtocol value ;; ret containerPortNode
         else ret containerPortNode) content s) fn = Some (s', es) →
  s' = orElse (lastValue "containerPort" content) s.
Proof.
  revert s es. induction content as [|x|k v rest IH] using pairs_ind; intros s es.
  - by intros [= <- _].
  - done.
  - cbn [forPairs lastValue]. rewrite out_bind by framed_auto.
    match goal with |- context [out (forPairs ?b rest _) fn] => set (body := b) in * end.
    destruct (yaml.Value k == "containerPort").
    { rewrite out_ret. destruct (out (forPairs body rest (Some v)) fn)
        as [[s1 es1]|] eqn:E; [|done].
      intros [= <- _]. apply IH in E as ->.
      by destruct (lastValue "containerPort" rest). }
    match goal with |- context [out ?m fn] =>
      destruct (out m fn) as [[s0 es0]|] eqn:E0; [|done];
      assert (s0 = s) as ->
    end.
    { revert E0. destruct (yaml.Value k == "protocol").
      { rewrite out_unit by framed_auto.
        by destruct (stderr _ fn); intros [= <- _]. }
      by intros [= <- _]. }
    destruct (out (forPairs body rest s) fn) as [[s1 es1]|] eqn:E; [|done].
    intros [= <- _]. apply IH in E as ->.
    by destruct (lastValue "containerPort" rest).
Qed.

Lemma Document_validatePorts_quiet node fn :
  plain node → validPorts node →
  stderr (Document.validatePorts node) fn = Some [].
Proof.
  intros Hp [Hk Hports]. unfold Document.validatePorts, kindIs.
  rewrite bool_decide_eq_true_2 by done. cbn [negb]. apply quiet_unit.
  eapply (forRange_quiet _ validPort); [framed_auto| |done].
  intros port [] Hin (Hm & (n & Hn & Hport) & Hproto). cbv beta.
  apply (plain_content _ _ Hp) in Hin.
  destruct (plain_keys port Hin Hm) as [He Hnd].
  unfold kindIs. rewrite bool_decide_eq_true_2 by done. cbn [negb].
  apply (ex_intro _ tt), out_quiet. rewrite stderr_out, out_bind by framed_auto.
  match goal with |- context [out (forPairs ?b _ None) fn] =>
    destruct (forPairs_quiet b
                (λ k v, yaml.Value k = "protocol"%string
                        → oneOf ["TCP"; "UDP"]%string v)
                (yaml.Content port) fn) with (s := @None Node) as (s' & Hs)
  end.
  - framed_auto.
  - intros k v s Hq.
    destruct (yaml.Value k == "containerPort"); [by eexists|].
    destruct (String.eqb_spec (yaml.Value k) "protocol") as [E|_]; [|by eexists].
    exists s. rewrite out_unit by framed_auto.
    by rewrite (proj2 (validateProtocol_silent v fn) (Hq E)).
  - apply allPairs_fields; [done..|]. intros k v Hl E. rewrite E in Hl.
    by apply Hproto.
  - rewrite Hs. apply ports_scan_var in Hs. fold (field "containerPort" port) in Hs.
    rewrite Hn in Hs. subst s'. simpl.
    rewrite out_stderr_unit.
    by rewrite (proj2 (validateContainerPort_silent n fn) Hport).
Qed.

Lemma Document_validateProbe_quiet node fn :
  wellFormed node = true → validProbe node →
  stderr (Document.validateProbe node) fn = Some [].
Proof.
  intros Hw Hv. rewrite stderr_out, validateProbe_out_agree, <- stderr_out.
  by apply TopLevel_validateProbe_silent.
Qed.

Lemma inlineLines_quiet fn content :
  allPairs (λ k v, inlineStep fn k v = Some []) content →
  inlineLines fn content = Some [].
Proof.
  induction content as [|x|k v rest IH] using pairs_ind; [done..|].
  cbn [allPairs inlineLines]. intros [-> Hrest]. by rewrite IH.
Qed.

Lemma requiredLines_quiet (validate : Node → M unit) (P : Node → Prop) what value fn :
  (∀ n, value = Some n → P n → stderr (validate n) fn = Some []) →
  required P value → requiredLines fn what validate value = Some [].
Proof. intros Hv (n & -> & Hn). by apply Hv. Qed.

Lemma Document_validateContainer_quiet c names fn :
  plain c → validContainer c →
  ∀ n, containerName c = Some n → registered names n = false →
  out (Document.validateContainer c names) fn = Some (<[n := true]> names, []).
Proof.
  intros Hp (Hk & Hname & Himage & Hres & Hports & Hready & Hlive) n Hn Hr.
  destruct (plain_keys c Hp Hk) as [He Hnd].
  rewrite Document_validateContainer_out.
  fold (field "name" c) (field "image" c) (field "resources" c).
  rewrite inlineLines_quiet. 2: {
    apply allPairs_fields; [done..|]. intros k v Hl. unfold inlineStep.
    pose proof (plain_field _ _ _ Hp Hl) as Hv.
    destruct (String.eqb_spec (yaml.Value k) "ports") as [E|_].
    { rewrite E in Hl. by apply Document_validatePorts_quiet, Hports. }
    destruct (String.eqb_spec (yaml.Value k) "readinessProbe") as [E|_].
    { rewrite E in Hl. simpl.
      apply Document_validateProbe_quiet; [apply Hv|by apply Hready]. }
    destruct (String.eqb_spec (yaml.Value k) "livenessProbe") as [E|_]; [|done].
    rewrite E in Hl. simpl.
    apply Document_validateProbe_quiet; [apply Hv|by apply Hlive]. }
  simpl.
  rewrite (proj2 (nameLines_silent fn names (field "name" c) (<[n := true]> names))).
  2: { destruct Hname as (x & Hx & Hvx). exists x. unfold containerName in Hn.
       fold (field "name" c) in Hn. rewrite Hx in Hn. injection Hn as <-. done. }
  simpl.
  rewrite (requiredLines_quiet validateImage
             (λ n, isScalar n ∧ isImage (bytes (yaml.Value n))))
    by (done || intros; by apply validateImage_silent).
  simpl.
  rewrite (requiredLines_quiet Document.validateResources validResources); [done| |done].
  intros r Hrf Hrv. apply Document_validateResources_quiet; [|done].
  by apply (plain_field "resources" c).
Qed.

Lemma Document_containers_quiet content fn :
  Forall (λ c, plain c ∧ validContainer c) content →
  NoDup (containerNames content) →
  ∀ names, (∀ n, n ∈ containerNames content → registered names n = false) →
  ∃ names',
    out (forRange (λ containerNode containerNames,
           if negb (kindIs yaml.MappingNode containerNode) then
             Errorf (yaml.Line containerNode) "container must be mapping" ;;
             ret containerNames
           else Document.validateContainer containerNode containerNames)
           content names) fn = Some (names', []).
Proof.
  induction 1 as [|c rest [Hp Hc] _ IH]; intros Hnd names Hfresh.
  - by exists names.
  - cbn [forRange]. rewrite out_bind by (intros; cbv beta; framed_auto).
    assert (∃ x, containerName c = Some x) as [x Hn].
    { destruct Hc as (_ & (n & Hn & _) & _). exists (yaml.Value n).
      unfold containerName. fold (field "name" c). by rewrite Hn. }
    unfold containerNames in Hnd, Hfresh. cbn [omap list_omap] in Hnd, Hfresh.
    fold (containerNames rest) in Hnd, Hfresh. rewrite Hn in Hnd, Hfresh.
    apply NoDup_cons in Hnd as [Hnotin Hnd].
    assert (kindIs yaml.MappingNode c = true) as Hk
      by (unfold kindIs; apply bool_decide_eq_true_2; exact (proj1 Hc)).
    cbv beta. rewrite Hk. cbn [negb].
    rewrite (Document_validateContainer_quiet c names fn Hp Hc x Hn)
      by (apply Hfresh, elem_of_cons; by left).
    destruct (IH Hnd (<[x := true]> names)) as (names' & ->); [|by exists names'].
    intros m Hm. apply registered_insert. split; [by intros ->|].
    apply Hfresh, elem_of_cons. by right.
Qed.

Lemma Document_validateContainers_quiet node fn :
  plain node → validContainers node →
  stderr (Document.validateContainers node) fn = Some [].
Proof.
  intros Hp (Hk & Hvalid & Hnd). unfold Document.validateContainers, kindIs.
  rewrite bool_decide_eq_true_2 by done. cbn [negb]. apply quiet_out.
  apply Document_containers_quiet; [|done|].
  - apply Forall_forall. intros c Hc. split; [by apply (plain_content node)|].
    rewrite Forall_forall in Hvalid. by apply Hvalid.
  - intros n _. unfold registered. by rewrite lookup_empty.
Qed.

Lemma Document_validateSpec_quiet node fn :
  plain node → validSpec node → stderr (Document.validateSpec node) fn = Some [].
Proof.
  intros Hp (Hk & Hos & (cs & Hcs & Hvalid)). unfold Document.validateSpec, kindIs.
  rewrite bool_decide_eq_true_2 by done. cbn [negb]. apply quiet_unit.
  destruct (plain_keys node Hp Hk) as [He Hnd].
  eapply (forPairs_quiet _
            (λ k v, plain v
                    ∧ (yaml.Value k = "os"%string → oneOf ["linux"; "windows"]%string v)
                    ∧ (yaml.Value k = "containers"%string → validContainers v)));
    [framed_auto| |].
  - intros k v [] (Hv & H1 & H2). cbv beta.
    destruct (String.eqb_spec (yaml.Value k) "os") as [E|_].
    { apply (ex_intro _ tt), out_quiet. by apply validateOS_silent, H1. }
    destruct (String.eqb_spec (yaml.Value k) "containers") as [E|_]; [|by exists tt].
    apply (ex_intro _ tt), out_quiet.
    by apply Document_validateContainers_quiet; [|apply H2].
  - apply allPairs_fields; [done..|]. intros k v Hl.
    split; [by apply (plain_field (yaml.Value k) node)|].
    split; intros E; rewrite E in Hl; [by apply Hos|].
    fold (field "containers" node) in Hl. rewrite Hcs in Hl. by injection Hl as <-.
Qed.

Lemma Document_validateMetadata_quiet node fn :
  plain node → validMetadata node →
  stderr (Document.validateMetadata node) fn = Some [].
Proof.
  intros Hp (Hk & (n & Hn & Hs & Hne) & Hns & Hlabels).
  unfold Document.validateMetadata, kindIs.
  rewrite bool_decide_eq_true_2 by done. cbn [negb].
  destruct (plain_keys node Hp Hk) as [He Hnd].
  rewrite stderr_out, out_bind by framed_auto.
  match goal with |- context [out (forPairs ?b _ None) fn] =>
    destruct (forPairs_quiet b
                (λ k v, plain v
                        ∧ (yaml.Value k = "namespace"%string → isScalar v)
                        ∧ (yaml.Value k = "labels"%string → validLabels v))
                (yaml.Content node) fn) with (s := @None Node) as (s' & Hscan)
  end.
  - framed_auto.
  - intros k v s ([Hw _] & H1 & H2).
    destruct (yaml.Value k == "name"); [by eexists|].
    destruct (String.eqb_spec (yaml.Value k) "namespace") as [E|_].
    { exists s. unfold kindIs. by rewrite bool_decide_eq_true_2 by (by apply H1). }
    destruct (String.eqb_spec (yaml.Value k) "labels") as [E|_]; [|by eexists].
    exists s. rewrite out_unit by framed_auto.
    by rewrite (proj2 (validateLabels_silent v fn Hw) (H2 E)).
  - apply allPairs_fields; [done..|]. intros k v Hl.
    split; [by apply (plain_field (yaml.Value k) node)|].
    split; intros E; rewrite E in Hl; [by apply Hns|by apply Hlabels].
  - rewrite Hscan. apply metadata_scan_name in Hscan.
    fold (field "name" node) in Hscan. rewrite Hn in Hscan. subst s'. simpl.
    unfold Document.validateName, kindIs.
    rewrite bool_decide_eq_true_2 by done. cbn [negb].
    by destruct (String.eqb_spec (yaml.Value n) "").
Qed.

(** X27.  part_000 raises no false alarm on a valid manifest that has no
    duplicate key: for a tree as the parser builds it in which no mapping
    has two keys of one text and [apiVersion] and [kind] are scalars,
    whenever the manifest is valid, so that [Validate] of the second
    document of src/main.go prints nothing, [Validate] of part_000 prints
    nothing either and returns no error. *)
Theorem Document_accepts_valid_manifests (root : Node) (fn : string) :
  wellFormed root = true → noDuplicateKeys root = true → scalarHead root →
  validManifest root →
  out (Document.Validate root) fn = Some (false, []).
Proof.
  intros Hw Hd Hhead (doc & rest & Hc & Hk & Hapi & Hkind & Hmeta & Hspec).
  assert (plain root) as Hp by done.
  assert (plain doc) as Hpd by (apply (plain_content root); [done|]; rewrite Hc; set_solver).
  destruct (Hhead doc) as [Hsa Hsk]; [by rewrite Hc|].
  destruct (plain_keys doc Hpd Hk) as [He Hnd].
  enough (stderr (Document.validateDocument doc) fn = Some []) as Hdoc.
  { unfold out. rewrite Document_Validate_checks.
    rewrite framed_report_after by framed_auto. rewrite Hc. simpl.
    rewrite out_bind by framed_auto. rewrite out_ret.
    rewrite out_bind by framed_auto. rewrite out_ret.
    apply out_quiet in Hdoc. by rewrite Hdoc. }
  unfold Document.validateDocument, kindIs.
  rewrite bool_decide_eq_true_2 by done. cbn [negb]. apply quiet_unit.
  eapply (forPairs_quiet _
            (λ k v, plain v
                    ∧ (yaml.Value k = "apiVersion"%string
                       → isScalar v ∧ yaml.Value v = "v1"%string)
                    ∧ (yaml.Value k = "kind"%string
                       → isScalar v ∧ yaml.Value v = "Pod"%string)
                    ∧ (yaml.Value k = "metadata"%string → validMetadata v)
                    ∧ (yaml.Value k = "spec"%string → validSpec v)));
    [framed_auto| |].
  - intros k v [] (Hv & H1 & H2 & H3 & H4). cbv beta.
    destruct (String.eqb_spec (yaml.Value k) "apiVersion") as [E|_].
    { apply (ex_intro _ tt), out_quiet. destruct (H1 E) as [Hs Hv1].
      unfold stderr, Document.validateAPIVersion, kindIs.
      rewrite bool_decide_eq_true_2 by done. by rewrite Hv1. }
    destruct (String.eqb_spec (yaml.Value k) "kind") as [E|_].
    { apply (ex_intro _ tt), out_quiet. destruct (H2 E) as [Hs Hv1].
      unfold stderr, Document.validateKind, kindIs.
      rewrite bool_decide_eq_true_2 by done. by rewrite Hv1. }
    destruct (String.eqb_spec (yaml.Value k) "metadata") as [E|_].
    { apply (ex_intro _ tt), out_quiet.
      by apply Document_validateMetadata_quiet; [|apply H3]. }
    destruct (String.eqb_spec (yaml.Value k) "spec") as [E|_]; [|by exists tt].
    apply (ex_intro _ tt), out_quiet.
    by apply Document_validateSpec_quiet; [|apply H4].
  - apply allPairs_fields; [done..|]. intros k v Hl.
    split; [by apply (plain_field (yaml.Value k) doc)|].
    split; [|split; [|split]]; intros E; rewrite E in Hl.
    + split; [by apply Hsa|]. destruct Hapi as (n & Hn & Hv1).
      fold (field "apiVersion" doc) in Hl. rewrite Hn in Hl. by injection Hl as <-.
    + split; [by apply Hsk|]. destruct Hkind as (n & Hn & Hv1).
      fold (field "kind" doc) in Hl. rewrite Hn in Hl. by injection Hl as <-.
    + destruct Hmeta as (n & Hn & Hv1). fold (field "metadata" doc) in Hl.
      rewrite Hn in Hl. by injection Hl as <-.
    + destruct Hspec as (n & Hn & Hv1). fold (field "spec" doc) in Hl.
      rewrite Hn in Hl. by injection Hl as <-.
Qed.

Lemma Document_accepts_valid_manifests_witness :
  out (Document.Validate (podWithContainer "web")) "pod.yaml" = Some (false, []).
Proof.
  apply Document_accepts_valid_manifests.
  - reflexivity.
  - vm_compute. reflexivity.
  - intros doc Hdoc. injection Hdoc as <-.
    split; intros n Hn; vm_compute in Hn; injection Hn as <-; reflexivity.
  - apply (validateTopLevel_silent (podWithContainer "web") "pod.yaml");
      reflexivity.
Defined.

(** ** The order of the lines of part_000 *)

Lemma forPairs_app {S} (body : Node → Node → S → M S) pre post :
  Nat.even (length pre) = true →
  ∀ s v, forPairs body (pre ++ post) s v
         = bind (forPairs body pre s) (forPairs body post) v.
Proof.
  induction pre as [|x|k val rest IH] using pairs_ind; intros He s v.
  - done.
  - done.
  - cbn [app forPairs]. unfold bind.
    destruct (body k val s v) as [[s1 v1]|]; [|done]. by rewrite IH.
Qed.

(** X28.  [validateDocument] of part_000 reports the fields of the root
    in the order of the manifest: the lines for a root mapping are the
    lines for its first pairs followed by the lines for the pairs after
    them, wherever the mapping is cut between two pairs. *)
Theorem validateDocument_in_order (value : string) (line : Z) (pre post : list Node)
    (fn : string) :
  Nat.even (length pre) = true →
  stderr (Document.validateDocument
            (yaml.mkNode yaml.MappingNode value line (pre ++ post))) fn
  = (es1 ← stderr (Document.validateDocument
                     (yaml.mkNode yaml.MappingNode value line pre)) fn;
     es2 ← stderr (Document.validateDocument
                     (yaml.mkNode yaml.MappingNode value line post)) fn;
     Some (es1 ++ es2)).
Proof.
  intros He. rewrite !stderr_out. unfold Document.validateDocument, kindIs.
  rewrite !bool_decide_eq_true_2 by done. cbn [negb yaml.Content].
  match goal with |- context [forPairs ?b pre tt] => set (body := b) end.
  assert (∀ k v s, framed (body k v s)) as Hf
    by (intros; subst body; cbv beta; framed_auto).
  transitivity (snd <$> out (bind (forPairs body pre tt) (forPairs body post)) fn).
  { unfold out. by rewrite forPairs_app. }
  rewrite out_bind by (intros; by apply framed_forPairs).
  destruct (out (forPairs body pre tt) fn) as [[[] es1]|]; [|done]. simpl.
  by destruct (out (forPairs body post tt) fn) as [[[] es2]|].
Qed.

Lemma validateDocument_in_order_witness :
  stderr (Document.validateDocument
            (mapping 1 ([scalar 1 "kind"; scalar 1 "Job"]
                        ++ [scalar 2 "apiVersion"; scalar 2 "v2"]))) "pod.yaml"
  = Some ["pod.yaml:1 kind has unsupported value 'Job'";
          "pod.yaml:2 apiVersion has unsupported value 'v2'"].
Proof.
  exact (validateDocument_in_order "" 1 [scalar 1 "kind"; scalar 1 "Job"]
           [scalar 2 "apiVersion"; scalar 2 "v2"] "pod.yaml" eq_refl).
Defined.

(** ** The line numbers of the lines *)

Lemma inTree_trans n c root : inTree n c → inTree c root → inTree n root.
Proof.
  intros Hn Hc. induction Hc as [|c' root Hin _ IH]; [done|].
  by apply (inTree_child _ c').
Qed.

Lemma cites_zero root : cites root 0.
Proof. by left. Qed.

Lemma cites_node n root : inTree n root → cites root (yaml.Line n).
Proof. intros Hn. right. by exists n. Qed.

Lemma cites_sub c root line : inTree c root → cites c line → cites root line.
Proof.
  intros Hc [->|(n & Hn & <-)]; [by left|].
  right. exists n. split; [|done]. by apply (inTree_trans n c).
Qed.

Lemma logsAt_ret {A} L (Q : A → Prop) a : Q a → logsAt L Q (ret a).
Proof.
  intros HQ v a' v' [= <- <-]. split; [done|]. split; [done|].
  exists []. by rewrite app_nil_r.
Qed.

Lemma logsAt_panic {A} L (Q : A → Prop) : logsAt L Q panic.
Proof. by intros v a v'. Qed.

Lemma logsAt_Errorf (L : Z → Prop) (Q : unit → Prop) line msg :
  L line → Q tt → logsAt L Q (Errorf line msg).
Proof.
  intros HL HQ v a v' [= <- <-]. split; [done|]. split; [done|]. simpl.
  eexists; split; [done|]. constructor; [|done]. by exists line, msg.
Qed.

Lemma logsAt_bind {A B} L (P : A → Prop) (Q : B → Prop) (m : M A) (k : A → M B) :
  logsAt L P m → (∀ a, P a → logsAt L Q (k a)) → logsAt L Q (bind m k).
Proof.
  intros Hm Hk v b v'. unfold bind.
  destruct (m v) as [[a v1]|] eqn:E1; [|done]. intros E2.
  destruct (Hm _ _ _ E1) as (Ha & F1 & es1 & G1 & H1).
  destruct (Hk a Ha _ _ _ E2) as (Hb & F2 & es2 & G2 & H2).
  split; [done|]. split; [congruence|]. exists (es1 ++ es2). split.
  - by rewrite G2, G1, app_assoc.
  - apply Forall_app. split; [done|]. by rewrite <- F1.
Qed.

Lemma logsAt_when L (Q : unit → Prop) b m : Q tt → logsAt L Q m → logsAt L Q (when b m).
Proof. destruct b; [done|]. intros HQ _. by apply logsAt_ret. Qed.

Lemma logsAt_weaken {A} (L L' : Z → Prop) (Q Q' : A → Prop) (m : M A) :
  (∀ l, L l → L' l) → (∀ a, Q a → Q' a) → logsAt L Q m → logsAt L' Q' m.
Proof.
  intros HL HQ Hm v a v' E. destruct (Hm _ _ _ E) as (Ha & F & es & G & H).
  split; [by apply HQ|]. split; [done|]. exists es. split; [done|].
  eapply Forall_impl; [done|]. intros s (line & msg & -> & Hl).
  exists line, msg. split; [done|]. by apply HL.
Qed.

Lemma logsAt_forPairs {S} L (I : S → Prop) (body : Node → Node → S → M S) content :
  (∀ key value s, key ∈ content → value ∈ content → I s →
                  logsAt L I (body key value s)) →
  ∀ s, I s → logsAt L I (forPairs body content s).
Proof.
  induction content as [|x|k v rest IH] using pairs_ind; intros Hb s Hs; simpl.
  - by apply logsAt_ret.
  - apply logsAt_panic.
  - apply (logsAt_bind _ I).
    + apply Hb; [set_solver..|done].
    + intros s' Hs'. apply IH; [|done].
      intros key value s0 Hk Hv. apply Hb; set_solver.
Qed.

Lemma logsAt_forRange {S} L (I : S → Prop) (body : Node → S → M S) content :
  (∀ x s, x ∈ content → I s → logsAt L I (body x s)) →
  ∀ s, I s → logsAt L I (forRange body content s).
Proof.
  induction content as [|x rest IH]; intros Hb s Hs; simpl.
  - by apply logsAt_ret.
  - apply (logsAt_bind _ I).
    + apply Hb; [set_solver|done].
    + intros s' Hs'. apply IH; [|done]. intros y s0 Hy. apply Hb. set_solver.
Qed.

Lemma logsAt_stderr {A} L (Q : A → Prop) (m : M A) fn es :
  logsAt L Q m → stderr m fn = Some es → Forall (lineAt L fn) es.
Proof.
  intros Hm. unfold stderr.
  destruct (m (NewValidator fn)) as [[a v']|] eqn:E; [|done].
  intros [= <-]. by destruct (Hm _ _ _ E) as (_ & _ & es & -> & H).
Qed.

Lemma collectFields_fieldsOf L content :
  logsAt L (fieldsOf content) (TopLevel.collectFields content).
Proof.
  intros v fields v'. rewrite collectFields_run.
  destruct (Nat.even (length content)); [|done]. intros [= <- <-].
  split; [|split; [done|exists []; by rewrite app_nil_r]].
  intros key n. rewrite collectFields_lookup. apply lastValue_elem.
Qed.

Create HintDb cites.

#[global] Hint Resolve inTree_here inTree_child : cites.

(** A line number is none, the line of the node, or the line of a node
    under it. *)
Ltac cited :=
  first [ apply cites_zero | apply cites_node; solve [eauto 4 with cites] ].

(** A call on a node of the tree. *)
Ltac cites_call :=
  eapply logsAt_weaken; [..|solve [eauto with cites]];
  [intros ?; apply cites_sub; solve [eauto 4 with cites]|done].

Ltac cites_step :=
  match goal with
  | |- logsAt _ _ (bind (TopLevel.collectFields ?c) _) =>
      let fields := fresh "fields" in
      let Hf := fresh "Hf" in
      apply (logsAt_bind _ (fieldsOf c));
      [apply collectFields_fieldsOf|intros fields Hf]
  | |- logsAt _ _ (bind _ _) => apply (logsAt_bind _ (λ _, True)); [|intros ? _]
  | |- logsAt _ _ (ret _) => by apply logsAt_ret
  | |- logsAt _ _ panic => apply logsAt_panic
  | |- logsAt _ _ (Errorf _ _) => apply logsAt_Errorf; [cited|done]
  | |- logsAt _ _ (when _ _) => apply logsAt_when; [done|]
  | |- logsAt _ _ (if ?b then _ else _) => destruct b
  | Hf : fieldsOf _ ?f |- logsAt _ _ (match ?f !! ?k with _ => _ end) =>
      let E := fresh "E" in
      destruct (f !! k) eqn:E; [apply Hf in E|]
  | |- logsAt _ _ (match ?o with _ => _ end) => destruct o
  end.

Ltac cites_auto :=
  intros; repeat first [cites_step | solve [eauto with cites] | cites_call].

Lemma validateLabels_cites node :
  logsAt (cites node) (λ _, True) (validateLabels node).
Proof.
  unfold validateLabels. destruct (negb _); [cites_auto|].
  apply (logsAt_forPairs _ (λ _, True)); [|done]. cites_auto.
Qed.

Lemma validateOS_cites node : logsAt (cites node) (λ _, True) (validateOS node).
Proof. unfold validateOS. cites_auto. Qed.

Lemma validateContainerName_cites node names :
  logsAt (cites node) (λ _, True) (validateContainerName node names).
Proof. unfold validateContainerName. cites_auto. Qed.

Lemma validateImage_cites node : logsAt (cites node) (λ _, True) (validateImage node).
Proof. unfold validateImage. cites_auto. Qed.

Lemma validateMemory_cites node prefix :
  logsAt (cites node) (λ _, True) (validateMemory node prefix).
Proof. unfold validateMemory. cites_auto. Qed.

Lemma validateContainerPort_cites node :
  logsAt (cites node) (λ _, True) (validateContainerPort node).
Proof. unfold validateContainerPort. cites_auto. Qed.

Lemma validateProtocol_cites node :
  logsAt (cites node) (λ _, True) (validateProtocol node).
Proof. unfold validateProtocol. cites_auto. Qed.

Lemma validateProbePort_cites node :
  logsAt (cites node) (λ _, True) (validateProbePort node).
Proof. unfold validateProbePort. cites_auto. Qed.

#[global] Hint Resolve validateLabels_cites validateOS_cites
  validateContainerName_cites validateImage_cites validateMemory_cites
  validateContainerPort_cites validateProtocol_cites validateProbePort_cites
  : cites.

(** *** The second document of src/main.go *)

Lemma TopLevel_validateAPIVersion_cites node :
  logsAt (cites node) (λ _, True) (TopLevel.validateAPIVersion node).
Proof. unfold TopLevel.validateAPIVersion. cites_auto. Qed.

Lemma TopLevel_validateKind_cites node :
  logsAt (cites node) (λ _, True) (TopLevel.validateKind node).
Proof. unfold TopLevel.validateKind. cites_auto. Qed.

Lemma TopLevel_validateCPU_cites node prefix :
  logsAt (cites node) (λ _, True) (TopLevel.validateCPU node prefix).
Proof. unfold TopLevel.validateCPU. cites_auto. Qed.

#[global] Hint Resolve TopLevel_validateAPIVersion_cites TopLevel_validateKind_cites
  TopLevel_validateCPU_cites : cites.

Lemma TopLevel_validateMetadata_cites node :
  logsAt (cites node) (λ _, True) (TopLevel.validateMetadata node).
Proof. unfold TopLevel.validateMetadata. cites_auto. Qed.

Lemma TopLevel_validateResourceRequirements_cites node prefix :
  logsAt (cites node) (λ _, True) (TopLevel.validateResourceRequirements node prefix).
Proof.
  unfold TopLevel.validateResourceRequirements. destruct (negb _); [cites_auto|].
  apply (logsAt_forPairs _ (λ _, True)); [|done]. cites_auto.
Qed.

#[global] Hint Resolve TopLevel_validateMetadata_cites
  TopLevel_validateResourceRequirements_cites : cites.

Lemma TopLevel_validateResources_cites node :
  logsAt (cites node) (λ _, True) (TopLevel.validateResources node).
Proof. unfold TopLevel.validateResources. cites_auto. Qed.

Lemma TopLevel_validatePorts_cites node :
  logsAt (cites node) (λ _, True) (TopLevel.validatePorts node).
Proof.
  unfold TopLevel.validatePorts. destruct (negb _); [cites_auto|].
  apply (logsAt_forRange _ (λ _, True)); [|done]. cites_auto.
Qed.

Lemma TopLevel_validateHTTPGetAction_cites node :
  logsAt (cites node) (λ _, True) (TopLevel.validateHTTPGetAction node).
Proof. unfold TopLevel.validateHTTPGetAction. cites_auto. Qed.

#[global] Hint Resolve TopLevel_validateResources_cites TopLevel_validatePorts_cites
  TopLevel_validateHTTPGetAction_cites : cites.

Lemma TopLevel_validateProbe_cites node :
  logsAt (cites node) (λ _, True) (TopLevel.validateProbe node).
Proof. unfold TopLevel.validateProbe. cites_auto. Qed.

#[global] Hint Resolve TopLevel_validateProbe_cites : cites.

Lemma TopLevel_validateContainers_body_cites node names :
  logsAt (cites node) (λ _, True) (TopLevel.validateContainers_body node names).
Proof. unfold TopLevel.validateContainers_body. cites_auto. Qed.

#[global] Hint Resolve TopLevel_validateContainers_body_cites : cites.

Lemma TopLevel_validateContainers_cites node :
  logsAt (cites node) (λ _, True) (TopLevel.validateContainers node).
Proof.
  unfold TopLevel.validateContainers. destruct (negb _); [cites_auto|].
  apply (logsAt_bind _ (λ _, True)); [|cites_auto].
  apply (logsAt_forRange _ (λ _, True)); [|done]. cites_auto.
Qed.

#[global] Hint Resolve TopLevel_validateContainers_cites : cites.

Lemma TopLevel_validateSpec_cites node :
  logsAt (cites node) (λ _, True) (TopLevel.validateSpec node).
Proof. unfold TopLevel.validateSpec. cites_auto. Qed.

#[global] Hint Resolve TopLevel_validateSpec_cites : cites.

Lemma validateTopLevel_cites root :
  logsAt (cites root) (λ _, True) (TopLevel.validateTopLevel root).
Proof.
  unfold TopLevel.validateTopLevel.
  destruct (yaml.Content root) as [|doc rest] eqn:Ec; [cites_auto|].
  assert (doc ∈ yaml.Content root) as Hdoc by (rewrite Ec; set_solver).
  cites_auto.
Qed.

(** *** part_000 *)

Lemma Document_validateAPIVersion_cites node :
  logsAt (cites node) (λ _, True) (Document.validateAPIVersion node).
Proof. unfold Document.validateAPIVersion. cites_auto. Qed.

Lemma Document_validateKind_cites node :
  logsAt (cites node) (λ _, True) (Document.validateKind node).
Proof. unfold Document.validateKind. cites_auto. Qed.

Lemma validateName_cites node :
  logsAt (cites node) (λ _, True) (Document.validateName node).
Proof. unfold Document.validateName. cites_auto. Qed.

Lemma Document_validateCPU_cites node :
  logsAt (cites node) (λ _, True) (Document.validateCPU node).
Proof. unfold Document.validateCPU. cites_auto. Qed.

Lemma validatePath_cites node :
  logsAt (cites node) (λ _, True) (Document.validatePath node).
Proof. unfold Document.validatePath. cites_auto. Qed.

#[global] Hint Resolve Document_validateAPIVersion_cites Document_validateKind_cites
  validateName_cites Document_validateCPU_cites validatePath_cites : cites.

Ltac cites_scan :=
  match goal with
  | |- logsAt _ _ (bind (forPairs _ ?content _) _) =>
      apply (logsAt_bind _ (varOf content));
      [apply logsAt_forPairs; [|by intros ?]|]
  end.

Lemma varOf_Some content n : n ∈ content → varOf content (Some n).
Proof. by intros Hn ? [= <-]. Qed.

Lemma Document_validateMetadata_cites node :
  logsAt (cites node) (λ _, True) (Document.validateMetadata node).
Proof.
  unfold Document.validateMetadata. destruct (negb _); [cites_auto|]. cites_scan.
  - intros key value s Hk Hv Hs.
    destruct (_ == _); [by apply logsAt_ret, varOf_Some|].
    destruct (_ == _).
    { apply (logsAt_bind _ (λ _, True)); [cites_auto|]. intros _ _.
      by apply logsAt_ret. }
    destruct (_ == _); [|by apply logsAt_ret].
    apply (logsAt_bind _ (λ _, True)); [cites_auto|]. intros _ _.
    by apply logsAt_ret.
  - intros [n|] Hn; [specialize (Hn n eq_refl)|]; cites_auto.
Qed.

Lemma Document_validateResourceRequirements_cites node prefix :
  logsAt (cites node) (λ _, True) (Document.validateResourceRequirements node prefix).
Proof.
  unfold Document.validateResourceRequirements. destruct (negb _); [cites_auto|].
  apply (logsAt_forPairs _ (λ _, True)); [|done]. cites_auto.
Qed.

#[global] Hint Resolve Document_validateMetadata_cites
  Document_validateResourceRequirements_cites : cites.

Lemma Document_validateResources_cites node :
  logsAt (cites node) (λ _, True) (Document.validateResources node).
Proof.
  unfold Document.validateResources. destruct (negb _); [cites_auto|].
  apply (logsAt_forPairs _ (λ _, True)); [|done]. cites_auto.
Qed.

Lemma Document_port_cites port :
  logsAt (cites port) (λ _, True)
    (containerPortNode <-
       forPairs (λ key value (containerPortNode : option Node),
         if yaml.Value key == "containerPort" then ret (Some value)
         else if yaml.Value key == "protocol" then
           validateProtocol value ;; ret containerPortNode
         else ret containerPortNode)
         (yaml.Content port) None ;;
     match containerPortNode with
     | None => Errorf 0 "containerPort is required"
     | Some containerPortNode => validateContainerPort containerPortNode
     end).
Proof.
  cites_scan.
  - intros key value s Hk Hv Hs.
    destruct (_ == _); [by apply logsAt_ret, varOf_Some|].
    destruct (_ == _); [|by apply logsAt_ret].
    apply (logsAt_bind _ (λ _, True)); [cites_auto|]. intros _ _.
    by apply logsAt_ret.
  - intros [n|] Hn; [specialize (Hn n eq_refl)|]; cites_auto.
Qed.

Lemma Document_validatePorts_cites node :
  logsAt (cites node) (λ _, True) (Document.validatePorts node).
Proof.
  unfold Document.validatePorts. destruct (negb _); [cites_auto|].
  apply (logsAt_forRange _ (λ _, True)); [|done].
  intros port [] Hp _. destruct (negb _); [cites_auto|].
  eapply logsAt_weaken; [| |apply Document_port_cites]; [|done].
  intros l. apply cites_sub. eauto with cites.
Qed.

Lemma Document_validateHTTPGetAction_cites node :
  logsAt (cites node) (λ _, True) (Document.validateHTTPGetAction node).
Proof.
  unfold Document.validateHTTPGetAction. destruct (negb _); [cites_auto|].
  apply (logsAt_bind _ (λ vars, varOf (yaml.Content node) vars.1
                                ∧ varOf (yaml.Content node) vars.2)).
  - apply logsAt_forPairs; [|by split; intros ?].
    intros key value [pathNode portNode] Hk Hv [Hs1 Hs2].
    destruct (_ == _); [apply logsAt_ret; split; [by apply varOf_Some|done]|].
    destruct (_ == _); [apply logsAt_ret; split; [done|by apply varOf_Some]|].
    by apply logsAt_ret.
  - intros [[p|] [q|]] [Hp Hq]; simpl in *;
      try specialize (Hp p eq_refl); try specialize (Hq q eq_refl); cites_auto.
Qed.

#[global] Hint Resolve Document_validateResources_cites Document_validatePorts_cites
  Document_validateHTTPGetAction_cites : cites.

Lemma Document_validateProbe_cites node :
  logsAt (cites node) (λ _, True) (Document.validateProbe node).
Proof.
  unfold Document.validateProbe. destruct (negb _); [cites_auto|]. cites_scan.
  - intros key value s Hk Hv Hs.
    destruct (_ == _); apply logsAt_ret; [by apply varOf_Some|done].
  - intros [n|] Hn; [specialize (Hn n eq_refl)|]; cites_auto.
Qed.

#[global] Hint Resolve Document_validateProbe_cites : cites.

Lemma validateContainer_cites node names :
  logsAt (cites node) (λ _, True) (Document.validateContainer node names).
Proof.
  unfold Document.validateContainer.
  apply (logsAt_bind _ (λ vars, varOf (yaml.Content node) (Document.nameNode vars)
                                ∧ varOf (yaml.Content node) (Document.imageNode vars)
                                ∧ varOf (yaml.Content node) (Document.resourcesNode vars))).
  - apply logsAt_forPairs; [|by repeat split; intros ?].
    intros key value vars Hk Hv (H1 & H2 & H3).
    unfold Document.validateContainer_scan.
    repeat match goal with
      | |- logsAt _ _ (if ?b then _ else _) => destruct b
      | |- logsAt _ _ (ret _) =>
          apply logsAt_ret; simpl; repeat split; first [done|by apply varOf_Some]
      | |- logsAt _ _ (bind _ _) =>
          apply (logsAt_bind _ (λ _, True)); [cites_auto|intros _ _]
      end.
  - intros [[n|] [i|] [r|]] (Hn & Hi & Hr); simpl in *;
      try specialize (Hn n eq_refl); try specialize (Hi i eq_refl);
      try specialize (Hr r eq_refl); cites_auto.
Qed.

#[global] Hint Resolve validateContainer_cites : cites.

Lemma Document_validateContainers_cites node :
  logsAt (cites node) (λ _, True) (Document.validateContainers node).
Proof.
  unfold Document.validateContainers. destruct (negb _); [cites_auto|].
  apply (logsAt_bind _ (λ _, True)); [|cites_auto].
  apply (logsAt_forRange _ (λ _, True)); [|done]. cites_auto.
Qed.

#[global] Hint Resolve Document_validateContainers_cites : cites.

Lemma Document_validateSpec_cites node :
  logsAt (cites node) (λ _, True) (Document.validateSpec node).
Proof.
  unfold Document.validateSpec. destruct (negb _); [cites_auto|].
  apply (logsAt_forPairs _ (λ _, True)); [|done]. cites_auto.
Qed.

#[global] Hint Resolve Document_validateSpec_cites : cites.

Lemma validateDocument_cites node :
  logsAt (cites node) (λ _, True) (Document.validateDocument node).
Proof.
  unfold Document.validateDocument. destruct (negb _); [cites_auto|].
  apply (logsAt_forPairs _ (λ _, True)); [|done]. cites_auto.
Qed.

Lemma logsAt_report L : logsAt L (λ _, True) report.
Proof.
  intros v a v' [= <- <-]. split; [done|]. split; [done|].
  exists []. by rewrite app_nil_r.
Qed.

(** X29.  Every line either [Validator] prints is the name of the file,
    a line number when it is positive, and a message, and the line number
    is never made up: it is zero, which is not printed, or the line of a
    node of the tree that was validated. *)
Theorem lines_cite_the_manifest (root : Node) (fn : string) (es : list string) :
  stderr (TopLevel.Validate root) fn = Some es
  ∨ stderr (Document.Validate root) fn = Some es →
  Forall (lineAt (cites root) fn) es.
Proof.
  intros [H|H]; revert H; apply (logsAt_stderr _ (λ _, True)).
  - unfold TopLevel.Validate.
    apply (logsAt_bind _ (λ _, True)); [apply validateTopLevel_cites|].
    intros _ _. apply logsAt_report.
  - unfold Document.Validate.
    apply (logsAt_bind _ (λ _, True)); [cites_auto|]. intros _ _.
    apply (logsAt_bind _ (λ doc, doc ∈ yaml.Content root)).
    { destruct (yaml.Content root); [apply logsAt_panic|].
      apply logsAt_ret. set_solver. }
    intros doc Hdoc.
    apply (logsAt_bind _ (λ _, True)); [|intros _ _; apply logsAt_report].
    eapply logsAt_weaken; [| |apply validateDocument_cites]; [|done].
    intros l. apply cites_sub. eauto with cites.
Qed.

Lemma lines_cite_the_manifest_witness :
  Forall (lineAt (cites (document (sequence 3 []))) "pod.yaml")
    ["pod.yaml:3 root must be mapping"%string].
Proof.
  apply (lines_cite_the_manifest (document (sequence 3 [])) "pod.yaml").
  left. reflexivity.
Defined.
